(** * FINAL CUT keyboard input decoder (final/input/fkeyboard.cpp)

    A shallow embedding of [FKeyboard]: the byte buffer [fifo_buf], the
    classifier [parseKeyString] with its four sub-lookups, the UTF-8
    decoder, the timeout-driven special cases and the decoded-key queue,
    followed by the properties of the decoder stated in the
    specification. *)

From Stdlib Require Import ZArith List Bool Ascii Lia.
From stdpp Require Import base list.

Local Open Scope Z_scope.

(** ** Key identifiers and the constants of the missing headers *)

(** [enum class FKey : uInt32]: a key identifier is an unsigned 32-bit
    value; the arithmetic the decoder does on it wraps at [2^32]. *)
Definition FKey : Type := Z.

Definition wrap32 (z : Z) : Z := z mod 2 ^ 32.

(** One entry of a key table ([FKeyMap::KeyMapType] and
    [FKeyMap::KeyCapMapType]): the key, its byte string (the bytes before
    the terminating NUL) and the stored length. *)
Record KeyMap : Type := mkKeyMap {
  num : FKey;
  kstring : list Z;
  klength : nat
}.

Module FKey.

(** What [fkeyboard.cpp] takes from headers and tables that are not part
    of the sources ([final/fc.h], [final/input/fkeyboard.h],
    [final/input/fkey_map.h]): the enumerators of [FKey] it names, the
    sentinel [NOT_SET], the two capacities and the generic key table
    returned by [FKeyMap::getKeyMap()]. They are parameters of the whole
    development. *)
Class Header : Type := mkHeader {
  None : FKey;
  Incomplete : FKey;
  Ctrl_space : FKey;
  Backspace : FKey;
  X11mouse : FKey;
  Extended_mouse : FKey;
  Urxvt_mouse : FKey;
  Meta_O : FKey;
  Meta_left_square_bracket : FKey;
  Meta_right_square_bracket : FKey;
  NOT_SET : FKey;
  FIFO_BUF_SIZE : nat;
  MAX_QUEUE_SIZE : nat;
  getKeyMap : list KeyMap
}.

End FKey.

Abbreviation NOT_SET := FKey.NOT_SET.
Abbreviation FIFO_BUF_SIZE := FKey.FIFO_BUF_SIZE.
Abbreviation MAX_QUEUE_SIZE := FKey.MAX_QUEUE_SIZE.

(** Modelled from the spec: the Escape byte [ESC[0]] of the macro [ESC]
    (declared in [final/fc.h]), which the glossary gives as 0x1B. *)
Definition ESC0 : Z := 0x1b.

(** ** The decoder state *)

(** The data members of [FKeyboard] the decoder reads and writes,
    together with the static attributes [key_timeout],
    [read_blocking_time_short], [non_blocking_input_support] and
    [time_keypressed]. A [char] of [fifo_buf] is kept as its value as
    [uChar], in [0, 256); the source compares buffer bytes only with
    [==] against ASCII constants and with the digit ranges, which read
    the same on either signedness. Times are in microseconds. *)
Record FKeyboard : Type := mkFKeyboard {
  fkey : FKey;
  key : FKey;
  fifo_buf : list Z;
  fifo_offset : nat;
  has_pending_input : bool;
  fifo_in_use : bool;
  unprocessed_buffer_data : bool;
  utf8_input : bool;
  mouse_support : bool;
  fkey_queue : list FKey;
  key_cap_ptr : option (list KeyMap);
  key_timeout : Z;
  read_blocking_time_short : Z;
  non_blocking_input_support : bool;
  time_keypressed : Z
}.

Definition set_fkey (v : FKey) (kb : FKeyboard) : FKeyboard :=
  mkFKeyboard v (key kb) (fifo_buf kb) (fifo_offset kb)
    (has_pending_input kb) (fifo_in_use kb) (unprocessed_buffer_data kb)
    (utf8_input kb) (mouse_support kb) (fkey_queue kb) (key_cap_ptr kb)
    (key_timeout kb) (read_blocking_time_short kb)
    (non_blocking_input_support kb) (time_keypressed kb).

Definition set_key (v : FKey) (kb : FKeyboard) : FKeyboard :=
  mkFKeyboard (fkey kb) v (fifo_buf kb) (fifo_offset kb)
    (has_pending_input kb) (fifo_in_use kb) (unprocessed_buffer_data kb)
    (utf8_input kb) (mouse_support kb) (fkey_queue kb) (key_cap_ptr kb)
    (key_timeout kb) (read_blocking_time_short kb)
    (non_blocking_input_support kb) (time_keypressed kb).

Definition set_fifo_buf (v : list Z) (kb : FKeyboard) : FKeyboard :=
  mkFKeyboard (fkey kb) (key kb) v (fifo_offset kb)
    (has_pending_input kb) (fifo_in_use kb) (unprocessed_buffer_data kb)
    (utf8_input kb) (mouse_support kb) (fkey_queue kb) (key_cap_ptr kb)
    (key_timeout kb) (read_blocking_time_short kb)
    (non_blocking_input_support kb) (time_keypressed kb).

Definition set_fifo_offset (v : nat) (kb : FKeyboard) : FKeyboard :=
  mkFKeyboard (fkey kb) (key kb) (fifo_buf kb) v
    (has_pending_input kb) (fifo_in_use kb) (unprocessed_buffer_data kb)
    (utf8_input kb) (mouse_support kb) (fkey_queue kb) (key_cap_ptr kb)
    (key_timeout kb) (read_blocking_time_short kb)
    (non_blocking_input_support kb) (time_keypressed kb).

Definition set_has_pending_input (v : bool) (kb : FKeyboard) : FKeyboard :=
  mkFKeyboard (fkey kb) (key kb) (fifo_buf kb) (fifo_offset kb)
    v (fifo_in_use kb) (unprocessed_buffer_data kb)
    (utf8_input kb) (mouse_support kb) (fkey_queue kb) (key_cap_ptr kb)
    (key_timeout kb) (read_blocking_time_short kb)
    (non_blocking_input_support kb) (time_keypressed kb).

Definition set_fifo_in_use (v : bool) (kb : FKeyboard) : FKeyboard :=
  mkFKeyboard (fkey kb) (key kb) (fifo_buf kb) (fifo_offset kb)
    (has_pending_input kb) v (unprocessed_buffer_data kb)
    (utf8_input kb) (mouse_support kb) (fkey_queue kb) (key_cap_ptr kb)
    (key_timeout kb) (read_blocking_time_short kb)
    (non_blocking_input_support kb) (time_keypressed kb).

Definition set_unprocessed_buffer_data (v : bool) (kb : FKeyboard)
  : FKeyboard :=
  mkFKeyboard (fkey kb) (key kb) (fifo_buf kb) (fifo_offset kb)
    (has_pending_input kb) (fifo_in_use kb) v
    (utf8_input kb) (mouse_support kb) (fkey_queue kb) (key_cap_ptr kb)
    (key_timeout kb) (read_blocking_time_short kb)
    (non_blocking_input_support kb) (time_keypressed kb).

Definition set_fkey_queue (v : list FKey) (kb : FKeyboard) : FKeyboard :=
  mkFKeyboard (fkey kb) (key kb) (fifo_buf kb) (fifo_offset kb)
    (has_pending_input kb) (fifo_in_use kb) (unprocessed_buffer_data kb)
    (utf8_input kb) (mouse_support kb) v (key_cap_ptr kb)
    (key_timeout kb) (read_blocking_time_short kb)
    (non_blocking_input_support kb) (time_keypressed kb).

Definition set_time_keypressed (v : Z) (kb : FKeyboard) : FKeyboard :=
  mkFKeyboard (fkey kb) (key kb) (fifo_buf kb) (fifo_offset kb)
    (has_pending_input kb) (fifo_in_use kb) (unprocessed_buffer_data kb)
    (utf8_input kb) (mouse_support kb) (fkey_queue kb) (key_cap_ptr kb)
    (key_timeout kb) (read_blocking_time_short kb)
    (non_blocking_input_support kb) v.

(** [fkey_queue.push(k)]: the queue is a FIFO, new keys go to the back. *)
Definition push (k : FKey) (kb : FKeyboard) : FKeyboard :=
  set_fkey_queue (fkey_queue kb ++ [k]) kb.

(** ** C strings *)

(** A character constant of the source, such as ['['], as a byte. *)
Definition chr (a : ascii) : Z := Z.of_N (N_of_ascii a).

(** [fifo_buf[i]]; a read past the end of the array, which the source
    never does on a buffer of at least four bytes, is given as 0. *)
Definition at_ (buf : list Z) (i : nat) : Z := default 0 (buf !! i).

(** [stringLength(fifo_buf)]: the index of the first NUL byte. On an
    array that holds no NUL the scan of the source leaves the array,
    which has no defined result; the value here is then the length of the
    array. *)
Fixpoint stringLength (s : list Z) : nat :=
  match s with
  | [] => O
  | c :: s' => if c =? 0 then O else S (stringLength s')
  end.

(** [std::strncmp(kstr, fifo_buf, klen) == 0]: the first [n] bytes agree,
    or the strings agree up to and including a common NUL before that.
    Reading [kstr] at its end yields its terminating NUL. *)
Fixpoint strncmp_eq (s1 s2 : list Z) (n : nat) : bool :=
  match n with
  | O => true
  | S n' =>
      let c1 := hd 0 s1 in
      let c2 := hd 0 s2 in
      if c1 =? c2
      then (if c1 =? 0 then true else strncmp_eq (tl s1) (tl s2) n')
      else false
  end.

(** ** The host and the standard input *)

(** What the host application supplies: the command objects bound to the
    keyboard ([escape_key_cmd], [mouse_tracking_cmd]), which may act on
    the keyboard they are given, and on Linux the console's
    [modifierKeyCorrection], consulted only for the terminal type
    [linux_con]. *)
Class Host : Type := mkHost {
  escape_key_cmd : FKeyboard -> FKeyboard;
  mouse_tracking_cmd : FKeyboard -> FKeyboard;
  linux_con : bool;
  modifierKeyCorrection : FKey -> FKey
}.

(** The standard input as [select] sees it: the answers the coming calls
    will give ([select(...) > 0 && FD_ISSET(stdin_no, &ifds)], [false]
    once the list is used up) and the timeouts [tv_usec] of the calls
    made so far. *)
Record Stdin : Type := mkStdin {
  answers : list bool;
  polls : list Z
}.

Definition select (tv_usec : Z) (io : Stdin) : bool * Stdin :=
  (hd false (answers io), mkStdin (tl (answers io)) (polls io ++ [tv_usec])).

Section Decoder.

Context {hdr : FKey.Header} {host : Host}.

(** ** UTF-8 decoder *)

(** The body of the [for] loop of [UTF8decode]: one byte [ch] folded into
    the accumulator [ucs]. *)
Definition UTF8decode_step (ucs : FKey) (ch : Z) : FKey :=
  if Z.land ch 0xc0 =? 0x80
  then Z.lor (wrap32 (Z.shiftl ucs 6)) (Z.land ch 0x3f)
  else if ch <? 128
  then ch
  else if Z.land ch 0xe0 =? 0xc0
  then Z.land ch 0x1f
  else if Z.land ch 0xf0 =? 0xe0
  then Z.land ch 0x0f
  else if Z.land ch 0xf8 =? 0xf0
  then Z.land ch 0x07
  else NOT_SET.

(** [FKeyboard::UTF8decode]: at most [min(len, 4)] bytes are folded, in
    order, starting from [FKey::None]. *)
Definition UTF8decode (utf8 : list Z) : FKey :=
  fold_left UTF8decode_step
    (take (Nat.min (length utf8) 4) utf8) FKey.None.

(** The [std::string] built from a [const char*]: the bytes before the
    first NUL. *)
Definition c_str (s : list Z) : list Z := take (stringLength s) s.

(** ** Removing a token from the buffer front *)

(** [for (n = len; n < FIFO_BUF_SIZE; n++) fifo_buf[n - len] = fifo_buf[n];] *)
Definition remove_loop (len : nat) (buf : list Z) : list Z :=
  fold_left (fun b n => <[(n - len)%nat := at_ b n]> b)
    (seq len (FIFO_BUF_SIZE - len)) buf.

(** [for (n = n0; n < FIFO_BUF_SIZE; n++) fifo_buf[n] = '\0';] *)
Definition fill_loop (n0 : nat) (buf : list Z) : list Z :=
  fold_left (fun b n => <[n := 0]> b) (seq n0 (FIFO_BUF_SIZE - n0)) buf.

(** The two loops and the flag update that end [getTermcapKey],
    [getKnownKey] and [getSingleKey]. After the first loop [n] is
    [max(len, FIFO_BUF_SIZE)]; the second starts at [n - len]. *)
Definition consume_buf (len : nat) (buf : list Z) : list Z :=
  fill_loop (Nat.max len FIFO_BUF_SIZE - len) (remove_loop len buf).

Definition consumeFront (len : nat) (kb : FKeyboard) : FKeyboard :=
  let buf := consume_buf len (fifo_buf kb) in
  set_unprocessed_buffer_data (negb (at_ buf 0 =? 0)) (set_fifo_buf buf kb).

(** ** Timeout *)

(** Modelled from the spec: [FObject::isTimeout] is not part of the
    sources; the timeout predicate is "elapsed(lastByteTimestamp) >=
    keyTimeout". [now] is the clock reading of the call. *)
Definition isTimeout (now time timeout : Z) : bool := timeout <=? now - time.

(** [FKeyboard::isKeypressTimeout]. *)
Definition isKeypressTimeout (now : Z) (kb : FKeyboard) : bool :=
  isTimeout now (time_keypressed kb) (key_timeout kb).

(** ** The sub-lookups of the classifier *)

(** [FKeyboard::getMouseProtocolKey], a [const] member: it only reads. *)
Definition getMouseProtocolKey (kb : FKeyboard) : FKey :=
  if negb (mouse_support kb) then NOT_SET
  else
    let buf := fifo_buf kb in
    let buf_len := fifo_offset kb in
    if (6 <=? buf_len)%nat && (at_ buf 1 =? chr "[") && (at_ buf 2 =? chr "M")
    then FKey.X11mouse
    else if (at_ buf 1 =? chr "[") && (at_ buf 2 =? chr "<")
            && (9 <=? buf_len)%nat
            && ((at_ buf (buf_len - 1) =? chr "M")
                || (at_ buf (buf_len - 1) =? chr "m"))
    then FKey.Extended_mouse
    else if (at_ buf 1 =? chr "[")
            && (chr "1" <=? at_ buf 2) && (at_ buf 2 <=? chr "9")
            && (chr "0" <=? at_ buf 3) && (at_ buf 3 <=? chr "9")
            && (9 <=? buf_len)%nat
            && (at_ buf (buf_len - 1) =? chr "M")
    then FKey.Urxvt_mouse
    else NOT_SET.

(** The predicate given to [std::find_if] in [getTermcapKey]. *)
Definition cap_key_matches (kb : FKeyboard) (cap_key : KeyMap) : bool :=
  let buf_len := fifo_offset kb in
  let klen := klength cap_key in
  if (klen =? 0)%nat || negb (klen =? buf_len)%nat then false
  else strncmp_eq (kstring cap_key) (fifo_buf kb) klen.

(** [FKeyboard::getTermcapKey]. [key_cap_ptr] holds the entries from
    [cbegin()] up to [key_cap_end]; no table at all is [None]. *)
Definition getTermcapKey (kb : FKeyboard) : FKey * FKeyboard :=
  match key_cap_ptr kb with
  | Datatypes.None => (NOT_SET, kb)
  | Some caps =>
      match find (cap_key_matches kb) caps with
      | Some found_key =>
          (num found_key, consumeFront (klength found_key) kb)
      | Datatypes.None => (NOT_SET, kb)
      end
  end.

(** The predicate given to [std::find_if] in [getKnownKey]. *)
Definition known_key_matches (kb : FKeyboard) (known_key : KeyMap) : bool :=
  let buf_len := fifo_offset kb in
  let klen := klength known_key in
  if negb (klen =? buf_len)%nat then false
  else strncmp_eq (kstring known_key) (fifo_buf kb) klen.

(** [FKeyboard::getKnownKey]. *)
Definition getKnownKey (now : Z) (kb : FKeyboard) : FKey * FKeyboard :=
  match find (known_key_matches kb) FKey.getKeyMap with
  | Some found_key =>
      let len := klength found_key in
      let buf := fifo_buf kb in
      if (len =? 2)%nat
         && ((at_ buf 1 =? chr "O") || (at_ buf 1 =? chr "[")
             || (at_ buf 1 =? chr "]"))
         && negb (isKeypressTimeout now kb)
      then (FKey.Incomplete, kb)
      else (num found_key, consumeFront len kb)
  | Datatypes.None => (NOT_SET, kb)
  end.

(** The expected length of a UTF-8 character by its first byte, as
    computed in [getSingleKey] ([len] starts as 1). *)
Definition utf8_len (firstchar : Z) : nat :=
  if Z.land firstchar 0xe0 =? 0xc0 then 2%nat
  else if Z.land firstchar 0xf0 =? 0xe0 then 3%nat
  else if Z.land firstchar 0xf8 =? 0xf0 then 4%nat
  else 1%nat.

(** The end of [getSingleKey]: [0] becomes [Ctrl_space], then [127]
    becomes [Backspace]. *)
Definition remap (keycode : FKey) : FKey :=
  let keycode := if keycode =? 0 then FKey.Ctrl_space else keycode in
  if keycode =? 127 then FKey.Backspace else keycode.

(** [FKeyboard::getSingleKey]. [utf8char] is a zeroed array of five
    bytes that receives the first [len] buffer bytes; the [std::string]
    passed on to [UTF8decode] ends at its first NUL. *)
Definition getSingleKey (now : Z) (kb : FKeyboard) : FKey * FKeyboard :=
  let buf := fifo_buf kb in
  let firstchar := at_ buf 0 in
  if utf8_input kb && (Z.land firstchar 0xc0 =? 0xc0)
  then
    let buf_len := stringLength buf in
    let len := utf8_len firstchar in
    if (buf_len <? len)%nat && negb (isKeypressTimeout now kb)
    then (FKey.Incomplete, kb)
    else
      let utf8char := map (at_ buf) (seq 0 len) in
      let keycode := UTF8decode (c_str utf8char) in
      (remap keycode, consumeFront len kb)
  else
    (remap firstchar, consumeFront 1 kb).

(** [FKeyboard::parseKeyString]. *)
Definition parseKeyString (now : Z) (kb : FKeyboard) : FKey * FKeyboard :=
  let firstchar := at_ (fifo_buf kb) 0 in
  if firstchar =? ESC0
  then
    let keycode := getMouseProtocolKey kb in
    if negb (keycode =? NOT_SET) then (keycode, kb)
    else
      let '(keycode, kb) := getTermcapKey kb in
      if negb (keycode =? NOT_SET) then (keycode, kb)
      else
        let '(keycode, kb) := getKnownKey now kb in
        if negb (keycode =? NOT_SET) then (keycode, kb)
        else if negb (isKeypressTimeout now kb) then (FKey.Incomplete, kb)
        else getSingleKey now kb
  else getSingleKey now kb.

(** ** Timeout-driven special cases *)

(** [FKeyboard::clearKeyBuffer]. *)
Definition clearKeyBuffer (kb : FKeyboard) : FKeyboard :=
  let kb := set_fifo_offset 0 kb in
  let kb := set_fkey FKey.None kb in
  let kb := set_key FKey.None kb in
  let kb := set_fifo_buf (fill_loop 0 (fifo_buf kb)) kb in
  set_fifo_in_use false kb.

(** [FKeyboard::clearKeyBufferOnTimeout]. *)
Definition clearKeyBufferOnTimeout (now : Z) (kb : FKeyboard) : FKeyboard :=
  if fifo_in_use kb && isKeypressTimeout now kb
  then clearKeyBuffer kb
  else kb.

(** [FKeyboard::substringKeyHandling]. The choice of the key reads
    [fifo_buf[1]] after [fifo_buf[0]] has been zeroed. *)
Definition substringKeyHandling (now : Z) (kb : FKeyboard) : FKeyboard :=
  let buf := fifo_buf kb in
  if fifo_in_use kb
     && (fifo_offset kb =? 2)%nat
     && (at_ buf 0 =? 0x1b)
     && ((at_ buf 1 =? chr "O") || (at_ buf 1 =? chr "[")
         || (at_ buf 1 =? chr "]"))
     && (at_ buf 2 =? 0)
     && isKeypressTimeout now kb
  then
    let kb := set_fifo_offset 0 kb in
    let kb := set_fifo_buf (<[0%nat := 0x00]> (fifo_buf kb)) kb in
    let kb := set_fifo_in_use false kb in
    let kb := set_unprocessed_buffer_data false kb in
    let kb :=
      if at_ (fifo_buf kb) 1 =? chr "O"
      then set_fkey FKey.Meta_O kb
      else if at_ (fifo_buf kb) 1 =? chr "["
      then set_fkey FKey.Meta_left_square_bracket kb
      else set_fkey FKey.Meta_right_square_bracket kb in
    push (fkey kb) kb
  else kb.

(** [FKeyboard::escapeKeyHandling]. *)
Definition escapeKeyHandling (now : Z) (kb : FKeyboard) : FKeyboard :=
  let buf := fifo_buf kb in
  let kb :=
    if fifo_in_use kb
       && (fifo_offset kb =? 1)%nat
       && (at_ buf 0 =? 0x1b)
       && (at_ buf 1 =? 0x00)
       && isKeypressTimeout now kb
    then
      let kb := set_fifo_offset 0 kb in
      let kb := set_fifo_buf (<[0%nat := 0x00]> (fifo_buf kb)) kb in
      let kb := set_fifo_in_use false kb in
      let kb := set_unprocessed_buffer_data false kb in
      escape_key_cmd kb
    else kb in
  substringKeyHandling now kb.

(** ** The read and decode cycle *)

(** [FKeyboard::keyCorrection]. *)
Definition keyCorrection (keycode : FKey) : FKey :=
  if linux_con then modifierKeyCorrection keycode else keycode.

(** The inner [while] loop of [parseKeyBuffer]. [fuel] bounds the number
    of iterations; [None] means it ran out. The result carries the
    keyboard when the loop is left by its condition or by [break]. *)
Fixpoint resolve_loop (fuel : nat) (now : Z) (kb : FKeyboard)
  : option FKeyboard :=
  if (0 <? fifo_offset kb)%nat && negb (fkey kb =? FKey.Incomplete)
  then
    match fuel with
    | O => Datatypes.None
    | S fuel' =>
        let '(k, kb) := parseKeyString now kb in
        let kb := set_fkey k kb in
        let kb := set_fkey (keyCorrection (fkey kb)) kb in
        if (fkey kb =? FKey.X11mouse)
           || (fkey kb =? FKey.Extended_mouse)
           || (fkey kb =? FKey.Urxvt_mouse)
        then
          let kb := set_key (fkey kb) kb in
          let kb := mouse_tracking_cmd kb in
          Some (set_fifo_offset (stringLength (fifo_buf kb)) kb)
        else if negb (fkey kb =? FKey.Incomplete)
        then
          let kb := push (fkey kb) kb in
          let kb := set_fifo_offset (stringLength (fifo_buf kb)) kb in
          resolve_loop fuel' now kb
        else resolve_loop fuel' now kb
    end
  else Some kb.

(** The outer [while] loop of [parseKeyBuffer]. [input] holds what
    [readKey()] delivers, one byte per successful read, each with the
    clock reading of its iteration; at its end [read] returns no byte.
    The result carries the bytes left unread in the source. *)
Fixpoint read_loop (fuel : nat) (input : list (Z * Z)) (kb : FKeyboard)
  : option (FKeyboard * list (Z * Z)) :=
  match input with
  | [] => Some (kb, [])
  | (read_character, now) :: input' =>
      let kb := set_has_pending_input false kb in
      let kb :=
        if (1 + fifo_offset kb <=? FIFO_BUF_SIZE)%nat
        then
          let kb :=
            set_fifo_buf (<[fifo_offset kb := read_character]> (fifo_buf kb))
              kb in
          let kb := set_fifo_offset (S (fifo_offset kb)) kb in
          set_fifo_in_use true kb
        else kb in
      match resolve_loop fuel now kb with
      | Datatypes.None => Datatypes.None
      | Some kb =>
          let kb := set_fkey FKey.None kb in
          if (MAX_QUEUE_SIZE <=? length (fkey_queue kb))%nat
          then Some (kb, input')
          else read_loop fuel input' kb
      end
  end.

(** [FKeyboard::parseKeyBuffer]; [now] is [FObject::getCurrentTime()]. *)
Definition parseKeyBuffer (fuel : nat) (now : Z) (input : list (Z * Z))
  (kb : FKeyboard) : option (FKeyboard * list (Z * Z)) :=
  read_loop fuel input (set_time_keypressed now kb).

(** [FKeyboard::fetchKeyCode]. *)
Definition fetchKeyCode (fuel : nat) (now : Z) (input : list (Z * Z))
  (kb : FKeyboard) : option (FKeyboard * list (Z * Z)) :=
  if (length (fkey_queue kb) <? MAX_QUEUE_SIZE)%nat
  then parseKeyBuffer fuel now input kb
  else Some (kb, input).

(** ** Readiness check *)

(** [FKeyboard::isKeyPressed]. *)
Definition isKeyPressed (blocking_time : Z) (now : Z) (kb : FKeyboard)
  (io : Stdin) : bool * FKeyboard * Stdin :=
  if has_pending_input kb then (false, kb, io)
  else
    let '(first, io) :=
      if (0 <? blocking_time) && non_blocking_input_support kb
      then select 0 io
      else (false, io) in
    if first then (true, set_has_pending_input true kb, io)
    else
      let tv_usec :=
        if isKeypressTimeout now kb || negb (non_blocking_input_support kb)
        then blocking_time
        else read_blocking_time_short kb in
      if negb (has_pending_input kb)
      then
        let '(second, io) := select tv_usec io in
        let kb := if second then set_has_pending_input true kb else kb in
        (has_pending_input kb, kb, io)
      else (has_pending_input kb, kb, io).

End Decoder.

(** * UTF-8 encoding

    The encoder the round trip is stated against: the two-, three- and
    four-byte forms of UTF-8 (one byte below 0x80). It is not part of
    [fkeyboard.cpp]; the terminal produces these bytes. *)
Definition utf8_encode (cp : Z) : list Z :=
  if cp <? 0x80 then [cp]
  else if cp <? 0x800
  then [ Z.lor 0xc0 (Z.shiftr cp 6);
         Z.lor 0x80 (Z.land cp 0x3f) ]
  else if cp <? 0x10000
  then [ Z.lor 0xe0 (Z.shiftr cp 12);
         Z.lor 0x80 (Z.land (Z.shiftr cp 6) 0x3f);
         Z.lor 0x80 (Z.land cp 0x3f) ]
  else [ Z.lor 0xf0 (Z.shiftr cp 18);
         Z.lor 0x80 (Z.land (Z.shiftr cp 12) 0x3f);
         Z.lor 0x80 (Z.land (Z.shiftr cp 6) 0x3f);
         Z.lor 0x80 (Z.land cp 0x3f) ].

(** A byte that has none of the patterns [0xxxxxxx], [10xxxxxx],
    [110xxxxx], [1110xxxx], [11110xxx]. *)
Definition utf8_invalid_byte (ch : Z) : bool :=
  negb ((Z.land ch 0x80 =? 0x00) || (Z.land ch 0xc0 =? 0x80)
        || (Z.land ch 0xe0 =? 0xc0) || (Z.land ch 0xf0 =? 0xe0)
        || (Z.land ch 0xf8 =? 0xf0)).

(** * Well-formed table entries

    An entry as the tables are meant to hold them: the stored length is
    the length of the string, which has no NUL inside. *)
Definition well_formed_entry (e : KeyMap) : Prop :=
  klength e = length (kstring e) /\ Forall (fun c => c <> 0) (kstring e).

(** * Measuring the buffer

    The number of non-NUL bytes of a buffer: every token taken from a
    buffer that does not start with NUL lowers it. *)
Fixpoint nonzero (buf : list Z) : nat :=
  match buf with
  | [] => O
  | c :: buf' => Nat.add (if c =? 0 then O else S O) (nonzero buf')
  end.

(** [taken kb kb']: [kb'] is [kb] after a token has been removed from the
    front of its buffer, which keeps its declared size and ends in NUL. *)
Definition taken {hdr : FKey.Header} (kb kb' : FKeyboard) : Prop :=
  length (fifo_buf kb') = FIFO_BUF_SIZE
  /\ at_ (fifo_buf kb') (FIFO_BUF_SIZE - 1) = 0
  /\ (nonzero (fifo_buf kb') <= nonzero (fifo_buf kb))%nat
  /\ (at_ (fifo_buf kb) 0 <> 0 ->
      (nonzero (fifo_buf kb') < nonzero (fifo_buf kb))%nat).

(** The number of iterations the inner loop can still make on a
    buffer: one per non-NUL byte, and one more for a leading NUL. *)
Definition resolve_measure (buf : list Z) : nat :=
  Nat.add (nonzero buf) (if at_ buf 0 =? 0 then 1%nat else 0%nat).

(** The keys on which the inner loop of [parseKeyBuffer] stops:
    [Incomplete] by the loop condition, a mouse identifier by [break]. *)
Definition ends_resolving {hdr : FKey.Header} (k : FKey) : Prop :=
  k = FKey.Incomplete \/ k = FKey.X11mouse \/ k = FKey.Extended_mouse
  \/ k = FKey.Urxvt_mouse.

(** * The other operations of [FKeyboard] *)

(** ** Blocking mode of the standard input *)

(** The two members [setNonBlockingInput] works on: the file status
    flags last read from or written to the descriptor, an [int], and
    the mode the keyboard believes the descriptor is in. *)
Record StdinMode : Type := mkStdinMode {
  stdin_status_flags : Z;
  non_blocking_stdin : bool
}.

(** [fcntl (FTermios::getStdIn(), F_SETFL, flags)] as the keyboard sees
    it: whether each coming call succeeds (returns something else than
    -1; [false] once the list is used up), and the flags of the calls
    made so far. *)
Record Fcntl : Type := mkFcntl {
  fcntl_results : list bool;
  fcntl_calls : list Z
}.

Definition fcntl_setfl (flags : Z) (os : Fcntl) : bool * Fcntl :=
  (hd false (fcntl_results os),
   mkFcntl (tl (fcntl_results os)) (fcntl_calls os ++ [flags])).

Section BlockingMode.

(** [O_NONBLOCK] of [<fcntl.h>]. *)
Variable O_NONBLOCK : Z.

(** [FKeyboard::setNonBlockingInput]. On the [int] flags, [|=] and
    [&= ~] are the bitwise operations of [Z], which are those of two's
    complement. *)
Definition setNonBlockingInput (enable : bool) (m : StdinMode) (os : Fcntl)
  : bool * StdinMode * Fcntl :=
  if Bool.eqb enable (non_blocking_stdin m)
  then (non_blocking_stdin m, m, os)
  else if enable
  then
    let flags := Z.lor (stdin_status_flags m) O_NONBLOCK in
    let '(ok, os) := fcntl_setfl flags os in
    let m := mkStdinMode flags (if ok then true else non_blocking_stdin m) in
    (non_blocking_stdin m, m, os)
  else
    let flags := Z.land (stdin_status_flags m) (Z.lnot O_NONBLOCK) in
    let '(ok, os) := fcntl_setfl flags os in
    let m := mkStdinMode flags (if ok then false else non_blocking_stdin m) in
    (non_blocking_stdin m, m, os).

End BlockingMode.

(** ** Dispatching the queue *)

(** The consumer of the decoded keys: the command objects
    [keypressed_cmd] and [keyreleased_cmd], which run on the keyboard
    and on the application behind it, and [FApplication::isQuit()]. *)
Class Application : Type := mkApplication {
  app : Type;
  keypressed_cmd : FKeyboard -> app -> FKeyboard * app;
  keyreleased_cmd : FKeyboard -> app -> FKeyboard * app;
  isQuit : app -> bool
}.

Section Dispatch.

Context {hdr : FKey.Header} {application : Application}.

(** [FKeyboard::processQueuedInput]. [fuel] bounds the number of keys
    taken from the queue; [None] means it ran out. [key > FKey::None]
    compares the unsigned values. *)
Fixpoint processQueuedInput (fuel : nat) (kb : FKeyboard) (a : app)
  : option (FKeyboard * app) :=
  match fkey_queue kb with
  | [] => Some (kb, a)
  | front :: queue =>
      match fuel with
      | O => Datatypes.None
      | S fuel' =>
          let kb := set_key front kb in
          let kb := set_fkey_queue queue kb in
          if FKey.None <? key kb
          then
            let '(kb, a) := keypressed_cmd kb a in
            if isQuit a then Some (kb, a)
            else
              let '(kb, a) := keyreleased_cmd kb a in
              if isQuit a then Some (kb, a)
              else processQueuedInput fuel' (set_key FKey.None kb) a
          else processQueuedInput fuel' kb a
      end
  end.

End Dispatch.

(** ** A consumer that records *)

(** What a consumer of the dispatch loop can observe: a key pressed, a
    key released. *)
Inductive Event : Type :=
| Pressed (k : FKey)
| Released (k : FKey).

(** The consumer that appends every call to a log, reading the key from
    the keyboard as [getKey()] does, and asks to quit when [quit] holds
    of the log. *)
Definition recorder (quit : list Event -> bool) : Application :=
  {| app := list Event;
     keypressed_cmd := fun kb log => (kb, log ++ [Pressed (key kb)]);
     keyreleased_cmd := fun kb log => (kb, log ++ [Released (key kb)]);
     isQuit := quit |}.

(** The events of one queued key: a press and a release for a key
    above [None], nothing otherwise. *)
Definition events_of {hdr : FKey.Header} (k : FKey) : list Event :=
  if FKey.None <? k then [Pressed k; Released k] else [].

(** ** Key names *)

(** One entry of the name table [FKeyMap::getKeyName()]: a key and its
    name, the characters of a C string. *)
Record KeyName : Type := mkKeyName {
  name_num : FKey;
  name_string : list Z
}.

(** [FKeyboard::getKeyName]. The name table is data of
    [final/input/fkey_map.h], outside the sources, and is the first
    argument. An [FString] is the list of its characters. *)
Definition getKeyName {hdr : FKey.Header} (fkeyname : list KeyName)
  (keynum : FKey) : list Z :=
  match find (fun kn => negb (name_num kn =? FKey.None)
                        && (name_num kn =? keynum)) fkeyname with
  | Some found_key => name_string found_key
  | Datatypes.None =>
      if (32 <? keynum) && (keynum <? 127) then [keynum] else []
  end.

(** ** States of the buffer *)

(** The bytes from [fifo_offset] on are NUL. *)
Definition zero_tail (kb : FKeyboard) : Prop :=
  forall i, (fifo_offset kb <= i)%nat -> at_ (fifo_buf kb) i = 0.

(** A buffer of the declared size whose offset lies within it. *)
Definition buffer_in_bounds {hdr : FKey.Header} (kb : FKeyboard) : Prop :=
  length (fifo_buf kb) = FIFO_BUF_SIZE
  /\ (fifo_offset kb <= FIFO_BUF_SIZE)%nat.

(** The bytes a read cycle is given, without their clock readings. *)
Definition bytes_of (input : list (Z * Z)) : list Z := map fst input.

(** ** Properties kept by a read cycle *)

(** [P] is kept by every state change [parseKeyBuffer] makes: the new
    time stamp, the cleared pending flag, the appended byte, a token
    taken from the front, a new current key, the mouse command followed
    by the resynchronised offset, and a pushed key followed by the
    resynchronised offset. *)
Definition kept_by_cycle {hdr : FKey.Header} {host : Host}
  (P : FKeyboard -> Prop) : Prop :=
  (forall v kb, P kb -> P (set_time_keypressed v kb))
  /\ (forall kb, P kb -> P (set_has_pending_input false kb))
  /\ (forall c kb, P kb -> (1 + fifo_offset kb <= FIFO_BUF_SIZE)%nat ->
      P (set_fifo_in_use true
           (set_fifo_offset (S (fifo_offset kb))
              (set_fifo_buf (<[fifo_offset kb := c]> (fifo_buf kb)) kb))))
  /\ (forall len kb, P kb -> P (consumeFront len kb))
  /\ (forall k kb, P kb -> P (set_fkey k kb))
  /\ (forall kb, P kb ->
      P (set_fifo_offset
           (stringLength (fifo_buf (mouse_tracking_cmd (set_key (fkey kb) kb))))
           (mouse_tracking_cmd (set_key (fkey kb) kb))))
  /\ (forall kb, P kb ->
      P (set_fifo_offset (stringLength (fifo_buf kb)) (push (fkey kb) kb))).

(** ** Plain bytes *)

(** A byte that [parseKeyString] hands straight to the last branch of
    [getSingleKey]: not the escape byte and, with UTF-8 input, not a
    lead byte of a sequence. *)
Definition plain_byte (utf8 : bool) (c : Z) : Prop :=
  c <> ESC0 /\ (utf8 = true -> Z.land c 0xc0 <> 0xc0).

(** ** Tables by their strings *)

(** The first entry of [table] whose string is [bytes]. *)
Definition lookup_string (table : list KeyMap) (bytes : list Z)
  : option KeyMap :=
  find (fun e => bool_decide (kstring e = bytes)) table.

(** The platform table of [kb], if it has one, holds well-formed entries
    and none for any of the strings [strs]. *)
Definition platform_silent (kb : FKeyboard) (strs : list (list Z)) : Prop :=
  forall caps,
    key_cap_ptr kb = Some caps ->
    Forall well_formed_entry caps
    /\ forall bytes, In bytes strs -> lookup_string caps bytes = Datatypes.None.

(** The buffer holds exactly [bytes]: they are at its front, the offset
    is their number, and NUL follows up to the end of the array. *)
Definition holds {hdr : FKey.Header} (kb : FKeyboard) (bytes : list Z)
  : Prop :=
  fifo_buf kb = bytes ++ replicate (FIFO_BUF_SIZE - length bytes) 0
  /\ fifo_offset kb = length bytes
  /\ (length bytes <= FIFO_BUF_SIZE)%nat.

(** [kb'] has the queue, the platform table and the timing of [kb]. *)
Definition same_settings (kb kb' : FKeyboard) : Prop :=
  fkey_queue kb' = fkey_queue kb
  /\ key_cap_ptr kb' = key_cap_ptr kb
  /\ time_keypressed kb' = time_keypressed kb
  /\ key_timeout kb' = key_timeout kb.

(** * Sample data

    Concrete values for the parameters, used to run the decoder on
    inputs. The identifiers are pairwise distinct values above the
    Unicode range, the sentinel [NOT_SET] is the all-ones value, and
    the capacities are the ones the specification quotes. *)

Module Sample.

Definition Key_Up : FKey := 0x01000300.
Definition Key_Left : FKey := 0x01000301.

(** A few entries of the generic table, sorted by length. *)
Definition key_map : list KeyMap :=
  [ mkKeyMap 0x0200004f [0x1b; chr "O"] 2;
    mkKeyMap 0x0200005b [0x1b; chr "["] 2;
    mkKeyMap 0x0200005d [0x1b; chr "]"] 2;
    mkKeyMap Key_Up [0x1b; chr "["; chr "A"] 3;
    mkKeyMap Key_Left [0x1b; chr "["; chr "D"] 3 ].

(** The sample header, for a given generic table. *)
Definition header_with (table : list KeyMap) : FKey.Header :=
  {| FKey.None := 0;
     FKey.Incomplete := 0xfffffffe;
     FKey.Ctrl_space := 0x01000020;
     FKey.Backspace := 0x01000100;
     FKey.X11mouse := 0x01000200;
     FKey.Extended_mouse := 0x01000201;
     FKey.Urxvt_mouse := 0x01000202;
     FKey.Meta_O := 0x0200004f;
     FKey.Meta_left_square_bracket := 0x0200005b;
     FKey.Meta_right_square_bracket := 0x0200005d;
     FKey.NOT_SET := 0xffffffff;
     FKey.FIFO_BUF_SIZE := 512;
     FKey.MAX_QUEUE_SIZE := Z.to_nat 10000;
     FKey.getKeyMap := table |}.

Definition header : FKey.Header := header_with key_map.

Definition host : Host :=
  {| escape_key_cmd := fun kb => kb;
     mouse_tracking_cmd := fun kb => kb;
     linux_con := false;
     modifierKeyCorrection := fun k => k |}.

(** A buffer of 512 bytes holding [bytes] at its front. *)
Definition buffer (bytes : list Z) : list Z :=
  bytes ++ replicate (512 - length bytes) 0.

(** A keyboard whose buffer holds [bytes], read at time 0 with the key
    timeout of 100 ms, and whose queue holds [queue]. *)
Definition keyboard (bytes : list Z) (utf8 mouse : bool) (queue : list FKey)
  : FKeyboard :=
  {| fkey := 0;
     key := 0;
     fifo_buf := buffer bytes;
     fifo_offset := length bytes;
     has_pending_input := false;
     fifo_in_use := negb (length bytes =? 0)%nat;
     unprocessed_buffer_data := false;
     utf8_input := utf8;
     mouse_support := mouse;
     fkey_queue := queue;
     key_cap_ptr := Datatypes.None;
     key_timeout := 100000;
     read_blocking_time_short := 5000;
     non_blocking_input_support := true;
     time_keypressed := 0 |}.

End Sample.

(** * Properties *)

Section Properties.

Context {hdr : FKey.Header} {host : Host}.

(** ** Removing a token from the buffer front *)

Lemma at_lookup (buf : list Z) (i : nat) (x : Z) :
  buf !! i = Some x -> at_ buf i = x.
Proof. unfold at_. intros ->. reflexivity. Qed.


Lemma at_app_r (l1 l2 : list Z) (i : nat) :
  at_ (l1 ++ l2) (length l1 + i) = at_ l2 i.
Proof. unfold at_. rewrite lookup_app_r by lia. f_equal. f_equal. lia. Qed.


Lemma at_drop (buf : list Z) (k i : nat) :
  at_ (drop k buf) i = at_ buf (k + i).
Proof. unfold at_. rewrite lookup_drop. reflexivity. Qed.

(** The first loop, stopped after [k] iterations: the first [k] cells hold
    the bytes that followed the token, the others are still as they
    were. *)
Lemma remove_loop_prefix (len : nat) (buf : list Z) (k : nat) :
  (len + k <= length buf)%nat ->
  fold_left (fun b n => <[(n - len)%nat := at_ b n]> b) (seq len k) buf
  = take k (drop len buf) ++ drop k buf.
Proof.
  induction k as [|k IH]; intros Hk.
  - simpl. rewrite drop_0. reflexivity.
  - rewrite seq_S, fold_left_app. simpl. rewrite IH by lia.
    assert (Hlk : length (take k (drop len buf)) = k).
    { rewrite length_take, length_drop. lia. }
    replace (len + k - len)%nat with k by lia.
    replace (at_ (take k (drop len buf) ++ drop k buf) (len + k))
      with (at_ buf (len + k)).
    2:{ replace (len + k)%nat
          with (length (take k (drop len buf)) + len)%nat at 2 by lia.
        rewrite at_app_r, at_drop. f_equal. lia. }
    destruct (lookup_lt_is_Some_2 buf (len + k)%nat ltac:(lia)) as [x Hx].
    destruct (lookup_lt_is_Some_2 buf k ltac:(lia)) as [y Hy].
    rewrite (at_lookup _ _ _ Hx).
    rewrite (take_S_r _ _ x) by (rewrite lookup_drop; exact Hx).
    rewrite <- app_assoc. simpl.
    rewrite insert_app_r_alt by lia.
    rewrite Hlk, Nat.sub_diag.
    rewrite (drop_S _ y k Hy). reflexivity.
Qed.

Lemma fill_loop_prefix (n0 : nat) (buf : list Z) (k : nat) :
  (n0 + k <= length buf)%nat ->
  fold_left (fun b n => <[n := 0]> b) (seq n0 k) buf
  = take n0 buf ++ replicate k 0 ++ drop (n0 + k) buf.
Proof.
  induction k as [|k IH]; intros Hk.
  - simpl. rewrite Nat.add_0_r, take_drop. reflexivity.
  - rewrite seq_S, fold_left_app. simpl. rewrite IH by lia.
    assert (Hl : length (take n0 buf) = n0) by (rewrite length_take; lia).
    rewrite insert_app_r_alt by lia. rewrite Hl.
    rewrite insert_app_r_alt by (rewrite length_replicate; lia).
    rewrite length_replicate.
    replace (n0 + k - n0 - k)%nat with O by lia.
    destruct (lookup_lt_is_Some_2 buf (n0 + k)%nat ltac:(lia)) as [y Hy].
    rewrite (drop_S _ y _ Hy). simpl.
    replace (n0 + S k)%nat with (S (n0 + k)) by lia.
    f_equal.
    change (0 :: drop (S (n0 + k)) buf)
      with ([0] ++ drop (S (n0 + k)) buf).
    rewrite app_assoc. f_equal.
    change [0] with (replicate 1 0).
    rewrite <- replicate_add.
    replace (k + 1)%nat with (S k) by lia. reflexivity.
Qed.

(** Shifted left by [len], the vacated tail zeroed. *)
Lemma consume_buf_shift (len : nat) (buf : list Z) :
  length buf = FIFO_BUF_SIZE -> (len <= FIFO_BUF_SIZE)%nat ->
  consume_buf len buf = drop len buf ++ replicate len 0.
Proof.
  intros Hlen Hle. unfold consume_buf, fill_loop, remove_loop.
  rewrite remove_loop_prefix by lia.
  rewrite Nat.max_r by lia.
  rewrite fill_loop_prefix.
  2:{ rewrite length_app, length_take, !length_drop. lia. }
  replace (FIFO_BUF_SIZE - len + (FIFO_BUF_SIZE - (FIFO_BUF_SIZE - len)))%nat
    with (length (take (FIFO_BUF_SIZE - len) (drop len buf)
                  ++ drop (FIFO_BUF_SIZE - len) buf)).
  2:{ rewrite length_app, length_take, !length_drop. lia. }
  rewrite drop_all, app_nil_r.
  rewrite take_app_length'.
  2:{ rewrite length_take, length_drop. lia. }
  rewrite take_ge by (rewrite length_drop; lia).
  f_equal. f_equal. lia.
Qed.


(** ** Readiness check *)

(** C1, as the code has it. A call to [isKeyPressed] made while
    [has_pending_input] is already set returns at once, without any call
    to [select] and without touching the keyboard; the value it returns
    is [false]. *)
Theorem isKeyPressed_pending_no_poll
  (blocking_time now : Z) (kb : FKeyboard) (io : Stdin) :
  has_pending_input kb = true ->
  isKeyPressed blocking_time now kb io = (false, kb, io).
Proof. intros Hp. unfold isKeyPressed. rewrite Hp. reflexivity. Qed.

(** ** Mouse protocol detection *)

Lemma NoDup4_distinct (a b c d : FKey) :
  NoDup [a; b; c; d] ->
  a <> b /\ a <> c /\ a <> d /\ b <> c /\ b <> d /\ c <> d.
Proof.
  intros H.
  apply NoDup_cons in H as [Ha H].
  apply NoDup_cons in H as [Hb H].
  apply NoDup_cons in H as [Hc _].
  repeat rewrite not_elem_of_cons in Ha.
  repeat rewrite not_elem_of_cons in Hb.
  repeat rewrite not_elem_of_cons in Hc. tauto.
Qed.

(** C5. With mouse reporting enabled, [getMouseProtocolKey] returns the
    X11 identifier iff byte 1 is ['['], byte 2 is ['M'] and the length is
    at least 6; the SGR identifier iff byte 1 is ['['], byte 2 is ['<'],
    the length is at least 9 and the last byte is ['M'] or ['m']; the
    urxvt identifier iff byte 1 is ['['], byte 2 is a digit 1-9, byte 3 a
    digit 0-9, the length is at least 9 and the last byte is ['M'];
    otherwise [NOT_SET]. It is a pure read, and the classifier hands a
    match on with the keyboard, buffer included, as it was. *)
Theorem getMouseProtocolKey_spec (now : Z) (kb : FKeyboard) :
  NoDup [FKey.X11mouse; FKey.Extended_mouse; FKey.Urxvt_mouse; NOT_SET] ->
  mouse_support kb = true ->
  let buf := fifo_buf kb in
  let len := fifo_offset kb in
  let x11 := at_ buf 1 = chr "[" /\ at_ buf 2 = chr "M" /\ (6 <= len)%nat in
  let sgr := at_ buf 1 = chr "[" /\ at_ buf 2 = chr "<" /\ (9 <= len)%nat
             /\ (at_ buf (len - 1) = chr "M" \/ at_ buf (len - 1) = chr "m") in
  let urxvt := at_ buf 1 = chr "["
               /\ chr "1" <= at_ buf 2 <= chr "9"
               /\ chr "0" <= at_ buf 3 <= chr "9"
               /\ (9 <= len)%nat /\ at_ buf (len - 1) = chr "M" in
  (getMouseProtocolKey kb = FKey.X11mouse <-> x11)
  /\ (getMouseProtocolKey kb = FKey.Extended_mouse <-> sgr)
  /\ (getMouseProtocolKey kb = FKey.Urxvt_mouse <-> urxvt)
  /\ (getMouseProtocolKey kb = NOT_SET <-> ~ x11 /\ ~ sgr /\ ~ urxvt)
  /\ (at_ buf 0 = ESC0 -> getMouseProtocolKey kb <> NOT_SET ->
      parseKeyString now kb = (getMouseProtocolKey kb, kb)).
Proof.
  intros Hnd Hms buf len x11 sgr urxvt.
  apply NoDup4_distinct in Hnd as (D1 & D2 & D3 & D4 & D5 & D6).
  assert (Hfun : getMouseProtocolKey kb
    = if (6 <=? len)%nat && (at_ buf 1 =? chr "[") && (at_ buf 2 =? chr "M")
      then FKey.X11mouse
      else if (at_ buf 1 =? chr "[") && (at_ buf 2 =? chr "<")
              && (9 <=? len)%nat
              && ((at_ buf (len - 1) =? chr "M")
                  || (at_ buf (len - 1) =? chr "m"))
      then FKey.Extended_mouse
      else if (at_ buf 1 =? chr "[")
              && (chr "1" <=? at_ buf 2) && (at_ buf 2 <=? chr "9")
              && (chr "0" <=? at_ buf 3) && (at_ buf 3 <=? chr "9")
              && (9 <=? len)%nat
              && (at_ buf (len - 1) =? chr "M")
      then FKey.Urxvt_mouse
      else NOT_SET).
  { unfold getMouseProtocolKey. rewrite Hms. reflexivity. }
  assert (B1 : (6 <=? len)%nat && (at_ buf 1 =? chr "[")
               && (at_ buf 2 =? chr "M") = true <-> x11).
  { unfold x11. rewrite !andb_true_iff, !Z.eqb_eq, Nat.leb_le. tauto. }
  assert (B2 : (at_ buf 1 =? chr "[") && (at_ buf 2 =? chr "<")
               && (9 <=? len)%nat
               && ((at_ buf (len - 1) =? chr "M")
                   || (at_ buf (len - 1) =? chr "m")) = true <-> sgr).
  { unfold sgr.
    rewrite !andb_true_iff, orb_true_iff, !Z.eqb_eq, Nat.leb_le. tauto. }
  assert (B3 : (at_ buf 1 =? chr "[")
               && (chr "1" <=? at_ buf 2) && (at_ buf 2 <=? chr "9")
               && (chr "0" <=? at_ buf 3) && (at_ buf 3 <=? chr "9")
               && (9 <=? len)%nat
               && (at_ buf (len - 1) =? chr "M") = true <-> urxvt).
  { unfold urxvt.
    rewrite !andb_true_iff, !Z.eqb_eq, !Z.leb_le, Nat.leb_le. tauto. }
  assert (X12 : x11 -> ~ sgr).
  { unfold x11, sgr. intros (_ & E & _) (_ & E' & _).
    rewrite E in E'. discriminate E'. }
  assert (X13 : x11 -> ~ urxvt).
  { unfold x11, urxvt. intros (_ & E & _) (_ & E' & _).
    rewrite E in E'. vm_compute in E'. destruct E' as [_ E']. apply E'.
    reflexivity. }
  assert (X23 : sgr -> ~ urxvt).
  { unfold sgr, urxvt. intros (_ & E & _) (_ & E' & _).
    rewrite E in E'. vm_compute in E'. destruct E' as [_ E']. apply E'.
    reflexivity. }
  assert (Hparse : at_ buf 0 = ESC0 -> getMouseProtocolKey kb <> NOT_SET ->
                   parseKeyString now kb = (getMouseProtocolKey kb, kb)).
  { intros H0 Hne. unfold parseKeyString. fold buf. rewrite H0, Z.eqb_refl.
    destruct (Z.eqb_spec (getMouseProtocolKey kb) NOT_SET);
      [contradiction|reflexivity]. }
  clearbody x11 sgr urxvt.
  destruct ((6 <=? len)%nat && (at_ buf 1 =? chr "[")
            && (at_ buf 2 =? chr "M")).
  { rewrite Hfun in *. intuition congruence. }
  destruct ((at_ buf 1 =? chr "[") && (at_ buf 2 =? chr "<")
            && (9 <=? len)%nat
            && ((at_ buf (len - 1) =? chr "M")
                || (at_ buf (len - 1) =? chr "m"))).
  { rewrite Hfun in *. intuition congruence. }
  destruct ((at_ buf 1 =? chr "[")
            && (chr "1" <=? at_ buf 2) && (at_ buf 2 <=? chr "9")
            && (chr "0" <=? at_ buf 3) && (at_ buf 3 <=? chr "9")
            && (9 <=? len)%nat
            && (at_ buf (len - 1) =? chr "M")).
  { rewrite Hfun in *. intuition congruence. }
  rewrite Hfun in *. intuition congruence.
Qed.

(** ** Table lookup *)

(** On strings without NUL, [strncmp] over the full length is equality
    with the buffer's prefix. *)
Lemma strncmp_eq_exact (s buf : list Z) :
  Forall (fun c => c <> 0) s -> (length s <= length buf)%nat ->
  strncmp_eq s buf (length s) = true <-> take (length s) buf = s.
Proof.
  intros Hnz. revert buf. induction Hnz as [|c s Hc Hs IH]; intros buf Hlen.
  - simpl. rewrite take_0. tauto.
  - destruct buf as [|b buf]; [simpl in Hlen; lia|].
    simpl in Hlen. simpl.
    destruct (Z.eqb_spec c b) as [->|Hne].
    + destruct (Z.eqb_spec b 0) as [?|_]; [contradiction|].
      rewrite IH by lia. split; [intros ->; reflexivity|].
      intros E. injection E as E. exact E.
    + split; [discriminate|]. intros E. injection E as E _. congruence.
Qed.

(** [std::find_if] returns the first match; an entry that is the only
    match is the one found. *)
Lemma find_only_match (f : KeyMap -> bool) (table : list KeyMap)
  (e : KeyMap) :
  In e table -> f e = true ->
  (forall e', In e' table -> f e' = true -> e' = e) ->
  find f table = Some e.
Proof.
  induction table as [|e0 table IH]; intros Hin He Huniq; [destruct Hin|].
  simpl. destruct (f e0) eqn:E0.
  - f_equal. apply Huniq; [left; reflexivity|exact E0].
  - destruct Hin as [->|Hin]; [congruence|].
    apply IH; [exact Hin|exact He|].
    intros e' Hin' He'. apply Huniq; [right; exact Hin'|exact He'].
Qed.

(** What [getKnownKey] does once [std::find_if] has found an entry. *)
Lemma getKnownKey_found (now : Z) (kb : FKeyboard) (found_key : KeyMap) :
  find (known_key_matches kb) FKey.getKeyMap = Some found_key ->
  getKnownKey now kb
  = if (klength found_key =? 2)%nat
       && ((at_ (fifo_buf kb) 1 =? chr "O") || (at_ (fifo_buf kb) 1 =? chr "[")
           || (at_ (fifo_buf kb) 1 =? chr "]"))
       && negb (isKeypressTimeout now kb)
    then (FKey.Incomplete, kb)
    else (num found_key, consumeFront (klength found_key) kb).
Proof. intros Hf. unfold getKnownKey. rewrite Hf. reflexivity. Qed.

(** C6. Let [found_key] be the entry of the generic table that the
    lookup finds for the buffer, an exact match of length and content. If
    its length is exactly 2, the second byte is ['O'], ['['] or [']'] and
    the key timeout has not elapsed, [getKnownKey] returns [Incomplete]
    and leaves the keyboard, buffer included, as it was; for every other
    match it consumes the matched length from the buffer front and
    returns the entry's key identifier. *)
Theorem getKnownKey_exact_match (now : Z) (kb : FKeyboard) (found_key : KeyMap) :
  find (known_key_matches kb) FKey.getKeyMap = Some found_key ->
  let buf := fifo_buf kb in
  let ambiguous :=
    klength found_key = 2%nat
    /\ (at_ buf 1 = chr "O" \/ at_ buf 1 = chr "[" \/ at_ buf 1 = chr "]") in
  (In found_key FKey.getKeyMap
   /\ klength found_key = fifo_offset kb
   /\ strncmp_eq (kstring found_key) buf (klength found_key) = true
   /\ (well_formed_entry found_key -> (fifo_offset kb <= length buf)%nat ->
       take (fifo_offset kb) buf = kstring found_key))
  /\ (ambiguous -> isKeypressTimeout now kb = false ->
      getKnownKey now kb = (FKey.Incomplete, kb))
  /\ (~ (ambiguous /\ isKeypressTimeout now kb = false) ->
      getKnownKey now kb
      = (num found_key, consumeFront (klength found_key) kb)
      /\ (length buf = FIFO_BUF_SIZE -> (fifo_offset kb <= FIFO_BUF_SIZE)%nat ->
          fifo_buf (snd (getKnownKey now kb))
          = drop (klength found_key) buf
            ++ replicate (klength found_key) 0)).
Proof.
  intros Hf buf ambiguous.
  pose proof (getKnownKey_found now kb found_key Hf) as Hk. fold buf in Hk.
  apply find_some in Hf as [Hin Hm].
  unfold known_key_matches in Hm.
  destruct (Nat.eqb_spec (klength found_key) (fifo_offset kb)) as [Hlen|];
    [|discriminate]. simpl in Hm. fold buf in Hm.
  assert (Hamb : (klength found_key =? 2)%nat
                 && ((at_ buf 1 =? chr "O") || (at_ buf 1 =? chr "[")
                     || (at_ buf 1 =? chr "]")) = true <-> ambiguous).
  { unfold ambiguous.
    rewrite andb_true_iff, !orb_true_iff, !Z.eqb_eq, Nat.eqb_eq. tauto. }
  clearbody ambiguous.
  split; [|split].
  - split; [exact Hin|]. split; [exact Hlen|]. split; [exact Hm|].
    intros [Hwl Hnz] Hle. rewrite <- Hlen, Hwl.
    apply strncmp_eq_exact; [exact Hnz|lia|]. rewrite <- Hwl. exact Hm.
  - intros Ha Ht. rewrite Hk. apply Hamb in Ha. rewrite Ha, Ht. reflexivity.
  - intros Hn.
    assert (Hc : (klength found_key =? 2)%nat
                 && ((at_ buf 1 =? chr "O") || (at_ buf 1 =? chr "[")
                     || (at_ buf 1 =? chr "]"))
                 && negb (isKeypressTimeout now kb) = false).
    { apply not_true_is_false. intros Hc. apply Hn.
      apply andb_prop in Hc as [Hc Ht]. split; [apply Hamb; exact Hc|].
      apply negb_true_iff. exact Ht. }
    rewrite Hk, Hc. split; [reflexivity|].
    intros HL Ho. simpl. apply consume_buf_shift; [exact HL|lia].
Qed.

(** ** Substrings of other keys *)

Lemma at_insert_ne (buf : list Z) (i j : nat) (x : Z) :
  i <> j -> at_ (<[i := x]> buf) j = at_ buf j.
Proof. intros H. unfold at_. rewrite list_lookup_insert_ne by exact H. reflexivity. Qed.

(** The branch of [substringKeyHandling] that fires. *)
Lemma substringKeyHandling_fires (now : Z) (kb : FKeyboard) (c : Z)
  (meta : FKey) :
  In (c, meta) [ (chr "O", FKey.Meta_O);
                 (chr "[", FKey.Meta_left_square_bracket);
                 (chr "]", FKey.Meta_right_square_bracket) ] ->
  fifo_in_use kb = true -> fifo_offset kb = 2%nat ->
  at_ (fifo_buf kb) 0 = 0x1b -> at_ (fifo_buf kb) 1 = c ->
  at_ (fifo_buf kb) 2 = 0 ->
  isKeypressTimeout now kb = true ->
  fkey_queue (substringKeyHandling now kb) = fkey_queue kb ++ [meta]
  /\ fifo_offset (substringKeyHandling now kb) = 0%nat
  /\ fifo_in_use (substringKeyHandling now kb) = false
  /\ unprocessed_buffer_data (substringKeyHandling now kb) = false
  /\ fifo_buf (substringKeyHandling now kb) = <[0%nat := 0]> (fifo_buf kb).
Proof.
  intros Hin Huse Hoff H0 H1 H2 Ht.
  unfold substringKeyHandling.
  rewrite Huse, Hoff, H0, H1, H2, Ht.
  simpl in Hin.
  destruct Hin as [E|[E|[E|[]]]]; injection E as <- <-;
    cbn -[at_]; rewrite at_insert_ne by lia; rewrite H1;
    repeat split; reflexivity.
Qed.

(** ** The numeric remaps *)

Lemma remap_0 : FKey.Ctrl_space <> 127 -> remap 0 = FKey.Ctrl_space.
Proof.
  intros H. unfold remap. simpl.
  destruct (Z.eqb_spec FKey.Ctrl_space 127); [contradiction|reflexivity].
Qed.

Lemma remap_127 : remap 127 = FKey.Backspace.
Proof. reflexivity. Qed.

Lemma remap_NOT_SET (k : FKey) :
  FKey.Ctrl_space <> NOT_SET -> FKey.Backspace <> NOT_SET ->
  remap k = NOT_SET -> k = NOT_SET.
Proof.
  intros Hc Hb. unfold remap.
  destruct (k =? 0);
    [destruct (FKey.Ctrl_space =? 127)|destruct (k =? 127)]; congruence.
Qed.

(** C3, as the code has it. The two remaps are the end of
    [getSingleKey]: on its single-byte path and on its UTF-8 path a raw
    value 0 becomes [Ctrl_space] and a raw value 127 becomes [Backspace].
    The two table lookups hand on the key identifier stored in the entry
    they found, whatever its value: [getTermcapKey] always, [getKnownKey]
    for every match but the deferred one (two bytes long, second byte
    ['O'], ['['] or [']'], timeout still running), for which it returns
    [Incomplete] and no identifier of the table at all. *)
Theorem remap_single_key_only (now : Z) (kb : FKeyboard) :
  FKey.Ctrl_space <> 127 ->
  let buf := fifo_buf kb in
  let firstchar := at_ buf 0 in
  let is_utf8 := utf8_input kb && (Z.land firstchar 0xc0 =? 0xc0) in
  (is_utf8 = false ->
   (firstchar = 0 -> fst (getSingleKey now kb) = FKey.Ctrl_space)
   /\ (firstchar = 127 -> fst (getSingleKey now kb) = FKey.Backspace))
  /\ (is_utf8 = true ->
      (stringLength buf <? utf8_len firstchar)%nat
      && negb (isKeypressTimeout now kb) = false ->
      let raw :=
        UTF8decode (c_str (map (at_ buf) (seq 0 (utf8_len firstchar)))) in
      (raw = 0 -> fst (getSingleKey now kb) = FKey.Ctrl_space)
      /\ (raw = 127 -> fst (getSingleKey now kb) = FKey.Backspace))
  /\ (forall found_key,
         find (known_key_matches kb) FKey.getKeyMap = Some found_key ->
         let deferred :=
           klength found_key = 2%nat
           /\ (at_ buf 1 = chr "O" \/ at_ buf 1 = chr "["
               \/ at_ buf 1 = chr "]")
           /\ isKeypressTimeout now kb = false in
         (~ deferred -> fst (getKnownKey now kb) = num found_key)
         /\ (deferred -> fst (getKnownKey now kb) = FKey.Incomplete))
  /\ (forall caps found_key,
         key_cap_ptr kb = Some caps ->
         find (cap_key_matches kb) caps = Some found_key ->
         fst (getTermcapKey kb) = num found_key).
Proof.
  intros Hcs buf firstchar is_utf8. split; [|split; [|split]].
  - intros Hu. unfold getSingleKey. fold buf firstchar is_utf8. rewrite Hu.
    simpl. split; intros ->; [apply remap_0; exact Hcs|apply remap_127].
  - intros Hu Hinc raw. unfold getSingleKey. fold buf firstchar is_utf8.
    rewrite Hu, Hinc. simpl. fold raw.
    split; intros ->; [apply remap_0; exact Hcs|apply remap_127].
  - intros found_key Hf deferred.
    rewrite (getKnownKey_found _ _ _ Hf). fold buf.
    assert (Hd : (klength found_key =? 2)%nat
                 && ((at_ buf 1 =? chr "O") || (at_ buf 1 =? chr "[")
                     || (at_ buf 1 =? chr "]"))
                 && negb (isKeypressTimeout now kb) = true <-> deferred).
    { unfold deferred.
      rewrite !andb_true_iff, !orb_true_iff, !Z.eqb_eq, Nat.eqb_eq,
        negb_true_iff. tauto. }
    clearbody deferred.
    destruct ((klength found_key =? 2)%nat
              && ((at_ buf 1 =? chr "O") || (at_ buf 1 =? chr "[")
                  || (at_ buf 1 =? chr "]"))
              && negb (isKeypressTimeout now kb)).
    + split; [intros Hn; exfalso; apply Hn, Hd; reflexivity|].
      intros _. reflexivity.
    + split; [intros _; reflexivity|].
      intros H. apply Hd in H. discriminate H.
  - intros caps found_key Hp Hf. unfold getTermcapKey. rewrite Hp, Hf.
    reflexivity.
Qed.

(** ** UTF-8 decoder *)

Lemma lor_shiftl_small (a r n : Z) :
  0 <= n -> 0 <= r < 2 ^ n -> Z.lor (Z.shiftl a n) r = a * 2 ^ n + r.
Proof.
  intros Hn Hr.
  assert (Hland : Z.land (Z.shiftl a n) r = 0).
  { apply Z.bits_inj'. intros i Hi. rewrite Z.land_spec, Z.bits_0.
    destruct (Z.lt_ge_cases i n) as [Hlt|Hge].
    - rewrite Z.shiftl_spec_low by lia. reflexivity.
    - rewrite andb_false_iff. right.
      destruct (Z.eq_dec r 0) as [->|Hr0]; [apply Z.bits_0|].
      apply Z.bits_above_log2; [lia|].
      apply Z.lt_le_trans with n; [|lia].
      apply Z.log2_lt_pow2; lia. }
  rewrite <- Z.lxor_lor by exact Hland.
  rewrite <- Z.add_nocarry_lxor by exact Hland.
  rewrite Z.shiftl_mul_pow2 by lia. reflexivity.
Qed.

(** A decidable property of the numbers below [n], by running through
    them. *)
Lemma forall_below (P : Z -> bool) (n : nat) :
  forallb P (map Z.of_nat (seq 0 n)) = true ->
  forall z, 0 <= z < Z.of_nat n -> P z = true.
Proof.
  intros H z Hz. rewrite forallb_forall in H. apply H.
  apply in_map_iff. exists (Z.to_nat z). split; [lia|].
  apply in_seq. lia.
Qed.

Lemma step_continuation (ucs r : Z) :
  0 <= r < 64 ->
  UTF8decode_step ucs (Z.lor 0x80 r) = Z.lor (wrap32 (Z.shiftl ucs 6)) r.
Proof.
  intros Hr.
  pose proof (forall_below
    (fun r => (Z.land (Z.lor 0x80 r) 0xc0 =? 0x80)
              && (Z.land (Z.lor 0x80 r) 0x3f =? r)) 64 eq_refl r Hr) as H.
  apply andb_prop in H as [H1 H2]. apply Z.eqb_eq in H2.
  unfold UTF8decode_step. rewrite H1, H2. reflexivity.
Qed.

Lemma step_lead2 (ucs q : Z) :
  0 <= q < 32 -> UTF8decode_step ucs (Z.lor 0xc0 q) = q.
Proof.
  intros Hq.
  pose proof (forall_below
    (fun q => let ch := Z.lor 0xc0 q in
              negb (Z.land ch 0xc0 =? 0x80) && negb (ch <? 128)
              && (Z.land ch 0xe0 =? 0xc0) && (Z.land ch 0x1f =? q))
    32 eq_refl q Hq) as H.
  cbv zeta in H. repeat (apply andb_prop in H as [H ?]).
  unfold UTF8decode_step.
  repeat match goal with
         | E : negb ?b = true |- _ => apply negb_true_iff in E; rewrite E
         | E : (_ =? 0xc0) = true |- _ => rewrite E
         end.
  apply Z.eqb_eq. assumption.
Qed.

Lemma step_lead3 (ucs q : Z) :
  0 <= q < 16 -> UTF8decode_step ucs (Z.lor 0xe0 q) = q.
Proof.
  intros Hq.
  pose proof (forall_below
    (fun q => let ch := Z.lor 0xe0 q in
              negb (Z.land ch 0xc0 =? 0x80) && negb (ch <? 128)
              && negb (Z.land ch 0xe0 =? 0xc0)
              && (Z.land ch 0xf0 =? 0xe0) && (Z.land ch 0x0f =? q))
    16 eq_refl q Hq) as H.
  cbv zeta in H. repeat (apply andb_prop in H as [H ?]).
  unfold UTF8decode_step.
  repeat match goal with
         | E : negb ?b = true |- _ => apply negb_true_iff in E; rewrite E
         | E : (_ =? 0xe0) = true |- _ => rewrite E
         end.
  apply Z.eqb_eq. assumption.
Qed.

Lemma step_lead4 (ucs q : Z) :
  0 <= q < 8 -> UTF8decode_step ucs (Z.lor 0xf0 q) = q.
Proof.
  intros Hq.
  pose proof (forall_below
    (fun q => let ch := Z.lor 0xf0 q in
              negb (Z.land ch 0xc0 =? 0x80) && negb (ch <? 128)
              && negb (Z.land ch 0xe0 =? 0xc0)
              && negb (Z.land ch 0xf0 =? 0xe0)
              && (Z.land ch 0xf8 =? 0xf0) && (Z.land ch 0x07 =? q))
    8 eq_refl q Hq) as H.
  cbv zeta in H. repeat (apply andb_prop in H as [H ?]).
  unfold UTF8decode_step.
  repeat match goal with
         | E : negb ?b = true |- _ => apply negb_true_iff in E; rewrite E
         | E : (_ =? 0xf0) = true |- _ => rewrite E
         end.
  apply Z.eqb_eq. assumption.
Qed.

(** Linear arithmetic with division and shifts by constants. *)
Ltac divlia :=
  change (2 ^ 6) with 64 in *; change (2 ^ 12) with 4096 in *;
  change (2 ^ 18) with 262144 in *; change (2 ^ 26) with 67108864 in *;
  Z.div_mod_to_equations; lia.

(** Folding a continuation byte into a small accumulator appends its six
    payload bits. *)
Lemma fold_continuation (ucs x : Z) :
  0 <= ucs < 2 ^ 26 ->
  UTF8decode_step ucs (Z.lor 0x80 (Z.land x 0x3f)) = ucs * 64 + x mod 64.
Proof.
  intros Hu.
  change 0x3f with (Z.ones 6). rewrite Z.land_ones by lia.
  change (2 ^ 6) with 64.
  pose proof (Z.mod_pos_bound x 64 ltac:(lia)) as Hm.
  rewrite step_continuation by lia.
  unfold wrap32. rewrite Z.shiftl_mul_pow2 by lia.
  rewrite Z.mod_small by lia.
  rewrite <- Z.shiftl_mul_pow2 by lia.
  rewrite lor_shiftl_small by lia. reflexivity.
Qed.

(** C7. For every code point in [0x80, 0x10FFFF], decoding the exact
    bytes of its UTF-8 encoding (two, three or four bytes) returns the
    code point. *)
Theorem UTF8decode_encode_roundtrip (cp : Z) :
  0x80 <= cp <= 0x10FFFF ->
  (2 <= length (utf8_encode cp) <= 4)%nat
  /\ UTF8decode (utf8_encode cp) = cp.
Proof.
  intros Hcp. unfold utf8_encode, UTF8decode.
  destruct (Z.ltb_spec cp 0x80) as [?|_]; [lia|].
  destruct (Z.ltb_spec cp 0x800) as [H2|H2];
    [|destruct (Z.ltb_spec cp 0x10000) as [H3|H3]];
    (split; [simpl; lia|]); cbn [length Nat.min take fold_left];
    rewrite ?Z.shiftr_div_pow2 by lia.
  - rewrite step_lead2 by divlia.
    rewrite fold_continuation by divlia.
    divlia.
  - rewrite step_lead3 by divlia.
    rewrite (fold_continuation (cp / 2 ^ 12)) by divlia.
    rewrite fold_continuation by divlia.
    divlia.
  - rewrite step_lead4 by divlia.
    rewrite (fold_continuation (cp / 2 ^ 18)) by divlia.
    rewrite (fold_continuation (cp / 2 ^ 18 * 64 + _)) by divlia.
    rewrite fold_continuation by divlia.
    divlia.
Qed.

(** ** Malformed bytes *)

Lemma invalid_byte_tests (ch : Z) :
  0 <= ch < 256 -> utf8_invalid_byte ch = true ->
  (Z.land ch 0xc0 =? 0x80) = false /\ (ch <? 128) = false
  /\ (Z.land ch 0xe0 =? 0xc0) = false /\ (Z.land ch 0xf0 =? 0xe0) = false
  /\ (Z.land ch 0xf8 =? 0xf0) = false
  /\ (Z.land ch 0xc0 =? 0xc0) = true /\ (ch =? 0) = false.
Proof.
  intros Hb Hi.
  pose proof (forall_below
    (fun ch => implb (utf8_invalid_byte ch)
       (negb (Z.land ch 0xc0 =? 0x80) && negb (ch <? 128)
        && negb (Z.land ch 0xe0 =? 0xc0) && negb (Z.land ch 0xf0 =? 0xe0)
        && negb (Z.land ch 0xf8 =? 0xf0)
        && (Z.land ch 0xc0 =? 0xc0) && negb (ch =? 0)))
    256 eq_refl ch Hb) as H.
  cbv beta in H. rewrite Hi in H. simpl in H.
  repeat (apply andb_prop in H as [H ?]).
  repeat match goal with
         | E : negb _ = true |- _ => apply negb_true_iff in E
         end.
  repeat split; assumption.
Qed.

Lemma step_invalid (ucs ch : Z) :
  0 <= ch < 256 -> utf8_invalid_byte ch = true ->
  UTF8decode_step ucs ch = NOT_SET.
Proof.
  intros Hb Hi.
  destruct (invalid_byte_tests ch Hb Hi) as (H1 & H2 & H3 & H4 & H5 & _).
  unfold UTF8decode_step. rewrite H1, H2, H3, H4, H5. reflexivity.
Qed.

Lemma stringLength_pos (buf : list Z) :
  at_ buf 0 <> 0 -> (stringLength buf <? 1)%nat = false.
Proof.
  destruct buf as [|c buf]; [intros H; exfalso; apply H; reflexivity|].
  unfold at_. simpl. intros H.
  destruct (Z.eqb_spec c 0); [contradiction|reflexivity].
Qed.

(** [getSingleKey] on a first byte that has none of the five patterns:
    the expected length stays 1, the byte alone is decoded, and the
    sentinel is what the function returns after the remaps. *)
Lemma getSingleKey_invalid_lead (now : Z) (kb : FKeyboard) (ch : Z) :
  0 <= ch < 256 -> utf8_invalid_byte ch = true ->
  utf8_input kb = true -> at_ (fifo_buf kb) 0 = ch ->
  getSingleKey now kb = (remap NOT_SET, consumeFront 1 kb).
Proof.
  intros Hb Hi Hu H0.
  destruct (invalid_byte_tests ch Hb Hi) as (H1 & H2 & H3 & H4 & H5 & H6 & H7).
  unfold getSingleKey. rewrite Hu, H0, H6. simpl.
  assert (Hlen : utf8_len ch = 1%nat).
  { unfold utf8_len. rewrite H3, H4, H5. reflexivity. }
  rewrite Hlen.
  rewrite stringLength_pos by (rewrite H0; apply Z.eqb_neq; exact H7).
  simpl. rewrite H0. unfold c_str. simpl. rewrite H7. simpl.
  unfold UTF8decode. simpl. rewrite step_invalid by assumption. reflexivity.
Qed.

(** C4, as the code has it. [UTF8decode] returns [NOT_SET] when the last
    byte it processes, the one at index [min(len, 4) - 1], has none of
    the five patterns. Its caller [getSingleKey], given a buffer that
    starts with such a byte while UTF-8 input is on, consumes that byte
    and returns the sentinel, passed through the two remaps, as the
    key. *)
Theorem UTF8decode_invalid_last_byte (utf8 : list Z) (ch : Z) :
  0 <= ch < 256 -> utf8_invalid_byte ch = true ->
  (utf8 !! (Nat.min (length utf8) 4 - 1)%nat = Some ch ->
   UTF8decode utf8 = NOT_SET)
  /\ (forall now kb,
         utf8_input kb = true -> at_ (fifo_buf kb) 0 = ch ->
         getSingleKey now kb = (remap NOT_SET, consumeFront 1 kb)).
Proof.
  intros Hb Hi. split.
  - intros Hl. unfold UTF8decode.
    assert (Hn : (0 < Nat.min (length utf8) 4)%nat).
    { apply lookup_lt_Some in Hl. lia. }
    replace (Nat.min (length utf8) 4)
      with (S (Nat.min (length utf8) 4 - 1)) by lia.
    rewrite (take_S_r _ _ ch Hl), fold_left_app. simpl.
    apply step_invalid; assumption.
  - intros now kb Hu H0. apply (getSingleKey_invalid_lead now kb ch); assumption.
Qed.

(** ** What the classifier returns *)

Lemma at_Forall (P : Z -> Prop) (buf : list Z) (i : nat) :
  P 0 -> Forall P buf -> P (at_ buf i).
Proof.
  intros H0 HP. unfold at_. destruct (buf !! i) as [x|] eqn:E; [|exact H0].
  simpl. exact (proj1 (Forall_lookup P buf) HP i x E).
Qed.

Lemma fold_insert_Forall (P : Z -> Prop) (f : list Z -> nat -> nat)
  (g : list Z -> nat -> Z) (idx : list nat) (buf : list Z) :
  (forall b n, Forall P b -> P (g b n)) -> Forall P buf ->
  Forall P (fold_left (fun b n => <[f b n := g b n]> b) idx buf).
Proof.
  intros Hg. revert buf. induction idx as [|n idx IH]; intros buf HP.
  - exact HP.
  - simpl. apply IH. apply Forall_insert; [exact HP|]. apply Hg. exact HP.
Qed.

Lemma consume_buf_Forall (P : Z -> Prop) (len : nat) (buf : list Z) :
  P 0 -> Forall P buf -> Forall P (consume_buf len buf).
Proof.
  intros H0 HP. unfold consume_buf, fill_loop, remove_loop.
  apply (fold_insert_Forall P (fun _ n => n) (fun _ _ => 0));
    [intros; exact H0|].
  apply (fold_insert_Forall P (fun _ n => (n - len)%nat) (fun b n => at_ b n));
    [intros; apply at_Forall; assumption|exact HP].
Qed.

(** The table lookups leave the UTF-8 setting alone and keep a buffer of
    bytes a buffer of bytes. *)
Lemma getTermcapKey_keeps (P : Z -> Prop) (kb : FKeyboard) :
  P 0 -> Forall P (fifo_buf kb) ->
  utf8_input (snd (getTermcapKey kb)) = utf8_input kb
  /\ Forall P (fifo_buf (snd (getTermcapKey kb))).
Proof.
  intros H0 HP. unfold getTermcapKey.
  destruct (key_cap_ptr kb) as [caps|]; [|split; [reflexivity|exact HP]].
  destruct (find (cap_key_matches kb) caps);
    [|split; [reflexivity|exact HP]].
  simpl. split; [reflexivity|]. apply consume_buf_Forall; assumption.
Qed.

Lemma getKnownKey_keeps (P : Z -> Prop) (now : Z) (kb : FKeyboard) :
  P 0 -> Forall P (fifo_buf kb) ->
  utf8_input (snd (getKnownKey now kb)) = utf8_input kb
  /\ Forall P (fifo_buf (snd (getKnownKey now kb))).
Proof.
  intros H0 HP. unfold getKnownKey.
  destruct (find (known_key_matches kb) FKey.getKeyMap);
    [|split; [reflexivity|exact HP]].
  match goal with |- context [if ?c then _ else _] => destruct c end;
    [split; [reflexivity|exact HP]|].
  simpl. split; [reflexivity|]. apply consume_buf_Forall; assumption.
Qed.

(** When the fallback returns [NOT_SET], it is the UTF-8 decoder that
    produced it. *)
Lemma getSingleKey_NOT_SET (now : Z) (kb : FKeyboard) :
  FKey.Incomplete <> NOT_SET -> FKey.Ctrl_space <> NOT_SET ->
  FKey.Backspace <> NOT_SET -> ~ 0 <= NOT_SET < 256 ->
  0 <= at_ (fifo_buf kb) 0 < 256 ->
  fst (getSingleKey now kb) = NOT_SET ->
  utf8_input kb = true
  /\ Z.land (at_ (fifo_buf kb) 0) 0xc0 = 0xc0
  /\ UTF8decode (c_str (map (at_ (fifo_buf kb))
                          (seq 0 (utf8_len (at_ (fifo_buf kb) 0)))))
     = NOT_SET.
Proof.
  intros Hi Hc Hb Hn H0. unfold getSingleKey.
  destruct (utf8_input kb); simpl.
  - destruct (Z.eqb_spec (Z.land (at_ (fifo_buf kb) 0) 192) 192) as [E|E].
    + destruct ((stringLength (fifo_buf kb)
                 <? utf8_len (at_ (fifo_buf kb) 0))%nat
                && negb (isKeypressTimeout now kb)); simpl.
      * intros H. congruence.
      * intros H. apply remap_NOT_SET in H; [|assumption..].
        split; [reflexivity|]. split; [exact E|exact H].
    + intros H. apply remap_NOT_SET in H; [|assumption..].
      rewrite H in H0. contradiction.
  - intros H. apply remap_NOT_SET in H; [|assumption..].
    rewrite H in H0. contradiction.
Qed.

(** C10, as the code has it. [parseKeyString] never returns the
    [NOT_SET] of the mouse, platform-table and generic-table lookups.
    What it returns is [NOT_SET] only when UTF-8 input is enabled and the
    result is the fallback's: the fallback runs on a buffer whose first
    byte has its two top bits set, and [UTF8decode] itself yields
    [NOT_SET] on the bytes handed to it. With UTF-8 input disabled the
    classifier never returns [NOT_SET]. *)
Theorem parseKeyString_NOT_SET_origin (now : Z) (kb : FKeyboard) :
  FKey.Incomplete <> NOT_SET -> FKey.Ctrl_space <> NOT_SET ->
  FKey.Backspace <> NOT_SET -> ~ 0 <= NOT_SET < 256 ->
  Forall (fun c => 0 <= c < 256) (fifo_buf kb) ->
  fst (parseKeyString now kb) = NOT_SET ->
  utf8_input kb = true
  /\ exists kb1,
      parseKeyString now kb = getSingleKey now kb1
      /\ (at_ (fifo_buf kb) 0 <> ESC0 -> kb1 = kb)
      /\ utf8_input kb1 = true
      /\ Z.land (at_ (fifo_buf kb1) 0) 0xc0 = 0xc0
      /\ UTF8decode (c_str (map (at_ (fifo_buf kb1))
                              (seq 0 (utf8_len (at_ (fifo_buf kb1) 0)))))
         = NOT_SET.
Proof.
  intros Hi Hc Hb Hn HP.
  assert (Hfall : forall kb1,
             utf8_input kb1 = utf8_input kb ->
             Forall (fun c => 0 <= c < 256) (fifo_buf kb1) ->
             (at_ (fifo_buf kb) 0 <> ESC0 -> kb1 = kb) ->
             parseKeyString now kb = getSingleKey now kb1 ->
             fst (parseKeyString now kb) = NOT_SET ->
             utf8_input kb = true
             /\ exists kb1,
                 parseKeyString now kb = getSingleKey now kb1
                 /\ (at_ (fifo_buf kb) 0 <> ESC0 -> kb1 = kb)
                 /\ utf8_input kb1 = true
                 /\ Z.land (at_ (fifo_buf kb1) 0) 0xc0 = 0xc0
                 /\ UTF8decode
                      (c_str (map (at_ (fifo_buf kb1))
                                (seq 0 (utf8_len (at_ (fifo_buf kb1) 0)))))
                    = NOT_SET).
  { intros kb1 Hu HP1 Hsame Heq Hres. rewrite Heq in Hres.
    apply getSingleKey_NOT_SET in Hres; try assumption.
    2:{ apply (at_Forall (fun c => 0 <= c < 256)); [cbv beta; lia|exact HP1]. }
    destruct Hres as (Hu1 & Hl & Hd).
    split; [congruence|]. exists kb1. tauto. }
  destruct (Z.eqb_spec (at_ (fifo_buf kb) 0) ESC0) as [E0|E0].
  2:{ apply (Hfall kb); try tauto.
      unfold parseKeyString.
      destruct (Z.eqb_spec (at_ (fifo_buf kb) 0) ESC0);
        [contradiction|reflexivity]. }
  assert (Hunf : parseKeyString now kb
    = if negb (getMouseProtocolKey kb =? NOT_SET)
      then (getMouseProtocolKey kb, kb)
      else
        let '(keycode, kb) := getTermcapKey kb in
        if negb (keycode =? NOT_SET) then (keycode, kb)
        else
          let '(keycode, kb) := getKnownKey now kb in
          if negb (keycode =? NOT_SET) then (keycode, kb)
          else if negb (isKeypressTimeout now kb) then (FKey.Incomplete, kb)
          else getSingleKey now kb).
  { unfold parseKeyString. rewrite E0, Z.eqb_refl. reflexivity. }
  destruct (getTermcapKey_keeps (fun c => 0 <= c < 256) kb
              ltac:(cbv beta; lia) HP) as [Hu1 HP1].
  destruct (getTermcapKey kb) as [k1 kb1] eqn:Et.
  simpl in Hu1, HP1. cbv beta iota zeta in Hunf.
  destruct (getKnownKey_keeps (fun c => 0 <= c < 256) now kb1
              ltac:(cbv beta; lia) HP1) as [Hu2 HP2].
  destruct (getKnownKey now kb1) as [k2 kb2] eqn:Ek.
  simpl in Hu2, HP2. cbv beta iota zeta in Hunf.
  destruct (Z.eqb_spec (getMouseProtocolKey kb) NOT_SET) as [Em|Em];
    [|rewrite Hunf; simpl; intros H; contradiction].
  destruct (Z.eqb_spec k1 NOT_SET) as [E1|E1];
    [|rewrite Hunf; simpl; intros H; contradiction].
  destruct (Z.eqb_spec k2 NOT_SET) as [E2|E2];
    [|rewrite Hunf; simpl; intros H; contradiction].
  destruct (isKeypressTimeout now kb2) eqn:Et2;
    [|rewrite Hunf; simpl; intros H; congruence].
  simpl in Hunf.
  apply (Hfall kb2); [congruence|exact HP2|intros; contradiction|exact Hunf].
Qed.

(** ** Termination of the decode cycle *)

Lemma nonzero_app (l1 l2 : list Z) :
  nonzero (l1 ++ l2) = (nonzero l1 + nonzero l2)%nat.
Proof. induction l1 as [|c l1 IH]; simpl; [reflexivity|]. rewrite IH. lia. Qed.

Lemma nonzero_replicate (k : nat) : nonzero (replicate k 0) = O.
Proof. induction k as [|k IH]; simpl; [reflexivity|exact IH]. Qed.

Lemma nonzero_le_length (buf : list Z) : (nonzero buf <= length buf)%nat.
Proof.
  induction buf as [|c buf IH]; simpl; [lia|]. destruct (c =? 0); lia.
Qed.

Lemma nonzero_drop (n : nat) (buf : list Z) :
  (nonzero (drop n buf) <= nonzero buf)%nat.
Proof.
  revert buf. induction n as [|n IH]; intros [|c buf]; simpl; try lia.
  specialize (IH buf). destruct (c =? 0); lia.
Qed.

Lemma nonzero_drop_lt (n : nat) (buf : list Z) :
  (1 <= n)%nat -> at_ buf 0 <> 0 ->
  (nonzero (drop n buf) < nonzero buf)%nat.
Proof.
  intros Hn H0. destruct buf as [|c buf]; [exfalso; apply H0; reflexivity|].
  destruct n as [|n]; [lia|]. simpl.
  pose proof (nonzero_drop n buf).
  destruct (Z.eqb_spec c 0) as [->|_]; [exfalso; apply H0; reflexivity|lia].
Qed.

(** The two loops on a buffer of the declared size, for any length of
    the token. *)
Lemma consume_buf_any (len : nat) (buf : list Z) :
  length buf = FIFO_BUF_SIZE ->
  consume_buf len buf
  = drop len buf ++ replicate (Nat.min len FIFO_BUF_SIZE) 0.
Proof.
  intros Hlen. destruct (le_lt_dec len FIFO_BUF_SIZE) as [Hle|Hgt].
  - rewrite Nat.min_l by lia. apply consume_buf_shift; assumption.
  - unfold consume_buf, fill_loop, remove_loop.
    replace (FIFO_BUF_SIZE - len)%nat with O by lia. simpl.
    rewrite Nat.max_l by lia. rewrite Nat.sub_diag, Nat.sub_0_r.
    rewrite fill_loop_prefix by lia. simpl.
    rewrite !drop_ge by lia. rewrite Nat.min_r by lia.
    rewrite app_nil_r. reflexivity.
Qed.

Lemma taken_trans (kb kb1 kb2 : FKeyboard) :
  taken kb kb1 -> taken kb1 kb2 -> taken kb kb2.
Proof.
  intros (L1 & _ & N1 & S1) (L2 & Z2 & N2 & S2). split; [exact L2|].
  split; [exact Z2|].
  split; [lia|]. intros H0. specialize (S1 H0). lia.
Qed.

Lemma consumeFront_taken (len : nat) (kb : FKeyboard) :
  length (fifo_buf kb) = FIFO_BUF_SIZE -> (1 <= len)%nat ->
  taken kb (consumeFront len kb).
Proof.
  intros Hlen Hn. unfold taken, consumeFront. simpl.
  rewrite consume_buf_any by exact Hlen.
  rewrite length_app, length_drop, length_replicate.
  rewrite nonzero_app, nonzero_replicate, Nat.add_0_r.
  split; [lia|]. split.
  { unfold at_.
    destruct ((drop len (fifo_buf kb)
               ++ replicate (Nat.min len FIFO_BUF_SIZE) 0)
              !! (FIFO_BUF_SIZE - 1)%nat) as [x|] eqn:E; [|reflexivity].
    rewrite lookup_app_r in E by (rewrite length_drop; lia).
    apply lookup_replicate in E as [-> _]. reflexivity. }
  split; [apply nonzero_drop|].
  intros H0. apply nonzero_drop_lt; assumption.
Qed.

Lemma getMouseProtocolKey_cases (kb : FKeyboard) :
  getMouseProtocolKey kb = NOT_SET \/ ends_resolving (getMouseProtocolKey kb).
Proof.
  unfold getMouseProtocolKey, ends_resolving.
  repeat match goal with
         | |- context [if ?c then _ else _] => destruct c
         end; tauto.
Qed.

Lemma getTermcapKey_step (kb : FKeyboard) :
  length (fifo_buf kb) = FIFO_BUF_SIZE ->
  getTermcapKey kb = (NOT_SET, kb) \/ taken kb (snd (getTermcapKey kb)).
Proof.
  intros Hlen. unfold getTermcapKey.
  destruct (key_cap_ptr kb) as [caps|]; [|left; reflexivity].
  destruct (find (cap_key_matches kb) caps) as [e|] eqn:Hf;
    [|left; reflexivity].
  right. simpl. apply consumeFront_taken; [exact Hlen|].
  apply find_some in Hf as [_ Hm]. unfold cap_key_matches in Hm.
  destruct (Nat.eqb_spec (klength e) 0) as [E|E]; [discriminate|lia].
Qed.

Lemma getKnownKey_step (now : Z) (kb : FKeyboard) :
  length (fifo_buf kb) = FIFO_BUF_SIZE -> (0 < fifo_offset kb)%nat ->
  (snd (getKnownKey now kb) = kb
   /\ (fst (getKnownKey now kb) = NOT_SET
       \/ fst (getKnownKey now kb) = FKey.Incomplete))
  \/ taken kb (snd (getKnownKey now kb)).
Proof.
  intros Hlen Hoff. unfold getKnownKey.
  destruct (find (known_key_matches kb) FKey.getKeyMap) as [e|] eqn:Hf;
    [|left; split; [reflexivity|left; reflexivity]].
  match goal with |- context [if ?c then _ else _] => destruct c end;
    [left; split; [reflexivity|right; reflexivity]|].
  right. simpl. apply consumeFront_taken; [exact Hlen|].
  apply find_some in Hf as [_ Hm]. unfold known_key_matches in Hm.
  destruct (Nat.eqb_spec (klength e) (fifo_offset kb)) as [E|E];
    [lia|discriminate].
Qed.

Lemma utf8_len_pos (c : Z) : (1 <= utf8_len c)%nat.
Proof.
  unfold utf8_len.
  repeat match goal with
         | |- context [if ?c then _ else _] => destruct c
         end; lia.
Qed.

Lemma getSingleKey_step (now : Z) (kb : FKeyboard) :
  length (fifo_buf kb) = FIFO_BUF_SIZE ->
  getSingleKey now kb = (FKey.Incomplete, kb)
  \/ taken kb (snd (getSingleKey now kb)).
Proof.
  intros Hlen. unfold getSingleKey.
  destruct (utf8_input kb && (Z.land (at_ (fifo_buf kb) 0) 192 =? 192)).
  - match goal with |- context [if ?c then _ else _] => destruct c end;
      [left; reflexivity|].
    right. simpl. apply consumeFront_taken; [exact Hlen|apply utf8_len_pos].
  - right. simpl. apply consumeFront_taken; [exact Hlen|lia].
Qed.

Lemma taken_length (kb kb' : FKeyboard) :
  taken kb kb' -> length (fifo_buf kb') = FIFO_BUF_SIZE.
Proof. intros (L & _). exact L. Qed.

Lemma getTermcapKey_offset (kb : FKeyboard) :
  fifo_offset (snd (getTermcapKey kb)) = fifo_offset kb.
Proof.
  unfold getTermcapKey. destruct (key_cap_ptr kb) as [caps|]; [|reflexivity].
  destruct (find (cap_key_matches kb) caps); reflexivity.
Qed.

(** One call of the classifier on a buffer of the declared size: the
    buffer keeps its size, and either the key ends the inner loop or a
    token has been taken from the front. *)
Lemma parseKeyString_step (now : Z) (kb : FKeyboard) :
  length (fifo_buf kb) = FIFO_BUF_SIZE -> (0 < fifo_offset kb)%nat ->
  length (fifo_buf (snd (parseKeyString now kb))) = FIFO_BUF_SIZE
  /\ (ends_resolving (fst (parseKeyString now kb))
      \/ taken kb (snd (parseKeyString now kb))).
Proof.
  intros Hlen Hoff.
  assert (Hsingle : forall kb1,
             kb1 = kb \/ taken kb kb1 ->
             length (fifo_buf (snd (getSingleKey now kb1))) = FIFO_BUF_SIZE
             /\ (ends_resolving (fst (getSingleKey now kb1))
                 \/ taken kb (snd (getSingleKey now kb1)))).
  { intros kb1 H1.
    assert (L1 : length (fifo_buf kb1) = FIFO_BUF_SIZE).
    { destruct H1 as [->|H1]; [exact Hlen|exact (taken_length _ _ H1)]. }
    destruct (getSingleKey_step now kb1 L1) as [E|T].
    - rewrite E. simpl. split; [exact L1|]. left. left. reflexivity.
    - split; [exact (taken_length _ _ T)|]. right.
      destruct H1 as [->|H1]; [exact T|exact (taken_trans _ _ _ H1 T)]. }
  unfold parseKeyString.
  destruct (at_ (fifo_buf kb) 0 =? ESC0); [|apply Hsingle; left; reflexivity].
  destruct (Z.eqb_spec (getMouseProtocolKey kb) NOT_SET) as [Em|Em]; simpl.
  2:{ split; [exact Hlen|]. left.
      destruct (getMouseProtocolKey_cases kb); [contradiction|assumption]. }
  pose proof (getTermcapKey_step kb Hlen) as Ht.
  pose proof (getTermcapKey_offset kb) as Ho.
  destruct (getTermcapKey kb) as [k1 kb1]. simpl in Ht, Ho.
  assert (H1 : kb1 = kb \/ taken kb kb1).
  { destruct Ht as [E|T]; [left; congruence|right; exact T]. }
  assert (L1 : length (fifo_buf kb1) = FIFO_BUF_SIZE).
  { destruct H1 as [->|T]; [exact Hlen|exact (taken_length _ _ T)]. }
  destruct (Z.eqb_spec k1 NOT_SET) as [E1|E1]; simpl.
  2:{ split; [exact L1|]. right.
      destruct Ht as [E|T]; [congruence|exact T]. }
  pose proof (getKnownKey_step now kb1 L1 ltac:(lia)) as Hk.
  destruct (getKnownKey now kb1) as [k2 kb2]. simpl in Hk.
  assert (H2 : kb2 = kb \/ taken kb kb2).
  { destruct Hk as [[-> _]|T]; [exact H1|]. right.
    destruct H1 as [->|T1]; [exact T|exact (taken_trans _ _ _ T1 T)]. }
  assert (L2 : length (fifo_buf kb2) = FIFO_BUF_SIZE).
  { destruct H2 as [->|T]; [exact Hlen|exact (taken_length _ _ T)]. }
  destruct (Z.eqb_spec k2 NOT_SET) as [E2|E2]; simpl.
  2:{ split; [exact L2|].
      destruct Hk as [[-> [E|E]]|T]; [contradiction|left; left; exact E|].
      right. destruct H1 as [->|T1]; [exact T|exact (taken_trans _ _ _ T1 T)]. }
  destruct (isKeypressTimeout now kb2); simpl.
  - apply Hsingle. exact H2.
  - split; [exact L2|]. left. left. reflexivity.
Qed.

Lemma resolve_loop_done (fuel : nat) (now : Z) (kb : FKeyboard) :
  (0 <? fifo_offset kb)%nat && negb (fkey kb =? FKey.Incomplete) = false ->
  resolve_loop fuel now kb = Some kb.
Proof. intros H. destruct fuel; simpl; rewrite H; reflexivity. Qed.

(** The inner loop ends: with more fuel than the buffer has non-NUL
    bytes, plus one when it starts with NUL, it returns. The host's key
    correction must leave [Incomplete] and the mouse identifiers alone,
    and its mouse command must not resize the buffer. *)
Lemma resolve_loop_returns (now : Z) (fuel : nat) (kb : FKeyboard) :
  (forall k, ends_resolving k -> keyCorrection k = k) ->
  (forall kb0, length (fifo_buf (mouse_tracking_cmd kb0))
               = length (fifo_buf kb0)) ->
  length (fifo_buf kb) = FIFO_BUF_SIZE ->
  (resolve_measure (fifo_buf kb) < fuel)%nat ->
  exists kb', resolve_loop fuel now kb = Some kb'
              /\ length (fifo_buf kb') = FIFO_BUF_SIZE.
Proof.
  intros Hcorr Hmouse. revert kb.
  induction fuel as [|fuel IH]; intros kb Hlen Hfuel; [lia|].
  unfold resolve_measure in Hfuel.
  destruct ((0 <? fifo_offset kb)%nat && negb (fkey kb =? FKey.Incomplete))
    eqn:Hcond.
  2:{ exists kb. split; [apply resolve_loop_done; exact Hcond|exact Hlen]. }
  assert (Hoff : (0 < fifo_offset kb)%nat).
  { apply andb_prop in Hcond as [Hc _]. apply Nat.ltb_lt. exact Hc. }
  simpl. rewrite Hcond.
  destruct (parseKeyString_step now kb Hlen Hoff) as [L1 Hstep].
  destruct (parseKeyString now kb) as [k kb1]. simpl in L1, Hstep. simpl.
  destruct ((keyCorrection k =? FKey.X11mouse)
            || (keyCorrection k =? FKey.Extended_mouse)
            || (keyCorrection k =? FKey.Urxvt_mouse)) eqn:Hm.
  { eexists. split; [reflexivity|]. simpl. rewrite Hmouse. exact L1. }
  destruct (Z.eqb_spec (keyCorrection k) FKey.Incomplete) as [Ei|Ei]; simpl.
  { eexists. split;
      [apply resolve_loop_done; simpl;
       rewrite Ei, Z.eqb_refl, andb_false_r; reflexivity|exact L1]. }
  assert (T : taken kb kb1).
  { destruct Hstep as [He|T]; [|exact T]. exfalso.
    rewrite (Hcorr k He) in Hm, Ei.
    unfold ends_resolving in He.
    destruct He as [E|[E|[E|E]]]; [contradiction|..]; rewrite E in Hm;
      rewrite Z.eqb_refl in Hm; simpl in Hm;
      rewrite ?orb_true_r in Hm; discriminate. }
  destruct T as (_ & _ & Tle & Tlt).
  destruct (Nat.eq_dec (stringLength (fifo_buf kb1)) O) as [E0|E0].
  { eexists. split;
      [apply resolve_loop_done; simpl; rewrite E0; reflexivity|exact L1]. }
  assert (H1 : at_ (fifo_buf kb1) 0 <> 0).
  { intros H0. apply E0. destruct (fifo_buf kb1) as [|c b]; [reflexivity|].
    unfold at_ in H0. simpl in H0. subst c. reflexivity. }
  apply IH; [exact L1|]. simpl. unfold resolve_measure.
  destruct (Z.eqb_spec (at_ (fifo_buf kb1) 0) 0) as [|_]; [contradiction|].
  destruct (Z.eqb_spec (at_ (fifo_buf kb) 0) 0) as [_|Hn]; [lia|].
  specialize (Tlt Hn). lia.
Qed.

Lemma resolve_measure_bound (buf : list Z) :
  (resolve_measure buf < length buf + 2)%nat.
Proof.
  unfold resolve_measure. pose proof (nonzero_le_length buf).
  destruct (at_ buf 0 =? 0); lia.
Qed.

(** The outer loop returns, with enough fuel for the inner one. *)
Lemma read_loop_returns (input : list (Z * Z)) (kb : FKeyboard) :
  (forall k, ends_resolving k -> keyCorrection k = k) ->
  (forall kb0, length (fifo_buf (mouse_tracking_cmd kb0))
               = length (fifo_buf kb0)) ->
  length (fifo_buf kb) = FIFO_BUF_SIZE ->
  exists r, read_loop (FIFO_BUF_SIZE + 2) input kb = Some r.
Proof.
  intros Hcorr Hmouse. revert kb.
  induction input as [|[read_character now] input IH]; intros kb Hlen.
  - eexists. reflexivity.
  - cbn [read_loop].
    match goal with
    | |- context [resolve_loop _ now ?k] =>
        assert (Hl : length (fifo_buf k) = FIFO_BUF_SIZE);
        [|destruct (resolve_loop_returns now (FIFO_BUF_SIZE + 2) k
                      Hcorr Hmouse Hl) as (kb' & Hr & L')]
    end.
    { match goal with |- context [if ?c then _ else _] => destruct c end;
        cbn [fifo_buf set_fifo_in_use set_fifo_offset set_fifo_buf
             set_has_pending_input];
        [rewrite length_insert|]; exact Hlen. }
    { match goal with
      | |- (resolve_measure ?b < _)%nat =>
          pose proof (resolve_measure_bound b) as Hb
      end. lia. }
    rewrite Hr.
    match goal with |- context [if ?c then _ else _] => destruct c end.
    + eexists. reflexivity.
    + apply IH. exact L'.
Qed.

(** What the outer loop reads is the shortest non-empty prefix of the
    source after which the queue holds [MAX_QUEUE_SIZE] keys or more, and
    the whole source when there is no such prefix: reading the prefix
    alone gives the same keyboard, something is left unread only with the
    queue at or above capacity, and after every shorter non-empty prefix
    the queue is below capacity. *)
Lemma read_loop_stops (fuel : nat) (input : list (Z * Z))
  (kb kb' : FKeyboard) (rest : list (Z * Z)) :
  read_loop fuel input kb = Some (kb', rest) ->
  exists consumed,
    input = consumed ++ rest
    /\ read_loop fuel consumed kb = Some (kb', [])
    /\ (input <> [] -> consumed <> [])
    /\ (rest <> [] -> (MAX_QUEUE_SIZE <= length (fkey_queue kb'))%nat)
    /\ (forall p q, consumed = p ++ q -> p <> [] -> q <> [] ->
        exists kp,
          read_loop fuel p kb = Some (kp, [])
          /\ (length (fkey_queue kp) < MAX_QUEUE_SIZE)%nat).
Proof.
  revert kb. induction input as [|[read_character now] input IH]; intros kb.
  - simpl. intros E. injection E as <- <-.
    exists []. split; [reflexivity|]. split; [reflexivity|].
    split; [intros H; exact H|]. split; [intros H; contradiction|].
    intros p q E Hp _. destruct p; [contradiction|discriminate E].
  - cbn [read_loop].
    match goal with
    | |- context [resolve_loop fuel now ?k] =>
        destruct (resolve_loop fuel now k) as [kb1|] eqn:Hres; [|discriminate]
    end.
    destruct (MAX_QUEUE_SIZE <=? length (fkey_queue (set_fkey FKey.None kb1)))%nat
      eqn:Hq.
    + intros E. injection E as <- <-.
      exists [(read_character, now)]. split; [reflexivity|].
      split; [cbn [read_loop]; rewrite Hres, Hq; reflexivity|].
      split; [intros _; discriminate|].
      split; [intros _; apply Nat.leb_le; exact Hq|].
      intros p q E Hp Hn. destruct p as [|x p]; [contradiction|].
      destruct p; [|destruct p; discriminate E].
      destruct q; [contradiction|discriminate E].
    + intros E. apply IH in E as (consumed & Hc & Hrun & _ & Hfull & Hpre).
      exists ((read_character, now) :: consumed).
      split; [rewrite Hc; reflexivity|].
      split; [cbn [read_loop]; rewrite Hres, Hq; exact Hrun|].
      split; [intros _; discriminate|].
      split; [exact Hfull|].
      intros p q E Hp Hn. destruct p as [|x p]; [contradiction|].
      injection E as <- E.
      destruct p as [|y p].
      * exists (set_fkey FKey.None kb1).
        split; [cbn [read_loop]; rewrite Hres, Hq; reflexivity|].
        apply Nat.leb_gt. exact Hq.
      * destruct (Hpre (y :: p) q E) as (kp & Hkp & Hlt);
          [discriminate|exact Hn|].
        exists kp. split; [|exact Hlt].
        cbn [read_loop]. rewrite Hres, Hq. exact Hkp.
Qed.

(** C2, as the code has it. While the queue holds [MAX_QUEUE_SIZE] keys
    or more, [fetchKeyCode] decodes nothing: it reads no byte and leaves
    the keyboard as it is. Otherwise the cycle runs to its end, and it
    stops reading as soon as the queue has reached [MAX_QUEUE_SIZE] after
    a byte has been resolved: what it reads is a prefix [consumed] of the
    source, reading [consumed] alone ends with the same keyboard, a
    non-empty source below capacity has at least one byte read, bytes
    are left unread only with the queue at or above capacity, and after
    every shorter non-empty prefix of [consumed] the queue is still below
    capacity. *)
Theorem fetchKeyCode_back_pressure (now : Z) (input : list (Z * Z))
  (kb : FKeyboard) :
  (forall k, ends_resolving k -> keyCorrection k = k) ->
  (forall kb0, length (fifo_buf (mouse_tracking_cmd kb0))
               = length (fifo_buf kb0)) ->
  length (fifo_buf kb) = FIFO_BUF_SIZE ->
  ((MAX_QUEUE_SIZE <= length (fkey_queue kb))%nat ->
   forall fuel, fetchKeyCode fuel now input kb = Some (kb, input))
  /\ exists kb' consumed rest,
      fetchKeyCode (FIFO_BUF_SIZE + 2) now input kb = Some (kb', rest)
      /\ input = consumed ++ rest
      /\ fetchKeyCode (FIFO_BUF_SIZE + 2) now consumed kb = Some (kb', [])
      /\ ((length (fkey_queue kb) < MAX_QUEUE_SIZE)%nat ->
          input <> [] -> consumed <> [])
      /\ (rest <> [] -> (MAX_QUEUE_SIZE <= length (fkey_queue kb'))%nat)
      /\ (forall p q, consumed = p ++ q -> p <> [] -> q <> [] ->
          exists kp,
            fetchKeyCode (FIFO_BUF_SIZE + 2) now p kb = Some (kp, [])
            /\ (length (fkey_queue kp) < MAX_QUEUE_SIZE)%nat).
Proof.
  intros Hcorr Hmouse Hlen. split.
  - intros Hfull fuel. unfold fetchKeyCode.
    destruct (Nat.ltb_spec (length (fkey_queue kb)) MAX_QUEUE_SIZE);
      [lia|reflexivity].
  - unfold fetchKeyCode.
    destruct (Nat.ltb_spec (length (fkey_queue kb)) MAX_QUEUE_SIZE)
      as [Hroom|Hfull].
    + unfold parseKeyBuffer.
      destruct (read_loop_returns input (set_time_keypressed now kb)
                  Hcorr Hmouse Hlen) as [[kb' rest] Hr].
      destruct (read_loop_stops _ _ _ _ _ Hr)
        as (consumed & Hc & Hrun & Hne & Hstop & Hpre).
      exists kb', consumed, rest.
      split; [exact Hr|]. split; [exact Hc|]. split; [exact Hrun|].
      split; [intros _; exact Hne|]. split; [exact Hstop|exact Hpre].
    + exists kb, [], input.
      split; [reflexivity|]. split; [reflexivity|]. split; [reflexivity|].
      split; [intros Hlt; lia|]. split; [intros _; exact Hfull|].
      intros p q E Hp _. destruct p; [contradiction|discriminate E].
Qed.

End Properties.

(** * The decoder on the sample data *)

Section SampleRuns.

#[local] Existing Instance Sample.header.
#[local] Existing Instance Sample.host.

(** ** The readiness check with input already pending *)

Lemma isKeyPressed_pending_no_poll_witness :
  let kb := set_has_pending_input true (Sample.keyboard [] false false []) in
  let io := mkStdin [true] [] in
  has_pending_input kb = true
  /\ isKeyPressed 100000 0 kb io = (false, kb, io).
Proof.
  split; [reflexivity|].
  apply isKeyPressed_pending_no_poll. reflexivity.
Defined.

(** Input is known to be pending and the descriptor is ready, yet the
    check does not return true. *)
Lemma isKeyPressed_pending_counterexample :
  let kb := set_has_pending_input true (Sample.keyboard [] false false []) in
  let io := mkStdin [true] [] in
  has_pending_input kb = true
  /\ fst (fst (isKeyPressed 100000 0 kb io)) <> true.
Proof. split; [reflexivity|]. vm_compute. discriminate. Qed.

(** ** The queue at capacity *)

Lemma fetchKeyCode_back_pressure_witness :
  let kb := Sample.keyboard [] false false
              (replicate (MAX_QUEUE_SIZE - 1) 65) in
  let input := [(chr "a", 10); (chr "b", 20)] in
  (((MAX_QUEUE_SIZE <= length (fkey_queue kb))%nat ->
    forall fuel, fetchKeyCode fuel 0 input kb = Some (kb, input))
   /\ exists kb' consumed rest,
       fetchKeyCode (FIFO_BUF_SIZE + 2) 0 input kb = Some (kb', rest)
       /\ input = consumed ++ rest
       /\ fetchKeyCode (FIFO_BUF_SIZE + 2) 0 consumed kb = Some (kb', [])
       /\ ((length (fkey_queue kb) < MAX_QUEUE_SIZE)%nat ->
           input <> [] -> consumed <> [])
       /\ (rest <> [] -> (MAX_QUEUE_SIZE <= length (fkey_queue kb'))%nat)
       /\ (forall p q, consumed = p ++ q -> p <> [] -> q <> [] ->
           exists kp,
             fetchKeyCode (FIFO_BUF_SIZE + 2) 0 p kb = Some (kp, [])
             /\ (length (fkey_queue kp) < MAX_QUEUE_SIZE)%nat))
  /\ (length (fkey_queue kb) <? MAX_QUEUE_SIZE)%nat = true
  /\ option_map snd (fetchKeyCode (FIFO_BUF_SIZE + 2) 0 input kb)
     = Some [(chr "b", 20)]
  /\ option_map (fun r => length (fkey_queue (fst r)))
       (fetchKeyCode (FIFO_BUF_SIZE + 2) 0 input kb)
     = Some MAX_QUEUE_SIZE.
Proof.
  intros kb input. split.
  - exact (fetchKeyCode_back_pressure 0 input kb
             (fun k _ => eq_refl) (fun kb0 => eq_refl) eq_refl).
  - split; [vm_compute; reflexivity|].
    split; vm_compute; reflexivity.
Defined.

(** With the queue holding exactly [MAX_QUEUE_SIZE] keys and the buffer
    holding [ESC '['] past the timeout, [substringKeyHandling] enqueues
    one more key. *)
Lemma queue_capacity_counterexample :
  let kb := Sample.keyboard [0x1b; chr "["] false false
              (replicate MAX_QUEUE_SIZE 65) in
  length (fkey_queue kb) = MAX_QUEUE_SIZE
  /\ length (fkey_queue (substringKeyHandling 200000 kb))
     = S MAX_QUEUE_SIZE.
Proof.
  intros kb.
  destruct (substringKeyHandling_fires 200000 kb
              (chr "[") FKey.Meta_left_square_bracket
              (or_intror (or_introl eq_refl))
              eq_refl eq_refl eq_refl eq_refl eq_refl eq_refl)
    as (Hq & _).
  rewrite Hq, length_app.
  change (fkey_queue kb) with (replicate MAX_QUEUE_SIZE 65).
  rewrite length_replicate. split; [reflexivity|].
  change (length [FKey.Meta_left_square_bracket]) with 1%nat. lia.
Qed.

(** ** The remaps *)

Lemma remap_single_key_only_witness :
  let kb := Sample.keyboard [127] false false [] in
  let table := [mkKeyMap 127 [0x1b; chr "X"] 2] in
  let kbx := Sample.keyboard [0x1b; chr "X"] false false [] in
  FKey.Ctrl_space <> 127
  /\ fst (getSingleKey 0 kb) = FKey.Backspace
  /\ fst (@getKnownKey (Sample.header_with table) 0 kbx) = 127.
Proof.
  intros kb table kbx.
  assert (Hc : FKey.Ctrl_space <> 127) by (vm_compute; discriminate).
  split; [exact Hc|]. split.
  - apply (proj1 (remap_single_key_only 0 kb Hc)); reflexivity.
  - pose proof (@remap_single_key_only (Sample.header_with table) 0 kbx Hc)
      as T.
    cbv zeta in T. destruct T as (_ & _ & Hk & _).
    apply (proj1 (Hk (mkKeyMap 127 [0x1b; chr "X"] 2) eq_refl)).
    intros (_ & [E|[E|E]] & _); discriminate E.
Defined.

(** A generic table with an entry whose key identifier is 127: the
    lookup returns 127, not [Backspace]. *)
Lemma table_lookup_remap_counterexample :
  let table := [mkKeyMap 127 [0x1b; chr "X"] 2] in
  let kb := Sample.keyboard [0x1b; chr "X"] false false [] in
  fst (@getKnownKey (Sample.header_with table) 0 kb) = 127
  /\ fst (@parseKeyString (Sample.header_with table) 0 kb) = 127
  /\ fst (@parseKeyString (Sample.header_with table) 0 kb)
     <> @FKey.Backspace (Sample.header_with table).
Proof.
  split; [vm_compute; reflexivity|].
  split; [vm_compute; reflexivity|]. vm_compute. discriminate.
Qed.

(** ** Malformed bytes *)

Lemma UTF8decode_invalid_last_byte_witness :
  0 <= 0xff < 256 /\ utf8_invalid_byte 0xff = true
  /\ UTF8decode [0xc3; 0xff] = NOT_SET.
Proof.
  assert (Hb : 0 <= 0xff < 256) by lia.
  assert (Hi : utf8_invalid_byte 0xff = true) by reflexivity.
  split; [exact Hb|]. split; [exact Hi|].
  apply (proj1 (UTF8decode_invalid_last_byte [0xc3; 0xff] 0xff Hb Hi)).
  reflexivity.
Defined.

(** A string whose fifth byte has none of the five patterns: the decoder
    stops after four bytes and returns the fourth. *)
Lemma UTF8decode_invalid_byte_counterexample :
  let utf8 := [0x41; 0x41; 0x41; 0x41; 0xff] in
  Exists (fun ch => utf8_invalid_byte ch = true) utf8
  /\ UTF8decode utf8 = 0x41
  /\ UTF8decode utf8 <> NOT_SET.
Proof.
  split.
  - do 4 apply Exists_cons_tl. apply Exists_cons_hd. reflexivity.
  - split; [reflexivity|]. vm_compute. discriminate.
Qed.

(** ** Mouse reports *)

Lemma getMouseProtocolKey_spec_witness :
  let kb := Sample.keyboard [0x1b; chr "["; chr "M"; 32; 33; 33]
              false true [] in
  mouse_support kb = true
  /\ getMouseProtocolKey kb = FKey.X11mouse
  /\ parseKeyString 0 kb = (FKey.X11mouse, kb).
Proof.
  intros kb.
  assert (Hnd : NoDup [FKey.X11mouse; FKey.Extended_mouse;
                       FKey.Urxvt_mouse; NOT_SET]).
  { apply NoDup_cons. split;
      [rewrite !not_elem_of_cons; repeat split;
       try (vm_compute; discriminate); apply not_elem_of_nil|].
    apply NoDup_cons. split;
      [rewrite !not_elem_of_cons; repeat split;
       try (vm_compute; discriminate); apply not_elem_of_nil|].
    apply NoDup_cons. split;
      [rewrite !not_elem_of_cons; repeat split;
       try (vm_compute; discriminate); apply not_elem_of_nil|].
    apply NoDup_singleton. }
  destruct (getMouseProtocolKey_spec 0 kb Hnd eq_refl)
    as (Hx & _ & _ & _ & Hp).
  assert (E : getMouseProtocolKey kb = FKey.X11mouse).
  { apply Hx. repeat split; try reflexivity. }
  split; [reflexivity|]. split; [exact E|].
  rewrite <- E. apply Hp; [reflexivity|].
  rewrite E. vm_compute. discriminate.
Defined.

(** ** Table lookup *)

Lemma getKnownKey_exact_match_witness :
  let kb := Sample.keyboard [0x1b; chr "["; chr "D"] false false [] in
  let e := mkKeyMap Sample.Key_Left [0x1b; chr "["; chr "D"] 3 in
  find (known_key_matches kb) FKey.getKeyMap = Some e
  /\ getKnownKey 0 kb = (num e, consumeFront 3 kb).
Proof.
  intros kb e.
  assert (Hf : find (known_key_matches kb) FKey.getKeyMap = Some e)
    by reflexivity.
  split; [exact Hf|].
  destruct (getKnownKey_exact_match 0 kb e Hf) as (_ & _ & H).
  apply H. intros [[Hl _] _]. discriminate Hl.
Defined.

(** ** UTF-8 round trip *)

Lemma UTF8decode_encode_roundtrip_witness :
  0x80 <= 0x20ac <= 0x10FFFF
  /\ (2 <= length (utf8_encode 0x20ac) <= 4)%nat
  /\ UTF8decode (utf8_encode 0x20ac) = 0x20ac.
Proof.
  assert (H : 0x80 <= 0x20ac <= 0x10FFFF) by lia.
  split; [exact H|]. exact (UTF8decode_encode_roundtrip 0x20ac H).
Defined.

(** ** Meta keys *)

(** [ESC '[' 'D'] arriving byte by byte before the timeout: one key, the
    arrow key, and an empty buffer. *)
Example left_arrow_before_timeout :
  exists kb,
    parseKeyBuffer 600 0 [(0x1b, 10); (chr "[", 20); (chr "D", 30)]
      (Sample.keyboard [] false false []) = Some (kb, [])
    /\ fkey_queue kb = [Sample.Key_Left]
    /\ fifo_offset kb = 0%nat.
Proof. eexists. split; [vm_compute; reflexivity|]. split; reflexivity. Qed.

(** [ESC '[' 'A'] with mouse reporting off: one key, the up arrow, and
    an empty buffer. *)
Example up_arrow :
  exists kb,
    parseKeyBuffer 600 0 [(0x1b, 10); (chr "[", 20); (chr "A", 30)]
      (Sample.keyboard [] false false []) = Some (kb, [])
    /\ fkey_queue kb = [Sample.Key_Up]
    /\ fifo_offset kb = 0%nat
    /\ take 3 (fifo_buf kb) = [0; 0; 0].
Proof.
  eexists. split; [vm_compute; reflexivity|]. repeat split; reflexivity.
Qed.

(** After Meta-[ the byte ['['] is still at index 1 of the buffer: the
    key [x] typed next is followed by a key ['[']. *)
Example key_after_meta :
  let kb := substringKeyHandling 200000
              (Sample.keyboard [0x1b; chr "["] false false []) in
  take 3 (fifo_buf kb) = [0; chr "["; 0]
  /\ exists kb',
      parseKeyBuffer 600 250000 [(chr "x", 250010)] kb = Some (kb', [])
      /\ fkey_queue kb'
         = [FKey.Meta_left_square_bracket; chr "x"; chr "["].
Proof.
  split; [reflexivity|].
  eexists. split; [vm_compute; reflexivity|]. reflexivity.
Qed.

(** ** Consuming a token *)



(** ** The classifier and [NOT_SET] *)

Lemma parseKeyString_NOT_SET_origin_witness :
  let kb := Sample.keyboard [0xff] true false [] in
  fst (parseKeyString 0 kb) = NOT_SET /\ utf8_input kb = true.
Proof.
  intros kb.
  assert (Hres : fst (parseKeyString 0 kb) = NOT_SET) by reflexivity.
  split; [exact Hres|].
  refine (proj1 (parseKeyString_NOT_SET_origin 0 kb _ _ _ _ _ Hres)).
  - vm_compute. discriminate.
  - vm_compute. discriminate.
  - vm_compute. discriminate.
  - vm_compute. intros [_ H]. discriminate H.
  - change (Forall (fun c => 0 <= c < 256) ([0xff] ++ replicate 511 0)).
    apply Forall_app. split.
    + apply Forall_cons. split; [lia|apply Forall_nil_2].
    + apply Forall_replicate. lia.
Defined.

(** A buffer holding the single byte 0xFF, UTF-8 input enabled: the
    classifier returns [NOT_SET], which is neither [Incomplete] nor a
    key. *)
Lemma parseKeyString_NOT_SET_counterexample :
  let kb := Sample.keyboard [0xff] true false [] in
  fifo_offset kb = 1%nat
  /\ fst (parseKeyString 0 kb) = NOT_SET
  /\ NOT_SET <> FKey.Incomplete.
Proof.
  split; [reflexivity|]. split; [reflexivity|]. vm_compute. discriminate.
Qed.

End SampleRuns.

(** * Further properties of the decoder *)

Section Further.

Context {hdr : FKey.Header} {host : Host}.

(** ** Clearing the buffer *)

Lemma fill_loop_all (buf : list Z) :
  length buf = FIFO_BUF_SIZE -> fill_loop 0 buf = replicate FIFO_BUF_SIZE 0.
Proof.
  intros Hlen. unfold fill_loop. rewrite Nat.sub_0_r.
  rewrite fill_loop_prefix by lia. simpl.
  rewrite drop_ge by lia. apply app_nil_r.
Qed.

Lemma at_replicate_0 (n i : nat) : at_ (replicate n 0) i = 0.
Proof.
  unfold at_. destruct (replicate n 0 !! i) as [x|] eqn:E; [|reflexivity].
  apply lookup_replicate in E as [-> _]. reflexivity.
Qed.

Lemma stringLength_head_0 (buf : list Z) :
  at_ buf 0 = 0 -> stringLength buf = O.
Proof.
  destruct buf as [|c buf]; [reflexivity|]. unfold at_. simpl.
  intros ->. reflexivity.
Qed.

(** X1. [clearKeyBuffer] on a buffer of the declared size leaves every
    byte NUL, the offset 0, the buffer not in use and both current keys
    [None]; it touches neither the queue nor the unprocessed-data flag.
    Clearing twice is clearing once, and on the cleared keyboard
    [escapeKeyHandling] does nothing, at any time. *)
Theorem clearKeyBuffer_clears (kb : FKeyboard) :
  length (fifo_buf kb) = FIFO_BUF_SIZE ->
  let kb' := clearKeyBuffer kb in
  fifo_buf kb' = replicate FIFO_BUF_SIZE 0
  /\ fifo_offset kb' = 0%nat /\ fifo_in_use kb' = false
  /\ fkey kb' = FKey.None /\ key kb' = FKey.None
  /\ fkey_queue kb' = fkey_queue kb
  /\ unprocessed_buffer_data kb' = unprocessed_buffer_data kb
  /\ clearKeyBuffer kb' = kb'
  /\ forall now, escapeKeyHandling now kb' = kb'.
Proof.
  intros Hlen kb'.
  assert (Hbuf : fifo_buf kb' = replicate FIFO_BUF_SIZE 0).
  { unfold kb', clearKeyBuffer. simpl. apply fill_loop_all. exact Hlen. }
  repeat split; try reflexivity; try exact Hbuf.
  unfold clearKeyBuffer at 1.
    cbn [set_fifo_in_use set_fifo_buf set_key set_fkey set_fifo_offset
         fkey key fifo_buf fifo_offset has_pending_input fifo_in_use
         unprocessed_buffer_data utf8_input mouse_support fkey_queue
         key_cap_ptr key_timeout read_blocking_time_short
         non_blocking_input_support time_keypressed].
    rewrite Hbuf, fill_loop_all by apply length_replicate.
    unfold kb', clearKeyBuffer.
    cbn [set_fifo_in_use set_fifo_buf set_key set_fkey set_fifo_offset
         fkey key fifo_buf fifo_offset has_pending_input fifo_in_use
         unprocessed_buffer_data utf8_input mouse_support fkey_queue
         key_cap_ptr key_timeout read_blocking_time_short
         non_blocking_input_support time_keypressed].
    rewrite fill_loop_all by exact Hlen. reflexivity.
Qed.

(** ** The lone Escape key *)

(** X2. Before the key timeout has elapsed [escapeKeyHandling] does
    nothing: no command runs and no key is enqueued, whatever the buffer
    holds. *)
Theorem escapeKeyHandling_before_timeout (now : Z) (kb : FKeyboard) :
  isKeypressTimeout now kb = false -> escapeKeyHandling now kb = kb.
Proof.
  intros Ht. unfold escapeKeyHandling, substringKeyHandling.
  rewrite Ht, !andb_false_r. rewrite Ht, !andb_false_r. reflexivity.
Qed.

(** X3. A buffer in use that holds the single byte ESC, followed by NUL,
    past the timeout: [escape_key_cmd] runs, once, on a keyboard whose
    buffer reads as empty (offset 0, first byte NUL, not in use, no
    unprocessed data) and whose queue is as it was; when the command
    leaves the buffer out of use, nothing else happens: the keyboard
    itself enqueues no key. *)
Theorem escapeKeyHandling_lone_escape (now : Z) (kb : FKeyboard) :
  fifo_in_use kb = true -> fifo_offset kb = 1%nat ->
  at_ (fifo_buf kb) 0 = 0x1b -> at_ (fifo_buf kb) 1 = 0 ->
  isKeypressTimeout now kb = true ->
  exists kb0,
    fifo_offset kb0 = 0%nat /\ fifo_in_use kb0 = false
    /\ unprocessed_buffer_data kb0 = false
    /\ fifo_buf kb0 = <[0%nat := 0]> (fifo_buf kb)
    /\ stringLength (fifo_buf kb0) = 0%nat
    /\ fkey_queue kb0 = fkey_queue kb
    /\ escapeKeyHandling now kb = substringKeyHandling now (escape_key_cmd kb0)
    /\ (fifo_in_use (escape_key_cmd kb0) = false ->
        escapeKeyHandling now kb = escape_key_cmd kb0).
Proof.
  intros Huse Hoff H0 H1 Ht.
  set (kb0 := set_unprocessed_buffer_data false
                (set_fifo_in_use false
                   (set_fifo_buf (<[0%nat := 0]> (fifo_buf kb))
                      (set_fifo_offset 0 kb)))).
  assert (Heq : escapeKeyHandling now kb
                = substringKeyHandling now (escape_key_cmd kb0)).
  { unfold escapeKeyHandling. rewrite Huse, Hoff, H0, H1, Ht. reflexivity. }
  exists kb0. repeat split; try reflexivity; try exact Heq.
  - simpl. destruct (fifo_buf kb) as [|c b]; reflexivity.
  - intros Hq. rewrite Heq. unfold substringKeyHandling. rewrite Hq.
    reflexivity.
Qed.

(** X4. When [substringKeyHandling] emits a Meta key it zeroes byte 0
    only: the buffer then reads as an empty string with offset 0, but
    the second byte of the prefix is still stored at index 1. *)
Theorem substringKeyHandling_keeps_second_byte (now : Z) (kb : FKeyboard)
  (c : Z) (meta : FKey) :
  In (c, meta) [ (chr "O", FKey.Meta_O);
                 (chr "[", FKey.Meta_left_square_bracket);
                 (chr "]", FKey.Meta_right_square_bracket) ] ->
  fifo_in_use kb = true -> fifo_offset kb = 2%nat ->
  at_ (fifo_buf kb) 0 = 0x1b -> at_ (fifo_buf kb) 1 = c ->
  at_ (fifo_buf kb) 2 = 0 ->
  isKeypressTimeout now kb = true ->
  let kb' := substringKeyHandling now kb in
  fifo_offset kb' = 0%nat
  /\ stringLength (fifo_buf kb') = 0%nat
  /\ at_ (fifo_buf kb') 1 = c
  /\ c <> 0.
Proof.
  intros Hin Huse Hoff H0 H1 H2 Ht kb'.
  destruct (substringKeyHandling_fires now kb c meta Hin Huse Hoff
              H0 H1 H2 Ht) as (_ & Ho & _ & _ & Hb).
  fold kb' in Ho, Hb. split; [exact Ho|]. rewrite Hb.
  split; [destruct (fifo_buf kb); reflexivity|].
  split; [rewrite at_insert_ne by lia; exact H1|].
  simpl in Hin. destruct Hin as [E|[E|[E|[]]]]; injection E as <- _;
    vm_compute; discriminate.
Qed.

(** ** Table lookups *)

Lemma drop_zero_tail (buf : list Z) (n : nat) :
  (forall i, (n <= i)%nat -> at_ buf i = 0) ->
  drop n buf = replicate (length buf - n) 0.
Proof.
  intros Hz. apply list_eq. intros i. rewrite lookup_drop.
  destruct (decide (i < length buf - n)%nat) as [Hlt|Hge].
  - rewrite lookup_replicate_2 by exact Hlt.
    destruct (lookup_lt_is_Some_2 buf (n + i)%nat ltac:(lia)) as [x Hx].
    rewrite Hx. f_equal. rewrite <- (at_lookup _ _ _ Hx). apply Hz. lia.
  - rewrite lookup_ge_None_2 by lia. symmetry.
    apply lookup_ge_None_2. rewrite length_replicate. lia.
Qed.

(** Taking a token as long as the offset from a buffer whose tail is NUL
    leaves nothing. *)
Lemma consumeFront_drains (kb : FKeyboard) :
  buffer_in_bounds kb -> zero_tail kb ->
  fifo_buf (consumeFront (fifo_offset kb) kb) = replicate FIFO_BUF_SIZE 0
  /\ unprocessed_buffer_data (consumeFront (fifo_offset kb) kb) = false.
Proof.
  intros [Hlen Hoff] Hz.
  assert (Hb : fifo_buf (consumeFront (fifo_offset kb) kb)
               = replicate FIFO_BUF_SIZE 0).
  { simpl. rewrite consume_buf_shift by assumption.
    rewrite (drop_zero_tail _ _ Hz), Hlen, <- replicate_add.
    f_equal. lia. }
  split; [exact Hb|].
  change (negb (at_ (fifo_buf (consumeFront (fifo_offset kb) kb)) 0 =? 0)
          = false).
  rewrite Hb, at_replicate_0. reflexivity.
Qed.

(** X5. [getTermcapKey] without a platform table, or with one that
    holds no match, returns [NOT_SET] and changes nothing. An entry it
    finds is as long as the buffered data and never empty, so an empty
    buffer matches nothing; its key is returned as stored, and on a
    buffer within bounds whose tail is NUL the whole buffer is drained:
    every byte NUL, no unprocessed data. *)
Theorem getTermcapKey_lookup (kb : FKeyboard) :
  (key_cap_ptr kb = Datatypes.None -> getTermcapKey kb = (NOT_SET, kb))
  /\ (forall caps,
         key_cap_ptr kb = Some caps ->
         find (cap_key_matches kb) caps = Datatypes.None ->
         getTermcapKey kb = (NOT_SET, kb))
  /\ (forall caps found_key,
         key_cap_ptr kb = Some caps ->
         find (cap_key_matches kb) caps = Some found_key ->
         In found_key caps
         /\ klength found_key = fifo_offset kb
         /\ (1 <= fifo_offset kb)%nat
         /\ getTermcapKey kb
            = (num found_key, consumeFront (fifo_offset kb) kb)
         /\ (buffer_in_bounds kb -> zero_tail kb ->
             fifo_buf (snd (getTermcapKey kb)) = replicate FIFO_BUF_SIZE 0
             /\ unprocessed_buffer_data (snd (getTermcapKey kb)) = false)).
Proof.
  split; [|split].
  - intros Hp. unfold getTermcapKey. rewrite Hp. reflexivity.
  - intros caps Hp Hf. unfold getTermcapKey. rewrite Hp, Hf. reflexivity.
  - intros caps e Hp Hf.
    assert (Hg : getTermcapKey kb = (num e, consumeFront (klength e) kb)).
    { unfold getTermcapKey. rewrite Hp, Hf. reflexivity. }
    apply find_some in Hf as [Hin Hm]. unfold cap_key_matches in Hm.
    destruct (Nat.eqb_spec (klength e) 0) as [|H0]; [discriminate|].
    destruct (Nat.eqb_spec (klength e) (fifo_offset kb)) as [Hl|];
      [|discriminate].
    rewrite Hg, Hl. repeat split; try assumption; try lia.
    + apply consumeFront_drains; assumption.
    + apply consumeFront_drains; assumption.
Qed.

(** X6. A buffer within bounds that starts with ESC, has a NUL tail, is
    no mouse report and matches no platform entry, and for which the
    generic table holds a match whose key is not [NOT_SET]: unless the
    match is two bytes long with the timeout still running, the
    classifier returns the entry's key and drains the buffer
    completely. *)
Theorem parseKeyString_known_key_drains (now : Z) (kb : FKeyboard)
  (found_key : KeyMap) :
  buffer_in_bounds kb -> zero_tail kb ->
  at_ (fifo_buf kb) 0 = ESC0 ->
  getMouseProtocolKey kb = NOT_SET ->
  getTermcapKey kb = (NOT_SET, kb) ->
  find (known_key_matches kb) FKey.getKeyMap = Some found_key ->
  num found_key <> NOT_SET ->
  klength found_key <> 2%nat \/ isKeypressTimeout now kb = true ->
  fst (parseKeyString now kb) = num found_key
  /\ fifo_buf (snd (parseKeyString now kb)) = replicate FIFO_BUF_SIZE 0
  /\ unprocessed_buffer_data (snd (parseKeyString now kb)) = false
  /\ stringLength (fifo_buf (snd (parseKeyString now kb))) = 0%nat.
Proof.
  intros Hb Hz H0 Hm Ht Hf Hn Hc.
  assert (Hk : getKnownKey now kb
               = (num found_key, consumeFront (fifo_offset kb) kb)).
  { rewrite (getKnownKey_found _ _ _ Hf).
    apply find_some in Hf as [_ Hmatch]. unfold known_key_matches in Hmatch.
    destruct (Nat.eqb_spec (klength found_key) (fifo_offset kb)) as [Hl|];
      [|discriminate].
    rewrite <- Hl.
    destruct Hc as [Hc|Hc].
    - destruct (Nat.eqb_spec (klength found_key) 2) as [|_];
        [contradiction|reflexivity].
    - rewrite Hc, andb_false_r. reflexivity. }
  assert (Hp : parseKeyString now kb
               = (num found_key, consumeFront (fifo_offset kb) kb)).
  { unfold parseKeyString. rewrite H0, Z.eqb_refl, Hm, Z.eqb_refl. simpl.
    rewrite Ht, Z.eqb_refl. simpl. rewrite Hk.
    destruct (Z.eqb_spec (num found_key) NOT_SET);
      [contradiction|reflexivity]. }
  rewrite Hp. simpl fst. simpl snd.
  destruct (consumeFront_drains kb Hb Hz) as [Hbuf Hflag].
  split; [reflexivity|]. split; [exact Hbuf|]. split; [exact Hflag|].
  rewrite Hbuf. apply stringLength_head_0. apply at_replicate_0.
Qed.

(** X7. A buffer that starts with ESC and is neither a mouse report nor
    a match of either table: before the timeout the classifier answers
    [Incomplete] and changes nothing; once the timeout has elapsed it
    gives up on the sequence, returns the ESC byte itself as the key
    and takes that one byte from the buffer. *)
Theorem parseKeyString_unknown_escape (now : Z) (kb : FKeyboard) :
  at_ (fifo_buf kb) 0 = ESC0 ->
  getMouseProtocolKey kb = NOT_SET ->
  getTermcapKey kb = (NOT_SET, kb) ->
  find (known_key_matches kb) FKey.getKeyMap = Datatypes.None ->
  (isKeypressTimeout now kb = false ->
   parseKeyString now kb = (FKey.Incomplete, kb))
  /\ (isKeypressTimeout now kb = true ->
      parseKeyString now kb = (ESC0, consumeFront 1 kb)).
Proof.
  intros H0 Hm Ht Hf.
  assert (Hk : getKnownKey now kb = (NOT_SET, kb)).
  { unfold getKnownKey. rewrite Hf. reflexivity. }
  assert (Hp : parseKeyString now kb
               = if negb (isKeypressTimeout now kb)
                 then (FKey.Incomplete, kb) else getSingleKey now kb).
  { unfold parseKeyString. rewrite H0, Z.eqb_refl, Hm, Z.eqb_refl. simpl.
    rewrite Ht, Z.eqb_refl. simpl. rewrite Hk, Z.eqb_refl. reflexivity. }
  split; intros Hto; rewrite Hp, Hto; [reflexivity|]. simpl.
  unfold getSingleKey. rewrite H0. simpl. rewrite andb_false_r. reflexivity.
Qed.

(** ** Mouse reports *)

(** X8. With mouse reporting off, or with fewer than six bytes
    buffered, [getMouseProtocolKey] reports no mouse sequence. *)
Theorem getMouseProtocolKey_none (kb : FKeyboard) :
  mouse_support kb = false \/ (fifo_offset kb < 6)%nat ->
  getMouseProtocolKey kb = NOT_SET.
Proof.
  intros [Hm|Hlen]; unfold getMouseProtocolKey.
  - rewrite Hm. reflexivity.
  - destruct (mouse_support kb); [|reflexivity]. cbn [negb].
    destruct (Nat.leb_spec 6 (fifo_offset kb)) as [|_]; [lia|].
    destruct (Nat.leb_spec 9 (fifo_offset kb)) as [|_]; [lia|].
    repeat (rewrite ?andb_false_r; cbn [andb]). reflexivity.
Qed.

(** ** The UTF-8 decoder *)

Lemma step_restart (ucs ucs' ch : Z) :
  Z.land ch 0xc0 <> 0x80 ->
  UTF8decode_step ucs ch = UTF8decode_step ucs' ch.
Proof.
  intros H. unfold UTF8decode_step.
  destruct (Z.eqb_spec (Z.land ch 192) 128); [contradiction|reflexivity].
Qed.

(** X9. A byte that is no continuation byte restarts the decoder: of a
    string of at most four bytes, everything before such a byte has no
    influence on the result. *)
Theorem UTF8decode_restarts (pre : list Z) (ch : Z) (rest : list Z) :
  Z.land ch 0xc0 <> 0x80 ->
  (length (pre ++ ch :: rest) <= 4)%nat ->
  UTF8decode (pre ++ ch :: rest) = UTF8decode (ch :: rest).
Proof.
  intros Hc Hlen. unfold UTF8decode.
  rewrite length_app in Hlen. simpl in Hlen.
  rewrite !take_ge by (rewrite ?length_app; simpl; lia).
  rewrite fold_left_app. simpl.
  rewrite (step_restart _ FKey.None ch Hc). reflexivity.
Qed.

(** ** Taking tokens in sequence *)

(** X10. Taking a token of [a] bytes and then one of [b] bytes from a
    buffer of the declared size is taking one token of [a + b] bytes:
    same buffer, same flag. *)
Theorem consumeFront_compose (a b : nat) (kb : FKeyboard) :
  length (fifo_buf kb) = FIFO_BUF_SIZE -> (a + b <= FIFO_BUF_SIZE)%nat ->
  consumeFront b (consumeFront a kb) = consumeFront (a + b) kb.
Proof.
  intros Hlen Hab.
  assert (Hbuf : consume_buf b (consume_buf a (fifo_buf kb))
                 = consume_buf (a + b) (fifo_buf kb)).
  { rewrite (consume_buf_shift a) by (try assumption; lia).
    rewrite (consume_buf_shift b).
    2:{ rewrite length_app, length_drop, length_replicate. lia. }
    2:{ lia. }
    rewrite (consume_buf_shift (a + b)) by assumption.
    rewrite drop_app_le by (rewrite length_drop; lia).
    rewrite drop_drop, <- app_assoc, <- replicate_add. reflexivity. }
  unfold consumeFront.
  cbn [set_unprocessed_buffer_data set_fifo_buf
       fkey key fifo_buf fifo_offset has_pending_input fifo_in_use
       unprocessed_buffer_data utf8_input mouse_support fkey_queue
       key_cap_ptr key_timeout read_blocking_time_short
       non_blocking_input_support time_keypressed].
  rewrite Hbuf. reflexivity.
Qed.

(** ** The readiness check *)

Lemma set_has_pending_input_same (kb : FKeyboard) :
  set_has_pending_input (has_pending_input kb) kb = kb.
Proof. destruct kb. reflexivity. Qed.

(** The five ways through [isKeyPressed]. *)
Lemma isKeyPressed_cases (blocking_time now : Z) (kb : FKeyboard)
  (io : Stdin) :
  let tv := if isKeypressTimeout now kb
               || negb (non_blocking_input_support kb)
            then blocking_time else read_blocking_time_short kb in
  let a1 := hd false (answers io) in
  let a2 := hd false (tl (answers io)) in
  isKeyPressed blocking_time now kb io
  = if has_pending_input kb then (false, kb, io)
    else if (0 <? blocking_time) && non_blocking_input_support kb
    then
      if a1
      then (true, set_has_pending_input true kb,
            mkStdin (tl (answers io)) (polls io ++ [0]))
      else (a2, if a2 then set_has_pending_input true kb else kb,
            mkStdin (tl (tl (answers io))) ((polls io ++ [0]) ++ [tv]))
    else (a1, if a1 then set_has_pending_input true kb else kb,
          mkStdin (tl (answers io)) (polls io ++ [tv])).
Proof.
  intros tv a1 a2. unfold isKeyPressed, a1, a2, tv.
  destruct (has_pending_input kb) eqn:Hp; [reflexivity|].
  destruct ((0 <? blocking_time) && non_blocking_input_support kb).
  - unfold select at 1. cbn [fst snd answers polls].
    destruct (hd false (answers io)); [reflexivity|].
    cbn [negb]. unfold select. cbn [answers polls].
    destruct (hd false (tl (answers io))); [reflexivity|].
    rewrite Hp. reflexivity.
  - cbn [negb]. unfold select.
    destruct (hd false (answers io)); [reflexivity|].
    rewrite Hp. reflexivity.
Qed.

(** X11. [isKeyPressed] changes nothing of the keyboard but
    [has_pending_input], which it never clears. A true result means the
    flag is set afterwards, and when the flag was clear the result is
    the flag. It calls [select] at most twice; with a positive blocking
    time, non-blocking support and the flag clear, the first call has
    timeout 0. *)
Theorem isKeyPressed_flag (blocking_time now : Z) (kb : FKeyboard)
  (io : Stdin) :
  let r := fst (fst (isKeyPressed blocking_time now kb io)) in
  let kb' := snd (fst (isKeyPressed blocking_time now kb io)) in
  let io' := snd (isKeyPressed blocking_time now kb io) in
  kb' = set_has_pending_input (has_pending_input kb') kb
  /\ (has_pending_input kb = true -> has_pending_input kb' = true)
  /\ (r = true -> has_pending_input kb' = true)
  /\ (has_pending_input kb = false -> r = has_pending_input kb')
  /\ exists new,
      polls io' = polls io ++ new /\ (length new <= 2)%nat
      /\ (has_pending_input kb = false -> 0 < blocking_time ->
          non_blocking_input_support kb = true -> hd_error new = Some 0).
Proof.
  intros r kb' io'. unfold r, kb', io'.
  rewrite isKeyPressed_cases.
  set (tv := if isKeypressTimeout now kb
                || negb (non_blocking_input_support kb)
             then blocking_time else read_blocking_time_short kb).
  clearbody tv.
  destruct kb as [f k buf off pending use unp utf8 mouse q cap kt rbs nbis tk].
  cbn [has_pending_input non_blocking_input_support].
  destruct pending.
  - cbn [fst snd has_pending_input set_has_pending_input].
    repeat (split; [first [reflexivity|discriminate]|]).
    exists []. rewrite app_nil_r.
    split; [reflexivity|]. split; [simpl; lia|discriminate].
  - destruct ((0 <? blocking_time) && nbis) eqn:Hc.
    + destruct (hd false (answers io));
        [|destruct (hd false (tl (answers io)))];
        cbn [fst snd polls has_pending_input set_has_pending_input];
        repeat (split; [first [reflexivity|discriminate]|]);
        eexists; (split; [rewrite <- ?app_assoc; reflexivity|]);
        (split; [simpl; lia|reflexivity]).
    + assert (Hno : 0 < blocking_time -> nbis = true -> False).
      { intros Hb Hn. rewrite Hn, andb_true_r in Hc.
        apply Z.ltb_ge in Hc. lia. }
      destruct (hd false (answers io));
        cbn [fst snd polls has_pending_input set_has_pending_input];
        repeat (split; [first [reflexivity|discriminate]|]);
        eexists; (split; [reflexivity|]); (split; [simpl; lia|]);
        intros _ Hb Hn; destruct (Hno Hb Hn).
Qed.

(** ** Blocking mode *)

(** X12. [setNonBlockingInput] returns the mode the keyboard then
    believes the descriptor to be in. Asked for the mode it already
    has, it calls nothing and changes nothing; otherwise it calls
    [fcntl] exactly once, with the flag bit set or cleared, and adopts
    the requested mode iff the call succeeds: on failure the believed
    mode stays, although the cached flags have been changed. *)
Theorem setNonBlockingInput_mode (O_NONBLOCK : Z) (enable : bool)
  (m : StdinMode) (os : Fcntl) :
  let r := fst (fst (setNonBlockingInput O_NONBLOCK enable m os)) in
  let m' := snd (fst (setNonBlockingInput O_NONBLOCK enable m os)) in
  let os' := snd (setNonBlockingInput O_NONBLOCK enable m os) in
  r = non_blocking_stdin m'
  /\ (enable = non_blocking_stdin m -> m' = m /\ os' = os)
  /\ (enable <> non_blocking_stdin m ->
      fcntl_calls os' = fcntl_calls os ++ [stdin_status_flags m']
      /\ stdin_status_flags m'
         = (if enable
            then Z.lor (stdin_status_flags m) O_NONBLOCK
            else Z.land (stdin_status_flags m) (Z.lnot O_NONBLOCK))
      /\ non_blocking_stdin m'
         = (if hd false (fcntl_results os) then enable
            else non_blocking_stdin m)).
Proof.
  unfold setNonBlockingInput, fcntl_setfl.
  destruct enable, (non_blocking_stdin m) eqn:Hn; simpl;
    repeat split; try reflexivity; try congruence;
    try (destruct (hd false (fcntl_results os)); reflexivity).
  all: try (intros; destruct m; simpl in *; congruence).
Qed.

Lemma land_lor_lnot (f o : Z) :
  Z.land (Z.lor f o) (Z.lnot o) = Z.land f (Z.lnot o).
Proof.
  rewrite Z.land_lor_distr_l, Z.land_lnot_diag, Z.lor_0_r. reflexivity.
Qed.

Lemma land_lnot_clear (f o : Z) :
  Z.land f o = 0 -> Z.land f (Z.lnot o) = f.
Proof.
  intros H. rewrite <- Z.ldiff_land.
  rewrite <- (Z.lor_ldiff_and f o) at 2. rewrite H, Z.lor_0_r. reflexivity.
Qed.

(** X13. Switching a blocking descriptor to non-blocking and back, both
    [fcntl] calls succeeding, as [readKey] does around its [read]: the
    keyboard believes it blocking again, the second call passes the
    original flags with the [O_NONBLOCK] bits cleared, and when those
    bits were clear to begin with the mode record is exactly as
    before. *)
Theorem setNonBlockingInput_round_trip (O_NONBLOCK : Z) (m : StdinMode)
  (results : list bool) (calls : list Z) :
  non_blocking_stdin m = false ->
  let os := mkFcntl (true :: true :: results) calls in
  let on := setNonBlockingInput O_NONBLOCK true m os in
  let off := setNonBlockingInput O_NONBLOCK false (snd (fst on)) (snd on) in
  fst (fst on) = true
  /\ fst (fst off) = false
  /\ non_blocking_stdin (snd (fst off)) = false
  /\ stdin_status_flags (snd (fst off))
     = Z.land (stdin_status_flags m) (Z.lnot O_NONBLOCK)
  /\ fcntl_calls (snd off)
     = calls ++ [Z.lor (stdin_status_flags m) O_NONBLOCK;
                 Z.land (stdin_status_flags m) (Z.lnot O_NONBLOCK)]
  /\ (Z.land (stdin_status_flags m) O_NONBLOCK = 0 -> snd (fst off) = m).
Proof.
  intros Hn os on off. unfold off, on, os, setNonBlockingInput, fcntl_setfl.
  rewrite Hn. simpl. rewrite land_lor_lnot, <- app_assoc.
  repeat split; try reflexivity.
  intros H0. rewrite (land_lnot_clear _ _ H0).
  destruct m. simpl in Hn. subst. reflexivity.
Qed.

(** ** Key names *)

(** X14. [getKeyName] gives a key found in the name table the name of
    its first entry there, an entry whose key is not [None]; a key
    without entry gets the one-character name of its own value when that
    lies in 33..126 and the empty name otherwise. The key [None] never
    matches an entry, so with [None] being 0 its name is empty whatever
    the table holds. *)
Theorem getKeyName_cases (fkeyname : list KeyName) (keynum : FKey) :
  (forall found_key,
      find (fun kn => negb (name_num kn =? FKey.None)
                      && (name_num kn =? keynum)) fkeyname = Some found_key ->
      In found_key fkeyname /\ name_num found_key = keynum
      /\ keynum <> FKey.None
      /\ getKeyName fkeyname keynum = name_string found_key)
  /\ ((forall kn, In kn fkeyname -> name_num kn <> keynum) ->
      (32 < keynum < 127 -> getKeyName fkeyname keynum = [keynum])
      /\ (~ 32 < keynum < 127 -> getKeyName fkeyname keynum = []))
  /\ (FKey.None = 0 -> getKeyName fkeyname FKey.None = []).
Proof.
  assert (Hnone : forall p : KeyName -> bool,
             (forall kn, In kn fkeyname -> p kn = false) ->
             find p fkeyname = Datatypes.None).
  { intros p Hp. destruct (find p fkeyname) as [kn|] eqn:E; [|reflexivity].
    apply find_some in E as [Hin Ht]. rewrite (Hp kn Hin) in Ht.
    discriminate. }
  split; [|split].
  - intros kn Hf. unfold getKeyName. rewrite Hf.
    apply find_some in Hf as [Hin Hm]. apply andb_prop in Hm as [Hn He].
    apply Z.eqb_eq in He. apply negb_true_iff, Z.eqb_neq in Hn.
    repeat split; try assumption. congruence.
  - intros Hno. unfold getKeyName. rewrite Hnone.
    2:{ intros kn Hin. apply andb_false_iff. right.
        apply Z.eqb_neq. apply Hno. exact Hin. }
    split; intros Hr.
    + destruct (Z.ltb_spec 32 keynum); [|lia].
      destruct (Z.ltb_spec keynum 127); [reflexivity|lia].
    + destruct (Z.ltb_spec 32 keynum); [|reflexivity].
      destruct (Z.ltb_spec keynum 127); [lia|reflexivity].
  - intros H0. unfold getKeyName. rewrite Hnone.
    2:{ intros kn Hin.
        destruct (Z.eqb_spec (name_num kn) FKey.None); reflexivity. }
    rewrite H0. reflexivity.
Qed.

(** ** What a read cycle keeps *)

Lemma getTermcapKey_kept (P : FKeyboard -> Prop) (kb : FKeyboard) :
  (forall len kb, P kb -> P (consumeFront len kb)) ->
  P kb -> P (snd (getTermcapKey kb)).
Proof.
  intros Hc HP. unfold getTermcapKey.
  destruct (key_cap_ptr kb) as [caps|]; [|exact HP].
  destruct (find (cap_key_matches kb) caps); [|exact HP].
  apply Hc. exact HP.
Qed.

Lemma getKnownKey_kept (P : FKeyboard -> Prop) (now : Z) (kb : FKeyboard) :
  (forall len kb, P kb -> P (consumeFront len kb)) ->
  P kb -> P (snd (getKnownKey now kb)).
Proof.
  intros Hc HP. unfold getKnownKey.
  destruct (find (known_key_matches kb) FKey.getKeyMap); [|exact HP].
  match goal with |- context [if ?c then _ else _] => destruct c end;
    [exact HP|]. apply Hc. exact HP.
Qed.

Lemma getSingleKey_kept (P : FKeyboard -> Prop) (now : Z) (kb : FKeyboard) :
  (forall len kb, P kb -> P (consumeFront len kb)) ->
  P kb -> P (snd (getSingleKey now kb)).
Proof.
  intros Hc HP. unfold getSingleKey.
  repeat match goal with
         | |- context [if ?c then _ else _] => destruct c
         end; try exact HP; apply Hc; exact HP.
Qed.

Lemma parseKeyString_kept (P : FKeyboard -> Prop) (now : Z) (kb : FKeyboard) :
  (forall len kb, P kb -> P (consumeFront len kb)) ->
  P kb -> P (snd (parseKeyString now kb)).
Proof.
  intros Hc HP. unfold parseKeyString.
  destruct (at_ (fifo_buf kb) 0 =? ESC0);
    [|apply getSingleKey_kept; assumption].
  destruct (negb (getMouseProtocolKey kb =? NOT_SET)); [exact HP|].
  pose proof (getTermcapKey_kept P kb Hc HP) as H1.
  destruct (getTermcapKey kb) as [k1 kb1]. simpl in H1.
  destruct (negb (k1 =? NOT_SET)); [exact H1|].
  pose proof (getKnownKey_kept P now kb1 Hc H1) as H2.
  destruct (getKnownKey now kb1) as [k2 kb2]. simpl in H2.
  destruct (negb (k2 =? NOT_SET)); [exact H2|].
  destruct (negb (isKeypressTimeout now kb2)); [exact H2|].
  apply getSingleKey_kept; assumption.
Qed.

Lemma resolve_loop_kept (P : FKeyboard -> Prop) (now : Z) :
  kept_by_cycle P ->
  forall fuel kb kb',
    P kb -> resolve_loop fuel now kb = Some kb' -> P kb'.
Proof.
  intros (_ & _ & _ & Hc & Hf & Hm & Hp).
  induction fuel as [|fuel IH]; intros kb kb' HP.
  - simpl. destruct ((0 <? fifo_offset kb)%nat
                     && negb (fkey kb =? FKey.Incomplete));
      [discriminate|]. intros E. injection E as <-. exact HP.
  - simpl. destruct ((0 <? fifo_offset kb)%nat
                     && negb (fkey kb =? FKey.Incomplete)).
    2:{ intros E. injection E as <-. exact HP. }
    pose proof (parseKeyString_kept P now kb Hc HP) as H1.
    destruct (parseKeyString now kb) as [k kb1]. simpl in H1.
    assert (H2 : P (set_fkey (keyCorrection (fkey (set_fkey k kb1)))
                      (set_fkey k kb1))).
    { apply Hf, Hf. exact H1. }
    match goal with |- context [if ?c then _ else _] => destruct c end.
    + intros E. injection E as <-. apply (Hm _ H2).
    + match goal with |- context [if ?c then _ else _] => destruct c end.
      * apply IH. apply (Hp _ H2).
      * apply IH. exact H2.
Qed.

Lemma read_loop_kept (P : FKeyboard -> Prop) :
  kept_by_cycle P ->
  forall fuel input kb r,
    P kb -> read_loop fuel input kb = Some r -> P (fst r).
Proof.
  intros HK. pose proof HK as (_ & Hh & Ha & _ & Hf & _ & _).
  intros fuel. induction input as [|[c now] input IH]; intros kb r HP.
  - simpl. intros E. injection E as <-. exact HP.
  - cbn [read_loop].
    match goal with
    | |- context [resolve_loop fuel now ?k] =>
        assert (H1 : P k);
        [|destruct (resolve_loop fuel now k) as [kb1|] eqn:Er;
          [|discriminate]]
    end.
    { destruct (Nat.leb_spec (1 + fifo_offset (set_has_pending_input false kb))
                  FIFO_BUF_SIZE) as [Hle|_].
      - apply (Ha c _ (Hh _ HP)). exact Hle.
      - apply Hh. exact HP. }
    pose proof (resolve_loop_kept P now HK _ _ _ H1 Er) as H2.
    match goal with |- context [if ?c then _ else _] => destruct c end.
    + intros E. injection E as <-. apply Hf. exact H2.
    + apply IH. apply Hf. exact H2.
Qed.

Lemma parseKeyBuffer_kept (P : FKeyboard -> Prop) :
  kept_by_cycle P ->
  forall fuel now input kb r,
    P kb -> parseKeyBuffer fuel now input kb = Some r -> P (fst r).
Proof.
  intros HK fuel now input kb r HP. unfold parseKeyBuffer.
  apply (read_loop_kept P HK). destruct HK as (Ht & _). apply Ht. exact HP.
Qed.

(** A NUL at index [i] bounds the length of the string. *)
Lemma stringLength_le_nul (buf : list Z) (i : nat) :
  at_ buf i = 0 -> (stringLength buf <= i)%nat.
Proof.
  revert i. induction buf as [|c buf IH]; intros i Hi; simpl; [lia|].
  destruct (Z.eqb_spec c 0) as [_|Hc]; [lia|].
  destruct i as [|i]; [contradiction|].
  apply le_n_S. apply IH. exact Hi.
Qed.

(** X15. The offset recomputed after a pushed key lies within the
    array. Whenever the classifier, called as the inner loop of
    [parseKeyBuffer] calls it (buffer of the declared size, offset
    above 0), returns a key that the loop goes on to push, that is one
    the key correction turns into neither [Incomplete] nor a mouse
    identifier, it has taken at least one byte from the buffer front: the
    last byte of the buffer is NUL, whatever the buffer held before, a
    full array of non-NUL bytes included. The scan for the first NUL that
    follows the push therefore ends inside the array, and the new offset
    is below [FIFO_BUF_SIZE]. The key correction is assumed to leave
    [Incomplete] and the mouse identifiers alone. *)
Theorem parseKeyString_pushed_key_leaves_nul (now : Z) (kb : FKeyboard) :
  (forall k, ends_resolving k -> keyCorrection k = k) ->
  (1 <= FIFO_BUF_SIZE)%nat ->
  length (fifo_buf kb) = FIFO_BUF_SIZE -> (0 < fifo_offset kb)%nat ->
  ~ ends_resolving (keyCorrection (fst (parseKeyString now kb))) ->
  let buf' := fifo_buf (snd (parseKeyString now kb)) in
  length buf' = FIFO_BUF_SIZE
  /\ at_ buf' (FIFO_BUF_SIZE - 1) = 0
  /\ In 0 buf'
  /\ (stringLength buf' < FIFO_BUF_SIZE)%nat.
Proof.
  intros Hcorr H1 Hlen Hoff Hpush buf'.
  destruct (parseKeyString_step now kb Hlen Hoff) as [L [He|T]].
  { exfalso. apply Hpush. rewrite (Hcorr _ He). exact He. }
  destruct T as (_ & Hz & _). fold buf' in L, Hz.
  split; [exact L|]. split; [exact Hz|].
  assert (Hlast : buf' !! (FIFO_BUF_SIZE - 1)%nat = Some 0).
  { destruct (buf' !! (FIFO_BUF_SIZE - 1)%nat) as [x|] eqn:E.
    - unfold at_ in Hz. rewrite E in Hz. simpl in Hz. rewrite Hz.
      reflexivity.
    - apply lookup_ge_None_1 in E. lia. }
  split; [first [apply list_elem_of_In|apply elem_of_list_In];
          apply (list_elem_of_lookup_2 _ _ _ Hlast)|].
  apply Nat.le_lt_trans with (FIFO_BUF_SIZE - 1)%nat; [|lia].
  apply stringLength_le_nul. exact Hz.
Qed.

(** X16. A read cycle only appends to the queue of decoded keys: when
    the mouse command of the host leaves the queue alone, the queue
    before [parseKeyBuffer] is a prefix of the queue after it. No key
    is dropped or reordered. *)
Theorem parseKeyBuffer_appends (fuel : nat) (now : Z)
  (input : list (Z * Z)) (kb kb' : FKeyboard) (rest : list (Z * Z)) :
  (forall kb0, fkey_queue (mouse_tracking_cmd kb0) = fkey_queue kb0) ->
  parseKeyBuffer fuel now input kb = Some (kb', rest) ->
  exists new, fkey_queue kb' = fkey_queue kb ++ new.
Proof.
  intros Hmouse Hr.
  apply (parseKeyBuffer_kept
           (fun k => exists new, fkey_queue k = fkey_queue kb ++ new))
    with (r := (kb', rest)) (fuel := fuel) (now := now) (input := input)
         (kb := kb); [| exists []; rewrite app_nil_r; reflexivity | exact Hr].
  unfold kept_by_cycle.
  repeat split; intros; simpl; rewrite ?Hmouse; simpl; try assumption.
  match goal with H : exists _, _ |- _ => destruct H as [new Hn] end.
  exists (new ++ [fkey kb0]). rewrite Hn, app_assoc. reflexivity.
Qed.

(** X17. After a read cycle that read at least one byte,
    [has_pending_input] is clear, provided the mouse command of the
    host leaves it alone; a cycle that finds nothing to read leaves the
    flag as it was. *)
Theorem parseKeyBuffer_pending_flag (fuel : nat) (now : Z)
  (input : list (Z * Z)) (kb kb' : FKeyboard) (rest : list (Z * Z)) :
  (forall kb0, has_pending_input (mouse_tracking_cmd kb0)
               = has_pending_input kb0) ->
  parseKeyBuffer fuel now input kb = Some (kb', rest) ->
  (input <> [] -> has_pending_input kb' = false)
  /\ (input = [] -> has_pending_input kb' = has_pending_input kb).
Proof.
  intros Hmouse Hr. split.
  - intros Hne. destruct input as [|[c t] input]; [contradiction|].
    unfold parseKeyBuffer in Hr.
    assert (Hr' : read_loop fuel ((c, t) :: input)
                    (set_has_pending_input false
                       (set_time_keypressed now kb)) = Some (kb', rest))
      by exact Hr.
    apply (read_loop_kept (fun k => has_pending_input k = false))
      with (r := (kb', rest)) in Hr'; [exact Hr'| |reflexivity].
    unfold kept_by_cycle.
    repeat split; intros; simpl; rewrite ?Hmouse; simpl; try assumption;
      reflexivity.
  - intros ->. unfold parseKeyBuffer in Hr. simpl in Hr.
    injection Hr as <- _. reflexivity.
Qed.

End Further.

(** * Dispatching the queue *)

Section Dispatching.

Context {hdr : FKey.Header}.

(** X18. With commands that leave the keyboard as they find it,
    [processQueuedInput] returns after at most one step per queued key,
    and the keys it leaves in the queue are the last ones, in order; it
    leaves keys behind only when the application has asked to quit. *)
Theorem processQueuedInput_leaves_suffix {application : Application}
  (kb : FKeyboard) (a : app) :
  (forall kb0 a0, fst (keypressed_cmd kb0 a0) = kb0) ->
  (forall kb0 a0, fst (keyreleased_cmd kb0 a0) = kb0) ->
  exists kb' a',
    processQueuedInput (length (fkey_queue kb)) kb a = Some (kb', a')
    /\ (exists done, fkey_queue kb = done ++ fkey_queue kb')
    /\ (fkey_queue kb' <> [] -> isQuit a' = true).
Proof.
  intros Hp Hr.
  remember (length (fkey_queue kb)) as n eqn:Hn.
  revert kb a Hn. induction n as [|n IH]; intros kb a Hn.
  - destruct (fkey_queue kb) as [|k q] eqn:Hq; [|discriminate].
    exists kb, a. simpl. rewrite Hq.
    split; [reflexivity|].
    split; [exists []; reflexivity|]. intros H. contradiction.
  - destruct (fkey_queue kb) as [|k q] eqn:Hq; [discriminate|].
    injection Hn as Hn. simpl. rewrite Hq.
    assert (Hrec : forall kb1,
               fkey_queue kb1 = q ->
               forall a1,
               exists kb' a',
                 processQueuedInput n kb1 a1 = Some (kb', a')
                 /\ (exists done, k :: q = done ++ fkey_queue kb')
                 /\ (fkey_queue kb' <> [] -> isQuit a' = true)).
    { intros kb1 Hq1 a1.
      destruct (IH kb1 a1 ltac:(rewrite Hq1; exact Hn))
        as (kb' & a' & He & [done Hd] & Hquit).
      exists kb', a'. split; [exact He|]. split; [|exact Hquit].
      exists (k :: done). rewrite Hq1 in Hd. rewrite Hd. reflexivity. }
    destruct (FKey.None <? k) eqn:Hk; simpl; rewrite ?Hk.
    2:{ apply Hrec. reflexivity. }
    pose proof (Hp (set_fkey_queue q (set_key k kb)) a) as Hp1.
    destruct (keypressed_cmd (set_fkey_queue q (set_key k kb)) a)
      as [kb1 a1]. simpl in Hp1. subst kb1.
    destruct (isQuit a1) eqn:Hq1.
    { eexists _, _. split; [reflexivity|].
      split; [exists [k]; reflexivity|]. intros _. exact Hq1. }
    pose proof (Hr (set_fkey_queue q (set_key k kb)) a1) as Hr1.
    destruct (keyreleased_cmd (set_fkey_queue q (set_key k kb)) a1)
      as [kb2 a2]. simpl in Hr1. subst kb2.
    destruct (isQuit a2) eqn:Hq2.
    { eexists _, _. split; [reflexivity|].
      split; [exists [k]; reflexivity|]. intros _. exact Hq2. }
    apply Hrec. reflexivity.
Qed.

(** X19. Seen by a consumer that records every call and never asks to
    quit, [processQueuedInput] delivers the queued keys in queue order,
    each key above [None] as one press followed by one release and
    every other key as nothing, and empties the queue. *)
Theorem processQueuedInput_in_order (kb : FKeyboard) (log : list Event) :
  exists kb',
    @processQueuedInput hdr (recorder (fun _ => false))
      (length (fkey_queue kb)) kb log
    = Some (kb', log ++ flat_map events_of (fkey_queue kb))
    /\ fkey_queue kb' = [].
Proof.
  remember (length (fkey_queue kb)) as n eqn:Hn.
  revert kb log Hn. induction n as [|n IH]; intros kb log Hn.
  - destruct (fkey_queue kb) as [|k q] eqn:Hq; [|discriminate].
    exists kb. simpl. rewrite Hq. simpl. rewrite app_nil_r.
    split; reflexivity.
  - destruct (fkey_queue kb) as [|k q] eqn:Hq; [discriminate|].
    injection Hn as Hn. simpl. rewrite Hq. unfold events_of at 1.
    destruct (FKey.None <? k) eqn:Hk; simpl; rewrite ?Hk.
    + destruct (IH (set_key FKey.None (set_fkey_queue q (set_key k kb)))
                  ((log ++ [Pressed k]) ++ [Released k]) Hn)
        as (kb' & He & Hq').
      exists kb'. split; [|exact Hq'].
      simpl in He. rewrite He. rewrite <- !app_assoc. reflexivity.
    + destruct (IH (set_fkey_queue q (set_key k kb)) log Hn)
        as (kb' & He & Hq').
      exists kb'. split; [|exact Hq']. exact He.
Qed.

End Dispatching.

(** * Streams of plain bytes *)

Section Stream.

Context {hdr : FKey.Header} {host : Host}.

Lemma consume_one_of_empty (c : Z) :
  (1 <= FIFO_BUF_SIZE)%nat ->
  consume_buf 1 (<[O := c]> (replicate FIFO_BUF_SIZE 0))
  = replicate FIFO_BUF_SIZE 0.
Proof.
  intros H1.
  rewrite consume_buf_shift
    by (rewrite ?length_insert, ?length_replicate; lia).
  destruct FIFO_BUF_SIZE as [|n]; [lia|].
  simpl. rewrite drop_0.
  change [0] with (replicate 1 0). rewrite <- replicate_add.
  replace (n + 1)%nat with (S n) by lia. reflexivity.
Qed.

Lemma parseKeyString_plain (now : Z) (kb : FKeyboard) (c : Z) :
  (1 <= FIFO_BUF_SIZE)%nat ->
  fifo_buf kb = <[O := c]> (replicate FIFO_BUF_SIZE 0) ->
  plain_byte (utf8_input kb) c ->
  parseKeyString now kb
  = (remap c,
     set_unprocessed_buffer_data false
       (set_fifo_buf (replicate FIFO_BUF_SIZE 0) kb)).
Proof.
  intros H1 Hbuf [Hesc Hlead].
  assert (H0 : at_ (fifo_buf kb) 0 = c).
  { rewrite Hbuf. unfold at_.
    rewrite list_lookup_insert_eq by (rewrite length_replicate; lia).
    reflexivity. }
  unfold parseKeyString. rewrite H0.
  destruct (Z.eqb_spec c ESC0) as [?|_]; [contradiction|].
  unfold getSingleKey. rewrite H0.
  assert (Hc : utf8_input kb && (Z.land c 0xc0 =? 0xc0) = false).
  { destruct (utf8_input kb); [|reflexivity]. simpl.
    apply Z.eqb_neq. apply Hlead. reflexivity. }
  rewrite Hc. unfold consumeFront.
  rewrite Hbuf, consume_one_of_empty by exact H1.
  rewrite at_replicate_0. reflexivity.
Qed.

Lemma read_loop_plain (fuel : nat) (input : list (Z * Z)) :
  (1 <= FIFO_BUF_SIZE)%nat ->
  FKey.None <> FKey.Incomplete ->
  forall kb : FKeyboard,
  fifo_buf kb = replicate FIFO_BUF_SIZE 0 -> fifo_offset kb = O ->
  fkey kb <> FKey.Incomplete ->
  Forall (fun c => plain_byte (utf8_input kb) c
                   /\ ~ ends_resolving (keyCorrection (remap c)))
    (bytes_of input) ->
  (length (fkey_queue kb) + length input <= MAX_QUEUE_SIZE)%nat ->
  exists kb',
    read_loop (S fuel) input kb = Some (kb', [])
    /\ fkey_queue kb'
       = fkey_queue kb
         ++ map (fun c => keyCorrection (remap c)) (bytes_of input)
    /\ fifo_buf kb' = replicate FIFO_BUF_SIZE 0
    /\ fifo_offset kb' = O.
Proof.
  intros H1 Hnone.
  induction input as [|[c now] input IH]; intros kb Hbuf Hoff Hfkey Hall Hq.
  - exists kb. simpl. rewrite app_nil_r. repeat split; assumption.
  - apply Forall_cons in Hall as [[Hplain Hk] Hall].
    cbn [read_loop].
    cbn [fifo_offset set_has_pending_input fifo_buf]. rewrite Hoff.
    replace (1 + 0 <=? FIFO_BUF_SIZE)%nat with true
      by (symmetry; apply Nat.leb_le; lia).
    set (kb1 := set_fifo_in_use true _).
    assert (Hb1 : fifo_buf kb1 = <[O := c]> (replicate FIFO_BUF_SIZE 0)).
    { subst kb1. simpl. rewrite Hbuf. reflexivity. }
    assert (Hp : parseKeyString now kb1
                 = (remap c,
                    set_unprocessed_buffer_data false
                      (set_fifo_buf (replicate FIFO_BUF_SIZE 0) kb1))).
    { apply parseKeyString_plain; [exact H1|exact Hb1|exact Hplain]. }
    cbn [resolve_loop].
    replace ((0 <? fifo_offset kb1)%nat
             && negb (fkey kb1 =? FKey.Incomplete)) with true
      by (subst kb1; simpl; symmetry; apply negb_true_iff, Z.eqb_neq;
          exact Hfkey).
    rewrite Hp. cbn [fkey set_fkey].
    set (k := keyCorrection (remap c)) in *.
    assert (Hx : (k =? FKey.X11mouse) = false)
      by (apply Z.eqb_neq; intros E; apply Hk; right; left; exact E).
    assert (He : (k =? FKey.Extended_mouse) = false)
      by (apply Z.eqb_neq; intros E; apply Hk; right; right; left; exact E).
    assert (Hu : (k =? FKey.Urxvt_mouse) = false)
      by (apply Z.eqb_neq; intros E; apply Hk; right; right; right; exact E).
    assert (Hi : (k =? FKey.Incomplete) = false)
      by (apply Z.eqb_neq; intros E; apply Hk; left; exact E).
    rewrite Hx, He, Hu, Hi. cbn [orb negb].
    match goal with
    | |- context [resolve_loop fuel now ?st] =>
        set (kb2 := st);
        assert (Hb2 : fifo_buf kb2 = replicate FIFO_BUF_SIZE 0)
          by reflexivity;
        assert (Ho2 : fifo_offset kb2 = O)
          by (subst kb2; cbn [fifo_offset set_fifo_offset];
              apply stringLength_head_0; simpl; apply at_replicate_0);
        assert (Hq2 : fkey_queue kb2 = fkey_queue kb ++ [k])
          by reflexivity;
        assert (Hu2 : utf8_input kb2 = utf8_input kb) by reflexivity
    end.
    rewrite resolve_loop_done by (rewrite Ho2; reflexivity).
    set (kb3 := set_fkey FKey.None kb2).
    destruct (IH kb3) as (kb' & Hr & Hq' & Hb' & Ho').
    { exact Hb2. }
    { exact Ho2. }
    { exact Hnone. }
    { exact Hall. }
    { change (fkey_queue kb3) with (fkey_queue kb2). rewrite Hq2.
      rewrite length_app. simpl in Hq |- *. lia. }
    change (fkey_queue kb3) with (fkey_queue kb2) in Hq'.
    rewrite Hq2, <- app_assoc in Hq'.
    destruct (MAX_QUEUE_SIZE <=? length (fkey_queue kb3))%nat eqn:Hfull.
    + apply Nat.leb_le in Hfull.
      change (fkey_queue kb3) with (fkey_queue kb2) in Hfull.
      rewrite Hq2, length_app in Hfull. simpl in Hfull, Hq.
      destruct input as [|? ?]; [|simpl in Hq; lia].
      exists kb3. split; [reflexivity|].
      split; [|split; [exact Hb2|exact Ho2]].
      change (fkey_queue kb3) with (fkey_queue kb2). rewrite Hq2.
      reflexivity.
    + exists kb'. split; [exact Hr|].
      split; [exact Hq'|split; [exact Hb'|exact Ho']].
Qed.

(** X20. Plain bytes become keys one by one. Starting from an empty
    buffer, a read cycle that is given only bytes other than the escape
    byte and (with UTF-8 input) other than lead bytes, none of which the
    host corrects into [Incomplete] or a mouse identifier, and for which
    the queue has room, reads them all and appends one key per byte, in
    order: the byte itself with 0 and 127 remapped, after the host's key
    correction. The buffer is empty again afterwards. One iteration of
    the inner loop per byte is enough. *)
Theorem parseKeyBuffer_plain_bytes (fuel : nat) (now : Z)
  (input : list (Z * Z)) (kb : FKeyboard) :
  (1 <= FIFO_BUF_SIZE)%nat ->
  FKey.None <> FKey.Incomplete ->
  fifo_buf kb = replicate FIFO_BUF_SIZE 0 -> fifo_offset kb = O ->
  fkey kb <> FKey.Incomplete ->
  Forall (fun c => plain_byte (utf8_input kb) c
                   /\ ~ ends_resolving (keyCorrection (remap c)))
    (bytes_of input) ->
  (length (fkey_queue kb) + length input <= MAX_QUEUE_SIZE)%nat ->
  exists kb',
    parseKeyBuffer (S fuel) now input kb = Some (kb', [])
    /\ fkey_queue kb'
       = fkey_queue kb
         ++ map (fun c => keyCorrection (remap c)) (bytes_of input)
    /\ fifo_buf kb' = replicate FIFO_BUF_SIZE 0
    /\ fifo_offset kb' = O.
Proof.
  intros H1 Hnone Hbuf Hoff Hfkey Hall Hq.
  unfold parseKeyBuffer.
  apply (read_loop_plain fuel input H1 Hnone (set_time_keypressed now kb));
    assumption.
Qed.

End Stream.

(** * UTF-8 sequences in the buffer *)

Section Utf8Input.

Context {hdr : FKey.Header} {host : Host}.

Lemma stringLength_app_nonzero (s rest : list Z) :
  Forall (fun b => b <> 0) s ->
  stringLength (s ++ rest) = (length s + stringLength rest)%nat.
Proof.
  induction 1 as [|b s Hb _ IH]; [reflexivity|].
  simpl. destruct (Z.eqb_spec b 0) as [?|_]; [contradiction|].
  rewrite IH. reflexivity.
Qed.

Lemma map_at_prefix (s rest : list Z) :
  map (at_ (s ++ rest)) (seq 0 (length s)) = s.
Proof.
  induction s as [|b s IH]; [reflexivity|].
  cbn [length seq map]. f_equal.
  rewrite <- seq_shift, map_map.
  rewrite <- IH at 2. apply map_ext. intros i. reflexivity.
Qed.

Lemma map_at_c_str (buf : list Z) (len : nat) :
  (stringLength buf < len)%nat ->
  c_str (map (at_ buf) (seq 0 len)) = c_str buf.
Proof.
  unfold c_str. revert buf.
  induction len as [|len IH]; intros buf Hlt; [lia|].
  cbn [seq map]. rewrite <- seq_shift, map_map.
  destruct buf as [|b buf].
  - reflexivity.
  - change (at_ (b :: buf) 0) with b.
    cbn [stringLength] in Hlt |- *.
    destruct (b =? 0); [reflexivity|].
    cbn [take]. f_equal.
    rewrite <- (IH buf) by lia.
    f_equal.
Qed.

Lemma lead_byte_not_escape (c : Z) :
  Z.land c 0xc0 = 0xc0 -> (c =? ESC0) = false.
Proof.
  intros H. apply Z.eqb_neq. intros ->. discriminate H.
Qed.

(** X21. A complete UTF-8 sequence at the front of the buffer is one
    key. With UTF-8 input, when the buffer starts with a lead byte
    followed by the bytes its pattern announces, none of them NUL,
    [parseKeyString] returns what [UTF8decode] makes of exactly these
    bytes (with 0 and 127 remapped), whatever the clock says, takes
    exactly these bytes out of the buffer, moving the rest to the front
    and filling up with NUL, and sets [unprocessed_buffer_data] when the
    rest starts with a byte other than NUL. *)
Theorem parseKeyString_utf8_sequence (now : Z) (kb : FKeyboard)
  (s rest : list Z) :
  utf8_input kb = true ->
  fifo_buf kb = s ++ rest ->
  length (fifo_buf kb) = FIFO_BUF_SIZE ->
  Z.land (at_ s 0) 0xc0 = 0xc0 ->
  length s = utf8_len (at_ s 0) ->
  Forall (fun b => b <> 0) s ->
  parseKeyString now kb
  = (remap (UTF8decode s),
     set_unprocessed_buffer_data (negb (at_ rest 0 =? 0))
       (set_fifo_buf (rest ++ replicate (length s) 0) kb)).
Proof.
  intros Hutf Hbuf Hlen Hlead Hs Hnz.
  assert (Hne : (0 < length s)%nat).
  { rewrite Hs. unfold utf8_len.
    repeat match goal with
           | |- context [if ?c then _ else _] => destruct c
           end; lia. }
  assert (H0 : at_ (fifo_buf kb) 0 = at_ s 0).
  { rewrite Hbuf. unfold at_. rewrite lookup_app_l by exact Hne.
    reflexivity. }
  unfold parseKeyString. rewrite H0, (lead_byte_not_escape _ Hlead).
  unfold getSingleKey. rewrite H0, Hutf, Hlead.
  cbn [andb]. rewrite Z.eqb_refl.
  rewrite <- Hs.
  replace (stringLength (fifo_buf kb) <? length s)%nat with false.
  2:{ symmetry. apply Nat.ltb_ge.
      rewrite Hbuf, stringLength_app_nonzero by exact Hnz. lia. }
  cbn [andb].
  assert (Hc : c_str (map (at_ (fifo_buf kb)) (seq 0 (length s))) = s).
  { rewrite Hbuf, map_at_prefix. unfold c_str.
    rewrite <- (app_nil_r s) at 1.
    rewrite stringLength_app_nonzero by exact Hnz.
    simpl. rewrite Nat.add_0_r. apply firstn_all. }
  rewrite Hc. f_equal.
  unfold consumeFront.
  assert (Hcb : consume_buf (length s) (fifo_buf kb)
                = rest ++ replicate (length s) 0).
  { rewrite consume_buf_shift.
    - rewrite Hbuf, drop_app_length. reflexivity.
    - exact Hlen.
    - rewrite <- Hlen, Hbuf, length_app. lia. }
  rewrite Hcb.
  replace (at_ (rest ++ replicate (length s) 0) 0) with (at_ rest 0);
    [reflexivity|].
  destruct rest as [|r rest]; [|reflexivity].
  simpl. rewrite at_replicate_0. reflexivity.
Qed.

(** X22. A UTF-8 sequence cut short waits for the timeout, then is
    decoded as it stands. With UTF-8 input, when the buffer starts with
    a lead byte and holds fewer bytes before its first NUL than the lead
    byte announces, [parseKeyString] returns [Incomplete] and changes
    nothing as long as the key-press timeout has not passed; once it
    has, it returns what [UTF8decode] makes of the bytes that are there
    (with 0 and 127 remapped) and takes the announced number of bytes
    out of the buffer. *)
Theorem parseKeyString_utf8_cut_short (now : Z) (kb : FKeyboard) :
  utf8_input kb = true ->
  Z.land (at_ (fifo_buf kb) 0) 0xc0 = 0xc0 ->
  (stringLength (fifo_buf kb) < utf8_len (at_ (fifo_buf kb) 0))%nat ->
  parseKeyString now kb
  = if isKeypressTimeout now kb
    then (remap (UTF8decode (c_str (fifo_buf kb))),
          consumeFront (utf8_len (at_ (fifo_buf kb) 0)) kb)
    else (FKey.Incomplete, kb).
Proof.
  intros Hutf Hlead Hshort.
  unfold parseKeyString. rewrite (lead_byte_not_escape _ Hlead).
  unfold getSingleKey. rewrite Hutf, Hlead. cbn [andb].
  rewrite Z.eqb_refl.
  replace (stringLength (fifo_buf kb)
           <? utf8_len (at_ (fifo_buf kb) 0))%nat with true
    by (symmetry; apply Nat.ltb_lt; exact Hshort).
  cbn [andb].
  destruct (isKeypressTimeout now kb); cbn [negb]; [|reflexivity].
  rewrite map_at_c_str by exact Hshort. reflexivity.
Qed.

End Utf8Input.

(** * Prefixes of longer sequences *)

Section MetaPrefixes.

Context {hdr : FKey.Header} {host : Host}.

(** ** The lookups in terms of the table's strings *)

Lemma known_key_matches_string (kb : FKeyboard) (e : KeyMap) :
  well_formed_entry e -> (fifo_offset kb <= length (fifo_buf kb))%nat ->
  known_key_matches kb e
  = bool_decide (kstring e = take (fifo_offset kb) (fifo_buf kb)).
Proof.
  intros [Hl Hnz] Hle. unfold known_key_matches.
  destruct (Nat.eqb_spec (klength e) (fifo_offset kb)) as [E|E]; cbn [negb].
  - rewrite <- E, Hl. symmetry.
    destruct (strncmp_eq (kstring e) (fifo_buf kb) (length (kstring e)))
      eqn:S.
    + apply bool_decide_eq_true. symmetry.
      apply strncmp_eq_exact; [exact Hnz|lia|exact S].
    + apply bool_decide_eq_false. intros H.
      assert (S' : strncmp_eq (kstring e) (fifo_buf kb)
                     (length (kstring e)) = true).
      { apply strncmp_eq_exact; [exact Hnz|lia|symmetry; exact H]. }
      congruence.
  - symmetry. apply bool_decide_eq_false. intros H. apply E.
    rewrite Hl, H, length_take. lia.
Qed.

Lemma cap_key_matches_string (kb : FKeyboard) (e : KeyMap) :
  well_formed_entry e -> (0 < fifo_offset kb)%nat ->
  (fifo_offset kb <= length (fifo_buf kb))%nat ->
  cap_key_matches kb e
  = bool_decide (kstring e = take (fifo_offset kb) (fifo_buf kb)).
Proof.
  intros Hw Hpos Hle. rewrite <- (known_key_matches_string kb e Hw Hle).
  unfold cap_key_matches, known_key_matches.
  destruct (Nat.eqb_spec (klength e) 0) as [E0|_]; [|reflexivity].
  cbn [orb].
  destruct (Nat.eqb_spec (klength e) (fifo_offset kb)); [lia|reflexivity].
Qed.

Lemma find_lookup_string (f : KeyMap -> bool) (table : list KeyMap)
  (bytes : list Z) :
  Forall (fun e => f e = bool_decide (kstring e = bytes)) table ->
  find f table = lookup_string table bytes.
Proof.
  unfold lookup_string.
  induction 1 as [|e table He _ IH]; [reflexivity|].
  simpl. rewrite He, IH. reflexivity.
Qed.

Lemma find_known_lookup (kb : FKeyboard) :
  Forall well_formed_entry FKey.getKeyMap ->
  (fifo_offset kb <= length (fifo_buf kb))%nat ->
  find (known_key_matches kb) FKey.getKeyMap
  = lookup_string FKey.getKeyMap (take (fifo_offset kb) (fifo_buf kb)).
Proof.
  intros Hw Hle. apply find_lookup_string.
  eapply Forall_impl; [exact Hw|]. intros e He.
  apply known_key_matches_string; assumption.
Qed.

Lemma getTermcapKey_silent (kb : FKeyboard) (strs : list (list Z)) :
  platform_silent kb strs -> (0 < fifo_offset kb)%nat ->
  (fifo_offset kb <= length (fifo_buf kb))%nat ->
  In (take (fifo_offset kb) (fifo_buf kb)) strs ->
  getTermcapKey kb = (NOT_SET, kb).
Proof.
  intros Hs Hpos Hle Hin. unfold getTermcapKey.
  destruct (key_cap_ptr kb) as [caps|] eqn:Hc; [|reflexivity].
  destruct (Hs caps Hc) as [Hw Hno].
  rewrite (find_lookup_string _ caps (take (fifo_offset kb) (fifo_buf kb))).
  - rewrite (Hno _ Hin). reflexivity.
  - eapply Forall_impl; [exact Hw|]. intros e He.
    apply cap_key_matches_string; assumption.
Qed.

Lemma getMouseProtocolKey_few_bytes (kb : FKeyboard) :
  (fifo_offset kb < 6)%nat -> getMouseProtocolKey kb = NOT_SET.
Proof.
  intros Hlen. unfold getMouseProtocolKey.
  destruct (mouse_support kb); [|reflexivity]. cbn [negb].
  destruct (Nat.leb_spec 6 (fifo_offset kb)) as [|_]; [lia|].
  destruct (Nat.leb_spec 9 (fifo_offset kb)) as [|_]; [lia|].
  repeat (rewrite ?andb_false_r; cbn [andb]). reflexivity.
Qed.

(** ** The classifier on a short escape sequence *)

(** Before the timeout, a sequence that the generic table does not
    hold, or a two-byte one that ends in ['O'], ['['] or [']'], is
    [Incomplete], and nothing changes. *)
Lemma parseKeyString_escape_waits (now : Z) (kb : FKeyboard) :
  at_ (fifo_buf kb) 0 = ESC0 -> (fifo_offset kb < 6)%nat ->
  getTermcapKey kb = (NOT_SET, kb) ->
  isKeypressTimeout now kb = false ->
  find (known_key_matches kb) FKey.getKeyMap = Datatypes.None
  \/ (fifo_offset kb = 2%nat
      /\ (at_ (fifo_buf kb) 1 = chr "O" \/ at_ (fifo_buf kb) 1 = chr "["
          \/ at_ (fifo_buf kb) 1 = chr "]")) ->
  parseKeyString now kb = (FKey.Incomplete, kb).
Proof.
  intros H0 Hshort Hcap Ht Hk. unfold parseKeyString.
  rewrite H0, Z.eqb_refl.
  rewrite (getMouseProtocolKey_few_bytes kb Hshort), Z.eqb_refl. cbn [negb].
  rewrite Hcap, Z.eqb_refl. cbn [negb].
  destruct (find (known_key_matches kb) FKey.getKeyMap) as [e|] eqn:Hf.
  - destruct Hk as [Hk|[Hoff Hsec]]; [discriminate Hk|].
    rewrite (getKnownKey_found _ _ _ Hf).
    assert (Hl : klength e = 2%nat).
    { apply find_some in Hf as [_ Hm]. unfold known_key_matches in Hm.
      destruct (Nat.eqb_spec (klength e) (fifo_offset kb)) as [E|E];
        [congruence|discriminate Hm]. }
    assert (Hc : (klength e =? 2)%nat
                 && ((at_ (fifo_buf kb) 1 =? chr "O")
                     || (at_ (fifo_buf kb) 1 =? chr "[")
                     || (at_ (fifo_buf kb) 1 =? chr "]"))
                 && negb (isKeypressTimeout now kb) = true).
    { rewrite Hl, Ht. cbn [Nat.eqb negb andb].
      rewrite andb_true_r, !orb_true_iff, !Z.eqb_eq. tauto. }
    rewrite Hc.
    destruct (FKey.Incomplete =? NOT_SET); cbn [negb];
      [rewrite Ht|]; reflexivity.
  - unfold getKnownKey. rewrite Hf, Z.eqb_refl. cbn [negb].
    rewrite Ht. reflexivity.
Qed.

(** A sequence whose entry in the generic table is not two bytes long
    gives the entry's key, whatever the clock says, and is taken from
    the buffer. *)
Lemma parseKeyString_escape_found (now : Z) (kb : FKeyboard) (e : KeyMap) :
  at_ (fifo_buf kb) 0 = ESC0 -> (fifo_offset kb < 6)%nat ->
  getTermcapKey kb = (NOT_SET, kb) ->
  find (known_key_matches kb) FKey.getKeyMap = Some e ->
  klength e <> 2%nat -> num e <> NOT_SET ->
  parseKeyString now kb = (num e, consumeFront (klength e) kb).
Proof.
  intros H0 Hshort Hcap Hf Hl Hn. unfold parseKeyString.
  rewrite H0, Z.eqb_refl.
  rewrite (getMouseProtocolKey_few_bytes kb Hshort), Z.eqb_refl. cbn [negb].
  rewrite Hcap, Z.eqb_refl. cbn [negb].
  rewrite (getKnownKey_found _ _ _ Hf).
  destruct (Nat.eqb_spec (klength e) 2) as [|_]; [contradiction|].
  cbn [andb].
  destruct (Z.eqb_spec (num e) NOT_SET) as [|_]; [contradiction|].
  reflexivity.
Qed.

(** ** Buffers that hold a given string *)

Lemma holds_length (kb : FKeyboard) (bytes : list Z) :
  holds kb bytes -> length (fifo_buf kb) = FIFO_BUF_SIZE.
Proof.
  intros (Hb & _ & Hle). rewrite Hb, length_app, length_replicate. lia.
Qed.

Lemma holds_take (kb : FKeyboard) (bytes : list Z) :
  holds kb bytes -> take (fifo_offset kb) (fifo_buf kb) = bytes.
Proof. intros (Hb & Ho & _). rewrite Hb, Ho. apply take_app_length. Qed.

Lemma holds_store (kb : FKeyboard) (bytes : list Z) (c : Z) :
  holds kb bytes -> (length bytes < FIFO_BUF_SIZE)%nat ->
  <[fifo_offset kb := c]> (fifo_buf kb)
  = (bytes ++ [c]) ++ replicate (FIFO_BUF_SIZE - length (bytes ++ [c])) 0.
Proof.
  intros (Hb & Ho & _) Hlt. rewrite Hb, Ho.
  rewrite insert_app_r_alt by lia. rewrite Nat.sub_diag.
  rewrite length_app. cbn [length].
  destruct (FIFO_BUF_SIZE - length bytes)%nat as [|m] eqn:E; [lia|].
  replace (FIFO_BUF_SIZE - (length bytes + 1))%nat with m by lia.
  cbn [replicate]. rewrite <- app_assoc. reflexivity.
Qed.

Lemma holds_drained (kb : FKeyboard) (bytes : list Z) :
  holds kb bytes ->
  consume_buf (length bytes) (fifo_buf kb) = replicate FIFO_BUF_SIZE 0.
Proof.
  intros H. pose proof (holds_length _ _ H) as HL.
  destruct H as (Hb & _ & Hle).
  rewrite consume_buf_shift by assumption.
  rewrite Hb, drop_app_length, <- replicate_add. f_equal. lia.
Qed.

Lemma take_two (buf : list Z) :
  (2 <= length buf)%nat -> take 2 buf = [at_ buf 0; at_ buf 1].
Proof.
  destruct buf as [|a [|b buf]]; simpl; intros H; try lia. reflexivity.
Qed.

(** ** One byte read while the sequence is incomplete *)

Lemma read_loop_waits (fuel : nat) (c t : Z) (input : list (Z * Z))
  (kb : FKeyboard) (bytes : list Z) :
  keyCorrection FKey.Incomplete = FKey.Incomplete ->
  FKey.Incomplete <> FKey.X11mouse ->
  FKey.Incomplete <> FKey.Extended_mouse ->
  FKey.Incomplete <> FKey.Urxvt_mouse ->
  holds kb bytes -> (length bytes < FIFO_BUF_SIZE)%nat ->
  fkey kb <> FKey.Incomplete ->
  (length (fkey_queue kb) < MAX_QUEUE_SIZE)%nat ->
  (forall kb1, holds kb1 (bytes ++ [c]) -> same_settings kb kb1 ->
               parseKeyString t kb1 = (FKey.Incomplete, kb1)) ->
  exists kb2,
    read_loop (S fuel) ((c, t) :: input) kb = read_loop (S fuel) input kb2
    /\ holds kb2 (bytes ++ [c]) /\ fkey kb2 = FKey.None
    /\ same_settings kb kb2.
Proof.
  intros Hc Hx He Hu Hh Hlt Hf Hq Hparse.
  pose proof Hh as (Hb & Ho & Hle).
  cbn [read_loop]. cbn [fifo_offset set_has_pending_input fifo_buf].
  replace (1 + fifo_offset kb <=? FIFO_BUF_SIZE)%nat with true
    by (symmetry; apply Nat.leb_le; lia).
  set (kb1 := set_fifo_in_use true _).
  assert (H1 : holds kb1 (bytes ++ [c])).
  { split; [|split].
    - subst kb1. cbn [fifo_buf set_fifo_in_use set_fifo_offset set_fifo_buf].
      apply holds_store; assumption.
    - subst kb1.
      cbn [fifo_offset set_fifo_in_use set_fifo_offset set_fifo_buf
           set_has_pending_input].
      rewrite Ho, length_app. cbn [length]. lia.
    - rewrite length_app. cbn [length]. lia. }
  assert (S1 : same_settings kb kb1) by (repeat split).
  specialize (Hparse kb1 H1 S1).
  cbn [resolve_loop].
  replace ((0 <? fifo_offset kb1)%nat
           && negb (fkey kb1 =? FKey.Incomplete)) with true
    by (subst kb1; simpl; symmetry; apply negb_true_iff, Z.eqb_neq;
        exact Hf).
  rewrite Hparse. cbn [fkey set_fkey]. rewrite Hc.
  rewrite (proj2 (Z.eqb_neq _ _) Hx), (proj2 (Z.eqb_neq _ _) He),
    (proj2 (Z.eqb_neq _ _) Hu), Z.eqb_refl.
  cbn [orb negb].
  rewrite resolve_loop_done
    by (cbn [fkey set_fkey]; rewrite Z.eqb_refl, andb_false_r; reflexivity).
  match goal with
  | |- context [set_fkey FKey.None ?st] => set (kb2 := set_fkey FKey.None st)
  end.
  replace (MAX_QUEUE_SIZE <=? length (fkey_queue kb2))%nat with false
    by (symmetry; apply Nat.leb_gt; exact Hq).
  exists kb2. split; [reflexivity|].
  split; [exact H1|]. split; [reflexivity|exact S1].
Qed.

(** ** The byte that completes the sequence *)

Lemma read_loop_completes (fuel : nat) (c t : Z) (kb : FKeyboard)
  (bytes : list Z) (k : FKey) :
  ~ ends_resolving (keyCorrection k) ->
  holds kb bytes -> (length bytes < FIFO_BUF_SIZE)%nat ->
  fkey kb <> FKey.Incomplete ->
  (forall kb1, holds kb1 (bytes ++ [c]) -> same_settings kb kb1 ->
               parseKeyString t kb1
               = (k, consumeFront (length (bytes ++ [c])) kb1)) ->
  exists kb2,
    read_loop (S fuel) [(c, t)] kb = Some (kb2, [])
    /\ fkey_queue kb2 = fkey_queue kb ++ [keyCorrection k]
    /\ fifo_buf kb2 = replicate FIFO_BUF_SIZE 0
    /\ fifo_offset kb2 = O.
Proof.
  intros Hk Hh Hlt Hf Hparse.
  pose proof Hh as (Hb & Ho & Hle).
  cbn [read_loop]. cbn [fifo_offset set_has_pending_input fifo_buf].
  replace (1 + fifo_offset kb <=? FIFO_BUF_SIZE)%nat with true
    by (symmetry; apply Nat.leb_le; lia).
  set (kb1 := set_fifo_in_use true _).
  assert (H1 : holds kb1 (bytes ++ [c])).
  { split; [|split].
    - subst kb1. cbn [fifo_buf set_fifo_in_use set_fifo_offset set_fifo_buf].
      apply holds_store; assumption.
    - subst kb1.
      cbn [fifo_offset set_fifo_in_use set_fifo_offset set_fifo_buf
           set_has_pending_input].
      rewrite Ho, length_app. cbn [length]. lia.
    - rewrite length_app. cbn [length]. lia. }
  assert (S1 : same_settings kb kb1) by (repeat split).
  specialize (Hparse kb1 H1 S1).
  pose proof (holds_drained kb1 _ H1) as Hd.
  cbn [resolve_loop].
  replace ((0 <? fifo_offset kb1)%nat
           && negb (fkey kb1 =? FKey.Incomplete)) with true
    by (subst kb1; simpl; symmetry; apply negb_true_iff, Z.eqb_neq;
        exact Hf).
  rewrite Hparse. cbn [fkey set_fkey].
  set (k' := keyCorrection k) in *.
  assert (Hx : (k' =? FKey.X11mouse) = false)
    by (apply Z.eqb_neq; intros E; apply Hk; right; left; exact E).
  assert (He : (k' =? FKey.Extended_mouse) = false)
    by (apply Z.eqb_neq; intros E; apply Hk; right; right; left; exact E).
  assert (Hu : (k' =? FKey.Urxvt_mouse) = false)
    by (apply Z.eqb_neq; intros E; apply Hk; right; right; right; exact E).
  assert (Hi : (k' =? FKey.Incomplete) = false)
    by (apply Z.eqb_neq; intros E; apply Hk; left; exact E).
  rewrite Hx, He, Hu, Hi. cbn [orb negb].
  match goal with
  | |- context [resolve_loop fuel t ?st] =>
      set (kb2 := st);
      assert (Hb2 : fifo_buf kb2 = replicate FIFO_BUF_SIZE 0)
        by exact Hd;
      assert (Ho2 : fifo_offset kb2 = O)
        by (change (stringLength (fifo_buf kb2) = O); rewrite Hb2;
            apply stringLength_head_0, at_replicate_0);
      assert (Hq2 : fkey_queue kb2 = fkey_queue kb ++ [k'])
        by reflexivity
  end.
  rewrite resolve_loop_done by (rewrite Ho2; reflexivity).
  exists (set_fkey FKey.None kb2).
  split; [|split; [exact Hq2|split; [exact Hb2|exact Ho2]]].
  destruct (MAX_QUEUE_SIZE <=? length (fkey_queue (set_fkey FKey.None kb2)))%nat;
    reflexivity.
Qed.

(** ** The sequence byte by byte *)

Lemma same_settings_trans (a b c : FKeyboard) :
  same_settings a b -> same_settings b c -> same_settings a c.
Proof.
  intros (A1 & A2 & A3 & A4) (B1 & B2 & B3 & B4).
  repeat split; congruence.
Qed.

(** What the lookups and the clock make of a buffer that holds [bytes],
    with tables given by their strings. *)
Lemma escape_stage (kb0 kbx : FKeyboard) (bytes : list Z)
  (strs : list (list Z)) :
  Forall well_formed_entry FKey.getKeyMap ->
  platform_silent kb0 strs -> In bytes strs ->
  holds kbx bytes -> same_settings kb0 kbx -> (0 < length bytes)%nat ->
  getTermcapKey kbx = (NOT_SET, kbx)
  /\ find (known_key_matches kbx) FKey.getKeyMap
     = lookup_string FKey.getKeyMap bytes
  /\ forall t, isKeypressTimeout t kbx = isKeypressTimeout t kb0.
Proof.
  intros Hw Hs Hin Hh (_ & Hcap & Htime & Hto) Hpos.
  pose proof (holds_length _ _ Hh) as HL.
  pose proof (holds_take _ _ Hh) as Htake.
  pose proof Hh as (Hb & Ho & Hle).
  split; [|split].
  - apply (getTermcapKey_silent kbx strs).
    + intros caps Hc. apply Hs. rewrite <- Hcap. exact Hc.
    + rewrite Ho. exact Hpos.
    + rewrite Ho, HL. exact Hle.
    + rewrite Htake. exact Hin.
  - rewrite find_known_lookup, Htake; [reflexivity|exact Hw|].
    rewrite Ho, HL. exact Hle.
  - intros t. unfold isKeypressTimeout. rewrite Htime, Hto. reflexivity.
Qed.

(** C8. When the buffer holds exactly the two bytes ESC and ['O'], ['[']
    or [']'] and the key timeout has elapsed, [substringKeyHandling]
    enqueues exactly one event, Meta-O, Meta-[ or Meta-] respectively,
    and resets the buffer bookkeeping (offset 0, in-use false,
    unprocessed-data false). Before the timeout it changes nothing, and a
    buffer of another length is never touched. Before the timeout the
    classifier too leaves such a two-byte buffer alone: it answers
    [Incomplete] whatever the generic table holds, an entry for these
    very two bytes included. So a longer sequence completing the prefix
    yields its own key and never the Meta event: when ESC, the prefix
    byte and a third byte are read one by one into an empty buffer, the
    first two before the timeout, and the generic table holds an entry
    for the three bytes, the read cycle enqueues exactly one key, that of
    the first such entry, and leaves the buffer empty. The tables are
    given by their strings: entries are well formed, no table has an
    entry for ESC alone and the platform table has none for the prefix
    or the sequence. *)
Theorem substringKeyHandling_meta (now : Z) (kb : FKeyboard) :
  let buf := fifo_buf kb in
  let prefixes := [ (chr "O", FKey.Meta_O);
                    (chr "[", FKey.Meta_left_square_bracket);
                    (chr "]", FKey.Meta_right_square_bracket) ] in
  (forall c meta,
      In (c, meta) prefixes ->
      fifo_in_use kb = true -> fifo_offset kb = 2%nat ->
      at_ buf 0 = 0x1b -> at_ buf 1 = c -> at_ buf 2 = 0 ->
      isKeypressTimeout now kb = true ->
      let kb' := substringKeyHandling now kb in
      fkey_queue kb' = fkey_queue kb ++ [meta]
      /\ fifo_offset kb' = 0%nat
      /\ fifo_in_use kb' = false
      /\ unprocessed_buffer_data kb' = false)
  /\ (isKeypressTimeout now kb = false -> substringKeyHandling now kb = kb)
  /\ (fifo_offset kb <> 2%nat -> substringKeyHandling now kb = kb)
  /\ (forall c meta,
      In (c, meta) prefixes ->
      length buf = FIFO_BUF_SIZE -> (2 <= FIFO_BUF_SIZE)%nat ->
      fifo_offset kb = 2%nat -> at_ buf 0 = 0x1b -> at_ buf 1 = c ->
      platform_silent kb [[0x1b; c]] ->
      isKeypressTimeout now kb = false ->
      parseKeyString now kb = (FKey.Incomplete, kb))
  /\ (forall fuel t1 t2 t3 c meta d found_key,
      In (c, meta) prefixes ->
      keyCorrection FKey.Incomplete = FKey.Incomplete ->
      FKey.Incomplete <> FKey.X11mouse ->
      FKey.Incomplete <> FKey.Extended_mouse ->
      FKey.Incomplete <> FKey.Urxvt_mouse ->
      FKey.None <> FKey.Incomplete ->
      (3 <= FIFO_BUF_SIZE)%nat ->
      buf = replicate FIFO_BUF_SIZE 0 -> fifo_offset kb = O ->
      fkey kb <> FKey.Incomplete ->
      (length (fkey_queue kb) < MAX_QUEUE_SIZE)%nat ->
      platform_silent kb [[0x1b]; [0x1b; c]; [0x1b; c; d]] ->
      Forall well_formed_entry FKey.getKeyMap ->
      lookup_string FKey.getKeyMap [0x1b] = Datatypes.None ->
      lookup_string FKey.getKeyMap [0x1b; c; d] = Some found_key ->
      num found_key <> NOT_SET ->
      ~ ends_resolving (keyCorrection (num found_key)) ->
      t1 - now < key_timeout kb -> t2 - now < key_timeout kb ->
      exists kb',
        parseKeyBuffer (S fuel) now [(0x1b, t1); (c, t2); (d, t3)] kb
        = Some (kb', [])
        /\ fkey_queue kb' = fkey_queue kb ++ [keyCorrection (num found_key)]
        /\ fifo_buf kb' = replicate FIFO_BUF_SIZE 0
        /\ fifo_offset kb' = O).
Proof.
  intros buf prefixes. split; [|split; [|split; [|split]]].
  - intros c meta Hin Huse Hoff H0 H1 H2 Ht kb'.
    destruct (substringKeyHandling_fires now kb c meta Hin Huse Hoff
                H0 H1 H2 Ht) as (Hq & Ho & Hu & Hd & _).
    repeat split; assumption.
  - intros Ht. unfold substringKeyHandling. rewrite Ht.
    rewrite !andb_false_r. reflexivity.
  - intros Hoff. unfold substringKeyHandling.
    destruct (Nat.eqb_spec (fifo_offset kb) 2) as [|_]; [contradiction|].
    rewrite andb_false_r. reflexivity.
  - intros c meta Hin Hlen H2 Hoff H0 H1 Hs Ht.
    apply parseKeyString_escape_waits;
      [exact H0|rewrite Hoff; lia| |exact Ht|].
    + apply (getTermcapKey_silent kb [[0x1b; c]] Hs).
      * rewrite Hoff. lia.
      * fold buf. rewrite Hoff, Hlen. exact H2.
      * fold buf. rewrite Hoff, take_two by (rewrite Hlen; exact H2).
        rewrite H0, H1. left. reflexivity.
    + right. split; [exact Hoff|]. fold buf. rewrite H1.
      destruct Hin as [E|[E|[E|[]]]]; injection E as <- _; tauto.
  - intros fuel t1 t2 t3 c meta d found_key Hin Hci Hx He Hu Hnone H3
      Hbuf Hoff Hfkey Hq Hs Hw Hesc Hseq Hnum Hkey Ht1 Ht2.
    assert (Hc : c = chr "O" \/ c = chr "[" \/ c = chr "]").
    { destruct Hin as [E|[E|[E|[]]]]; injection E as <- _; tauto. }
    unfold parseKeyBuffer.
    set (kb0 := set_time_keypressed now kb).
    assert (Hh0 : holds kb0 []).
    { split; [|split; [exact Hoff|cbn [length]; lia]].
      cbn [app length]. rewrite Nat.sub_0_r. exact Hbuf. }
    assert (Hs0 : platform_silent kb0 [[0x1b]; [0x1b; c]; [0x1b; c; d]])
      by exact Hs.
    assert (Hto : forall t, t - now < key_timeout kb ->
                            isKeypressTimeout t kb0 = false).
    { intros t Ht. unfold isKeypressTimeout, isTimeout. subst kb0.
      cbn [time_keypressed key_timeout set_time_keypressed].
      apply Z.leb_gt. exact Ht. }
    (* the byte ESC *)
    destruct (read_loop_waits fuel 0x1b t1 [(c, t2); (d, t3)] kb0 []
                Hci Hx He Hu Hh0 ltac:(cbn [length]; lia) Hfkey Hq)
      as (kb1 & E1 & Hh1 & Hf1 & S1).
    { intros kbx Hh Hsame.
      destruct (escape_stage kb0 kbx _ _ Hw Hs0
                  ltac:(left; reflexivity) Hh Hsame
                  ltac:(simpl; lia)) as (Hcap & Hfind & Htime).
      pose proof Hh as (Hb & Ho & _).
      apply parseKeyString_escape_waits.
      - rewrite Hb. reflexivity.
      - rewrite Ho. simpl. lia.
      - exact Hcap.
      - rewrite Htime. apply Hto. exact Ht1.
      - left. rewrite Hfind. exact Hesc. }
    (* the prefix byte *)
    destruct (read_loop_waits fuel c t2 [(d, t3)] kb1 [0x1b]
                Hci Hx He Hu Hh1 ltac:(cbn [length]; lia)
                ltac:(rewrite Hf1; exact Hnone)
                ltac:(rewrite (proj1 S1); exact Hq))
      as (kb2 & E2 & Hh2 & Hf2 & S2).
    { intros kbx Hh Hsame.
      pose proof (same_settings_trans _ _ _ S1 Hsame) as Hsame0.
      destruct (escape_stage kb0 kbx _ _ Hw Hs0
                  ltac:(right; left; reflexivity) Hh Hsame0
                  ltac:(simpl; lia)) as (Hcap & _ & Htime).
      pose proof Hh as (Hb & Ho & _).
      apply parseKeyString_escape_waits.
      - rewrite Hb. reflexivity.
      - rewrite Ho. simpl. lia.
      - exact Hcap.
      - rewrite Htime. apply Hto. exact Ht2.
      - right. split; [rewrite Ho; reflexivity|].
        rewrite Hb. exact Hc. }
    (* the byte that completes the sequence *)
    destruct (read_loop_completes fuel d t3 kb2 [0x1b; c] (num found_key)
                Hkey Hh2 ltac:(cbn [length]; lia)
                ltac:(rewrite Hf2; exact Hnone))
      as (kb3 & E3 & Hq3 & Hb3 & Ho3).
    { intros kbx Hh Hsame.
      pose proof (same_settings_trans _ _ _
                    (same_settings_trans _ _ _ S1 S2) Hsame) as Hsame0.
      destruct (escape_stage kb0 kbx _ _ Hw Hs0
                  ltac:(right; right; left; reflexivity) Hh Hsame0
                  ltac:(simpl; lia)) as (Hcap & Hfind & _).
      pose proof Hh as (Hb & Ho & _).
      assert (Hl : klength found_key = 3%nat).
      { apply find_some in Hseq as [Hin' Hm].
        apply bool_decide_eq_true in Hm.
        destruct (proj1 (List.Forall_forall _ _) Hw found_key Hin')
          as [Hl _].
        rewrite Hl, Hm. reflexivity. }
      rewrite (parseKeyString_escape_found t3 kbx found_key).
      - rewrite Hl. reflexivity.
      - rewrite Hb. reflexivity.
      - rewrite Ho. simpl. lia.
      - exact Hcap.
      - rewrite Hfind. exact Hseq.
      - rewrite Hl. discriminate.
      - exact Hnum. }
    exists kb3. rewrite E1, E2, E3.
    split; [reflexivity|]. split; [|split; [exact Hb3|exact Ho3]].
    rewrite Hq3, (proj1 S2), (proj1 S1). reflexivity.
Qed.

End MetaPrefixes.

(** * The further properties on the sample data *)

Section FurtherRuns.

#[local] Existing Instance Sample.header.
#[local] Existing Instance Sample.host.

(** Every sample keyboard has a NUL tail and lies within bounds when its
    bytes fit. *)
Lemma sample_zero_tail (bytes : list Z) (utf8 mouse : bool)
  (queue : list FKey) :
  zero_tail (Sample.keyboard bytes utf8 mouse queue).
Proof.
  intros i Hi. cbn [Sample.keyboard fifo_buf fifo_offset] in *.
  unfold Sample.buffer, at_. rewrite lookup_app_r by exact Hi.
  destruct (replicate (512 - length bytes)%nat 0 !! (i - length bytes)%nat)
    as [x|]
    eqn:E; [|reflexivity].
  apply lookup_replicate in E as [-> _]. reflexivity.
Qed.

(** ** Meta keys and the sequences they begin *)

Lemma sample_table_well_formed : Forall well_formed_entry Sample.key_map.
Proof.
  unfold Sample.key_map.
  repeat constructor; intros E; discriminate E.
Qed.

Lemma substringKeyHandling_meta_witness :
  let kb := Sample.keyboard [0x1b; chr "["] false false [chr "a"] in
  let kb0 := Sample.keyboard [] false false [] in
  let left := mkKeyMap Sample.Key_Left [0x1b; chr "["; chr "D"] 3 in
  (isKeypressTimeout 200000 kb = true
   /\ fkey_queue (substringKeyHandling 200000 kb)
      = fkey_queue kb ++ [FKey.Meta_left_square_bracket])
  /\ (isKeypressTimeout 50 kb = false
      /\ lookup_string FKey.getKeyMap [0x1b; chr "["] <> Datatypes.None
      /\ parseKeyString 50 kb = (FKey.Incomplete, kb))
  /\ exists kb',
      parseKeyBuffer 1 0 [(0x1b, 10); (chr "[", 20); (chr "D", 30)] kb0
      = Some (kb', [])
      /\ fkey_queue kb' = fkey_queue kb0 ++ [keyCorrection (num left)]
      /\ fifo_buf kb' = replicate FIFO_BUF_SIZE 0
      /\ fifo_offset kb' = O.
Proof.
  intros kb kb0 left.
  assert (Hin : In (chr "[", FKey.Meta_left_square_bracket)
                  [ (chr "O", FKey.Meta_O);
                    (chr "[", FKey.Meta_left_square_bracket);
                    (chr "]", FKey.Meta_right_square_bracket) ])
    by (right; left; reflexivity).
  split; [|split].
  - assert (Ht : isKeypressTimeout 200000 kb = true) by reflexivity.
    split; [exact Ht|].
    pose proof (substringKeyHandling_meta 200000 kb) as T. cbv zeta in T.
    destruct T as (Hfire & _).
    exact (proj1 (Hfire (chr "[") FKey.Meta_left_square_bracket Hin
                    eq_refl eq_refl eq_refl eq_refl eq_refl Ht)).
  - assert (Ht : isKeypressTimeout 50 kb = false) by reflexivity.
    split; [exact Ht|]. split; [intros E; discriminate E|].
    pose proof (substringKeyHandling_meta 50 kb) as T. cbv zeta in T.
    destruct T as (_ & _ & _ & Hwait & _).
    apply (Hwait (chr "[") FKey.Meta_left_square_bracket Hin);
      [vm_compute; reflexivity|apply Nat.leb_le; reflexivity
      |reflexivity|reflexivity|reflexivity| |exact Ht].
    intros caps Hc. discriminate Hc.
  - pose proof (substringKeyHandling_meta 0 kb0) as T. cbv zeta in T.
    destruct T as (_ & _ & _ & _ & Hseq).
    apply (Hseq O 10 20 30 (chr "[") FKey.Meta_left_square_bracket
             (chr "D") left Hin).
    + reflexivity.
    + intros E; discriminate E.
    + intros E; discriminate E.
    + intros E; discriminate E.
    + intros E; discriminate E.
    + apply Nat.leb_le. reflexivity.
    + vm_compute. reflexivity.
    + reflexivity.
    + intros E; discriminate E.
    + apply Nat.ltb_lt. vm_compute. reflexivity.
    + intros caps Hc. discriminate Hc.
    + exact sample_table_well_formed.
    + vm_compute. reflexivity.
    + vm_compute. reflexivity.
    + intros E; discriminate E.
    + intros [E|[E|[E|E]]]; vm_compute in E; discriminate E.
    + vm_compute. reflexivity.
    + vm_compute. reflexivity.
Defined.

Lemma clearKeyBuffer_clears_witness :
  let kb := Sample.keyboard [0x1b; chr "["] false false [65] in
  length (fifo_buf kb) = FIFO_BUF_SIZE
  /\ fifo_buf (clearKeyBuffer kb) = replicate FIFO_BUF_SIZE 0
  /\ fifo_offset (clearKeyBuffer kb) = 0%nat
  /\ fkey_queue (clearKeyBuffer kb) = [65].
Proof.
  intros kb.
  assert (H : length (fifo_buf kb) = FIFO_BUF_SIZE) by reflexivity.
  split; [exact H|].
  pose proof (clearKeyBuffer_clears kb H) as T. cbv zeta in T.
  destruct T as (Hb & Ho & _ & _ & _ & Hq & _).
  split; [exact Hb|]. split; [exact Ho|exact Hq].
Defined.

Lemma escapeKeyHandling_before_timeout_witness :
  let kb := Sample.keyboard [0x1b] false false [] in
  isKeypressTimeout 50000 kb = false
  /\ escapeKeyHandling 50000 kb = kb.
Proof.
  intros kb.
  assert (H : isKeypressTimeout 50000 kb = false) by reflexivity.
  split; [exact H|exact (escapeKeyHandling_before_timeout 50000 kb H)].
Defined.

Lemma escapeKeyHandling_lone_escape_witness :
  let kb := Sample.keyboard [0x1b] false false [65] in
  (fifo_in_use kb = true /\ fifo_offset kb = 1%nat
   /\ at_ (fifo_buf kb) 0 = 0x1b /\ at_ (fifo_buf kb) 1 = 0
   /\ isKeypressTimeout 200000 kb = true)
  /\ fkey_queue (escapeKeyHandling 200000 kb) = [65]
  /\ fifo_in_use (escapeKeyHandling 200000 kb) = false.
Proof.
  intros kb.
  split; [repeat split; reflexivity|].
  destruct (escapeKeyHandling_lone_escape 200000 kb
              eq_refl eq_refl eq_refl eq_refl eq_refl)
    as (kb0 & _ & Hu & _ & _ & _ & Hq & _ & Hfin).
  rewrite (Hfin Hu). split; [exact Hq|exact Hu].
Defined.

Lemma substringKeyHandling_keeps_second_byte_witness :
  let kb := Sample.keyboard [0x1b; chr "["] false false [] in
  (fifo_in_use kb = true /\ fifo_offset kb = 2%nat
   /\ at_ (fifo_buf kb) 0 = 0x1b /\ at_ (fifo_buf kb) 1 = chr "["
   /\ at_ (fifo_buf kb) 2 = 0 /\ isKeypressTimeout 200000 kb = true)
  /\ stringLength (fifo_buf (substringKeyHandling 200000 kb)) = 0%nat
  /\ at_ (fifo_buf (substringKeyHandling 200000 kb)) 1 = chr "[".
Proof.
  intros kb.
  split; [repeat split; reflexivity|].
  pose proof (substringKeyHandling_keeps_second_byte 200000 kb
                (chr "[") FKey.Meta_left_square_bracket
                (or_intror (or_introl eq_refl))
                eq_refl eq_refl eq_refl eq_refl eq_refl eq_refl) as T.
  cbv zeta in T. destruct T as (_ & Hs & H1 & _).
  split; [exact Hs|exact H1].
Defined.

Lemma parseKeyString_known_key_drains_witness :
  let kb := Sample.keyboard [0x1b; chr "["; chr "A"] false false [] in
  let up := mkKeyMap Sample.Key_Up [0x1b; chr "["; chr "A"] 3 in
  (buffer_in_bounds kb /\ zero_tail kb
   /\ find (known_key_matches kb) FKey.getKeyMap = Some up)
  /\ fst (parseKeyString 0 kb) = Sample.Key_Up
  /\ fifo_buf (snd (parseKeyString 0 kb)) = replicate FIFO_BUF_SIZE 0.
Proof.
  intros kb up.
  assert (Hb : buffer_in_bounds kb)
    by (split; [reflexivity|apply Nat.leb_le; reflexivity]).
  assert (Hz : zero_tail kb) by apply sample_zero_tail.
  assert (Hf : find (known_key_matches kb) FKey.getKeyMap = Some up)
    by reflexivity.
  assert (Hn : num up <> NOT_SET) by (intros E; discriminate E).
  split; [split; [exact Hb|split; [exact Hz|exact Hf]]|].
  destruct (parseKeyString_known_key_drains 0 kb up Hb Hz
              eq_refl eq_refl eq_refl Hf Hn
              (or_introl (fun E : klength up = 2%nat =>
                            O_S _ (eq_sym (f_equal Nat.pred
                                             (f_equal Nat.pred E))))))
    as (Hk & Hbuf & _).
  split; [exact Hk|exact Hbuf].
Defined.

Lemma parseKeyString_unknown_escape_witness :
  let kb := Sample.keyboard [0x1b; chr "Z"] false false [] in
  (at_ (fifo_buf kb) 0 = ESC0
   /\ find (known_key_matches kb) FKey.getKeyMap = Datatypes.None)
  /\ parseKeyString 50000 kb = (FKey.Incomplete, kb)
  /\ parseKeyString 200000 kb = (ESC0, consumeFront 1 kb).
Proof.
  intros kb.
  split; [split; reflexivity|].
  split.
  - exact (proj1 (parseKeyString_unknown_escape 50000 kb
                    eq_refl eq_refl eq_refl eq_refl) eq_refl).
  - exact (proj2 (parseKeyString_unknown_escape 200000 kb
                    eq_refl eq_refl eq_refl eq_refl) eq_refl).
Defined.

Lemma getMouseProtocolKey_none_witness :
  let kb := Sample.keyboard [0x1b; chr "["; chr "M"] false true [] in
  (mouse_support kb = true /\ (fifo_offset kb < 6)%nat)
  /\ getMouseProtocolKey kb = NOT_SET.
Proof.
  intros kb.
  assert (H : (fifo_offset kb < 6)%nat) by (apply Nat.ltb_lt; reflexivity).
  split; [split; [reflexivity|exact H]|].
  exact (getMouseProtocolKey_none kb (or_intror H)).
Defined.

Lemma UTF8decode_restarts_witness :
  Z.land 0x41 0xc0 <> 0x80
  /\ UTF8decode [0xe2; 0x82; 0x41] = UTF8decode [0x41].
Proof.
  assert (H : Z.land 0x41 0xc0 <> 0x80) by (intros E; discriminate E).
  split; [exact H|].
  apply (UTF8decode_restarts [0xe2; 0x82] 0x41 [] H).
  apply Nat.leb_le. reflexivity.
Defined.

Lemma consumeFront_compose_witness :
  let kb := Sample.keyboard [1; 2; 3; 4] false false [] in
  length (fifo_buf kb) = FIFO_BUF_SIZE
  /\ consumeFront 2 (consumeFront 1 kb) = consumeFront 3 kb.
Proof.
  intros kb.
  assert (H : length (fifo_buf kb) = FIFO_BUF_SIZE) by reflexivity.
  split; [exact H|].
  apply (consumeFront_compose 1 2 kb H).
  apply Nat.leb_le. reflexivity.
Defined.

Lemma setNonBlockingInput_round_trip_witness :
  let m := mkStdinMode 2 false in
  let os := mkFcntl [true; true] [] in
  let on := setNonBlockingInput 2048 true m os in
  let off := setNonBlockingInput 2048 false (snd (fst on)) (snd on) in
  non_blocking_stdin m = false
  /\ snd (fst off) = m
  /\ fcntl_calls (snd off) = [2050; 2].
Proof.
  intros m os on off.
  assert (H : non_blocking_stdin m = false) by reflexivity.
  split; [exact H|].
  pose proof (setNonBlockingInput_round_trip 2048 m [] [] H) as T.
  cbv zeta in T. destruct T as (_ & _ & _ & _ & Hc & Hm).
  split; [exact (Hm eq_refl)|exact Hc].
Defined.

Lemma parseKeyString_pushed_key_leaves_nul_witness :
  let kb := Sample.keyboard (replicate 512 (chr "A")) false false [] in
  (length (fifo_buf kb) = FIFO_BUF_SIZE
   /\ stringLength (fifo_buf kb) = FIFO_BUF_SIZE
   /\ fst (parseKeyString 0 kb) = chr "A")
  /\ at_ (fifo_buf (snd (parseKeyString 0 kb))) (FIFO_BUF_SIZE - 1) = 0
  /\ (stringLength (fifo_buf (snd (parseKeyString 0 kb)))
      < FIFO_BUF_SIZE)%nat.
Proof.
  intros kb.
  split; [repeat split; vm_compute; reflexivity|].
  assert (H1 : (1 <= FIFO_BUF_SIZE)%nat) by (apply Nat.leb_le; reflexivity).
  assert (Hlen : length (fifo_buf kb) = FIFO_BUF_SIZE)
    by (vm_compute; reflexivity).
  assert (Hoff : (0 < fifo_offset kb)%nat)
    by (apply Nat.ltb_lt; vm_compute; reflexivity).
  assert (Hpush : ~ ends_resolving
                      (keyCorrection (fst (parseKeyString 0 kb)))).
  { intros [E|[E|[E|E]]]; vm_compute in E; discriminate E. }
  pose proof (parseKeyString_pushed_key_leaves_nul 0 kb
                (fun k _ => eq_refl) H1 Hlen Hoff Hpush) as T.
  cbv zeta in T. destruct T as (_ & Hz & _ & Hs).
  split; [exact Hz|exact Hs].
Defined.

Lemma parseKeyBuffer_appends_witness :
  let kb := Sample.keyboard [] false false [65] in
  let input := [(chr "a", 10); (0x1b, 20)] in
  match parseKeyBuffer 3 0 input kb with
  | Some (kb', rest) => exists new, fkey_queue kb' = fkey_queue kb ++ new
  | Datatypes.None => False
  end.
Proof.
  intros kb input.
  destruct (parseKeyBuffer 3 0 input kb) as [[kb' rest]|] eqn:E.
  - exact (parseKeyBuffer_appends 3 0 input kb kb' rest
             (fun kb0 => eq_refl) E).
  - vm_compute in E. discriminate E.
Defined.

Lemma parseKeyBuffer_pending_flag_witness :
  let kb := set_has_pending_input true
              (Sample.keyboard [] false false []) in
  let input := [(chr "a", 10)] in
  match parseKeyBuffer 3 0 input kb with
  | Some (kb', rest) => has_pending_input kb' = false
  | Datatypes.None => False
  end.
Proof.
  intros kb input.
  destruct (parseKeyBuffer 3 0 input kb) as [[kb' rest]|] eqn:E.
  - apply (proj1 (@parseKeyBuffer_pending_flag Sample.header Sample.host
                    3 0 input kb kb' rest
                    (fun kb0 => eq_refl (has_pending_input kb0)) E)).
    intros N. discriminate N.
  - vm_compute in E. discriminate E.
Defined.

Lemma processQueuedInput_leaves_suffix_witness :
  let application := recorder (fun log => 2 <=? length log)%nat in
  let kb := Sample.keyboard [] false false [65; 66] in
  exists kb' a',
    @processQueuedInput Sample.header application
      (length (fkey_queue kb)) kb [] = Some (kb', a')
    /\ (exists done, fkey_queue kb = done ++ fkey_queue kb')
    /\ (fkey_queue kb' <> [] -> @isQuit application a' = true).
Proof.
  intros application kb.
  exact (@processQueuedInput_leaves_suffix Sample.header application kb []
           (fun kb0 a0 => eq_refl) (fun kb0 a0 => eq_refl)).
Defined.

Lemma parseKeyBuffer_plain_bytes_witness :
  let kb := Sample.keyboard [] false false [] in
  let input := [(chr "a", 10); (127, 20)] in
  exists kb',
    parseKeyBuffer 1 0 input kb = Some (kb', [])
    /\ fkey_queue kb'
       = fkey_queue kb
         ++ map (fun c => keyCorrection (remap c)) (bytes_of input)
    /\ fifo_buf kb' = replicate FIFO_BUF_SIZE 0
    /\ fifo_offset kb' = O.
Proof.
  intros kb input.
  apply (parseKeyBuffer_plain_bytes 0 0 input kb).
  - apply Nat.leb_le. reflexivity.
  - intros E. discriminate E.
  - reflexivity.
  - reflexivity.
  - intros E. discriminate E.
  - constructor; [|constructor; [|constructor]].
    + split.
      * split; [intros E; discriminate E|intros E; discriminate E].
      * intros [E|[E|[E|E]]]; discriminate E.
    + split.
      * split; [intros E; discriminate E|intros E; discriminate E].
      * intros [E|[E|[E|E]]]; discriminate E.
  - apply Nat.leb_le. reflexivity.
Defined.

Lemma parseKeyString_utf8_sequence_witness :
  let s := [0xe2; 0x82; 0xac] in
  let kb := Sample.keyboard s true false [] in
  (Z.land (at_ s 0) 0xc0 = 0xc0 /\ length s = utf8_len (at_ s 0))
  /\ fst (parseKeyString 0 kb) = 0x20ac
  /\ fifo_buf (snd (parseKeyString 0 kb)) = replicate FIFO_BUF_SIZE 0.
Proof.
  intros s kb.
  split; [split; reflexivity|].
  rewrite (@parseKeyString_utf8_sequence Sample.header
             0 kb s (replicate 509 0)
             eq_refl eq_refl eq_refl eq_refl eq_refl).
  - split; reflexivity.
  - constructor; [|constructor; [|constructor; [|constructor]]];
      intros E; discriminate E.
Defined.

Lemma parseKeyString_utf8_cut_short_witness :
  let kb := Sample.keyboard [0xe2; 0x82] true false [] in
  (stringLength (fifo_buf kb) < utf8_len (at_ (fifo_buf kb) 0))%nat
  /\ parseKeyString 50000 kb = (FKey.Incomplete, kb)
  /\ fst (parseKeyString 200000 kb) = 0x82.
Proof.
  intros kb.
  assert (H : (stringLength (fifo_buf kb)
               < utf8_len (at_ (fifo_buf kb) 0))%nat)
    by (apply Nat.ltb_lt; reflexivity).
  split; [exact H|]. split.
  - exact (parseKeyString_utf8_cut_short 50000 kb eq_refl eq_refl H).
  - rewrite (parseKeyString_utf8_cut_short 200000 kb eq_refl eq_refl H).
    reflexivity.
Defined.

End FurtherRuns.
